(** * AlumniTracer: the resumable name-resolution pipeline of [Main.py]

    A shallow embedding of [save_data_incrementally],
    [extract_profile_data], [search_and_handle_profiles], [linkedin_login]
    and [open_linkedin_login_and_search], and the properties of the
    pipeline proved or refuted on it.

    The browser is the environment.  Every answer the page gives to the
    program (a selector query, a click, a wait) is an input of the model:
    a query answers [Absent] (Python [None]), [Present] or [Throws] (the
    call raises).  The answers of one iteration of the search loop form an
    [Attempt]; a page is the list of the attempts it will answer, consumed
    one per search.  The loops of the program recurse on that list, so a
    loop that would go on searching for ever uses up every finite page and
    ends in [Hang]. *)

From Stdlib Require Import String Ascii List ZArith Arith Bool Lia.
Import ListNotations.
Local Open Scope string_scope.
Local Open Scope list_scope.

Set Implicit Arguments.

(** ** Library functions the program calls *)

(** [str.lower], [fuzz.ratio] of fuzzywuzzy and [os.path.join] are not part
    of the repository; the program is modelled over any implementation of
    them. *)
Class Externals : Type := {
  str_lower  : string -> string;
  fuzz_ratio : string -> string -> Z;
  path_join  : string -> string -> string
}.

(** ** Answers of the page *)

Inductive Query (A : Type) : Type :=
| Absent  : Query A
| Present : A -> Query A
| Throws  : Query A.
Arguments Absent {A}.
Arguments Throws {A}.

(** An element handle, seen through [inner_text().strip()]. *)
Definition Elem : Type := Query string.

Record EducationEntry : Type := {
  school_element       : Elem;
  edu_duration_element : Elem
}.

Record ExperienceItem : Type := {
  title_element        : Elem;
  company_element      : Elem;
  exp_duration_element : Elem;
  exp_location_element : Elem
}.

(** What a loaded profile page answers to [extract_profile_data]. *)
Record ProfilePage : Type := {
  name_element       : Elem;                          (* "h1" *)
  headline_element   : Elem;                          (* "div.text-body-medium" *)
  location_element   : Elem;                          (* "span.text-body-small" *)
  education_section  : Query (list EducationEntry);
  experience_section : Query (list ExperienceItem);
  skills_section     : Query (list Elem)
}.

(** Following the first matched container: [query_selector("a[href]")],
    the click and the wait that follow it. *)
Inductive Link : Type :=
| NoLink                          (* query_selector returned None *)
| LinkThrows                      (* the query, the click or the wait raised *)
| Opens (profile : ProfilePage).  (* the profile page is loaded *)

(** One iteration of [while attempt < 2]: the search raises, or it returns
    the result containers (each seen through its name element) and the
    answer to following the first matched one. *)
Inductive Attempt : Type :=
| SearchThrows
| Results (profile_containers : list Elem) (profile_link : Link).

Definition Page : Type := list Attempt.

(** ** Values of the program *)

Inductive Value : Type :=
| VStr (s : string)
| VInt (n : nat).

(** A Python dict with string keys, in insertion order. *)
Definition Dict : Type := list (string * Value).

Definition keys (d : Dict) : list string := map fst d.

Fixpoint get (d : Dict) (k : string) : option Value :=
  match d with
  | [] => None
  | (k', v) :: d' => if String.eqb k' k then Some v else get d' k
  end.

Record Education : Type := { school : string; edu_duration : string }.

Record Experience : Type := {
  title        : string;
  company      : string;
  exp_duration : string;
  exp_location : string
}.

(** [profile_data] as [extract_profile_data] returns it: the three basic
    keys are missing when the block that sets them raised before. *)
Record ProfileData : Type := {
  pd_name        : option string;
  pd_headline    : option string;
  pd_location    : option string;
  pd_education   : list Education;
  pd_experiences : list Experience;
  pd_skills      : list string
}.

(** An entry of [extracted_profiles]. *)
Record Profile : Type := {
  name            : string;
  headline        : string;
  location        : string;
  duplicate_count : nat
}.

(** An entry of [matched_profiles]. *)
Record Matched : Type := {
  container    : Elem;
  matched_name : string
}.

(** The four lists [search_and_handle_profiles] fills. *)
Record Extracted : Type := {
  extracted_profiles    : list Profile;
  extracted_education   : list Dict;
  extracted_experiences : list Dict;
  extracted_skills      : list Dict
}.

Definition no_extracted : Extracted :=
  {| extracted_profiles := []; extracted_education := [];
     extracted_experiences := []; extracted_skills := [] |}.

(** ** [extract_profile_data] *)

(** [e.inner_text().strip() if e else "N/A"]; [None] when it raises. *)
Definition text_or_na (e : Elem) : option string :=
  match e with
  | Absent => Some "N/A"
  | Present s => Some s
  | Throws => None
  end.

(** The loop over the education entries: an entry that raises ends the
    loop, the items appended before it stay. *)
Fixpoint read_education (entries : list EducationEntry) : list Education :=
  match entries with
  | [] => []
  | e :: rest =>
      match text_or_na (school_element e), text_or_na (edu_duration_element e) with
      | Some s, Some d => {| school := s; edu_duration := d |} :: read_education rest
      | _, _ => []
      end
  end.

Fixpoint read_experiences (items : list ExperienceItem) : list Experience :=
  match items with
  | [] => []
  | i :: rest =>
      match text_or_na (title_element i), text_or_na (company_element i),
            text_or_na (exp_duration_element i), text_or_na (exp_location_element i) with
      | Some t, Some c, Some d, Some l =>
          {| title := t; company := c; exp_duration := d; exp_location := l |}
            :: read_experiences rest
      | _, _, _, _ => []
      end
  end.

Fixpoint read_skills (items : list Elem) : list string :=
  match items with
  | [] => []
  | s :: rest =>
      match text_or_na s with
      | Some t => t :: read_skills rest
      | None => []
      end
  end.

(** A section that is absent, or whose query raises, leaves the list empty. *)
Definition section_items (A B : Type) (read : list A -> list B) (q : Query (list A)) : list B :=
  match q with
  | Present items => read items
  | _ => []
  end.

Definition extract_profile_data (page : ProfilePage) : ProfileData :=
  let basic :=
    match text_or_na (name_element page) with
    | None => (None, None, None)
    | Some n =>
        match text_or_na (headline_element page) with
        | None => (Some n, None, None)
        | Some h =>
            match text_or_na (location_element page) with
            | None => (Some n, Some h, None)
            | Some l => (Some n, Some h, Some l)
            end
        end
    end in
  {| pd_name := fst (fst basic);
     pd_headline := snd (fst basic);
     pd_location := snd basic;
     pd_education := section_items read_education (education_section page);
     pd_experiences := section_items read_experiences (experience_section page);
     pd_skills := section_items read_skills (skills_section page) |}.

(** ** The state of a run *)

(** What the run prints (the prints of the resolver loop are left out),
    and two actions that print nothing: the launch of a browser and the
    assignment to [last_processed_index]. *)
Inductive Event : Type :=
| BrowserLaunched                                        (* line 350 *)
| VerificationRequired                                   (* line 78 *)
| ProcessingProfile (name : string) (index : nat)        (* line 359 *)
| NoDataToSave (data_type : string)                      (* line 211 *)
| SavedIncrementally (data_type file_path : string)      (* line 225 *)
| IndexUpdated (index : nat)                             (* line 362, for this index *)
| ErrorProcessing (name : string)                        (* line 364 *)
| BrowserClosed                                          (* line 368 *)
| Retrying (retry_count : nat)                           (* line 372 *)
| MaxRetriesExceeded.                                    (* line 374 *)

(** A line of a CSV file, as [csv.DictWriter] wrote it. *)
Inductive Line : Type :=
| HeaderLine (fieldnames : list string)
| RowLine (cells : list Value).

Record State : Type := {
  page       : Page;                           (* the answers the page still holds *)
  files      : string -> option (list Line);   (* the files that exist, with their lines *)
  can_append : string -> bool;                 (* does open(path, 'a') succeed *)
  output     : list Event
}.

Definition set_page (p : Page) (s : State) : State :=
  {| page := p; files := files s; can_append := can_append s; output := output s |}.

Definition print (e : Event) (s : State) : State :=
  {| page := page s; files := files s; can_append := can_append s;
     output := output s ++ [e] |}.

Definition write_file (file_path : string) (content : list Line) (s : State) : State :=
  {| page := page s;
     files := fun p => if String.eqb p file_path then Some content else files s p;
     can_append := can_append s; output := output s |}.

(** How a call ends: it returns, it raises an exception, or it is still
    searching when the page has no answer left. *)
Inductive Result (S : Type) : Type :=
| Returned (s : S)
| Raised (s : S)
| Hang (s : S).

Definition and_then (S : Type) (r : Result S) (k : S -> Result S) : Result S :=
  match r with
  | Returned s => k s
  | Raised s => Raised s
  | Hang s => Hang s
  end.

Notation "r >>= k" := (and_then r k) (at level 50, left associativity).

Section Pipeline.

Context {ext : Externals}.

(** ** Match scorer (lines 264 and 278) *)

Definition match_score (name profile_name : string) : Z :=
  fuzz_ratio (str_lower name) (str_lower profile_name).

Definition is_match (name profile_name : string) : bool :=
  (90 <=? match_score name profile_name)%Z.

(** ** Duplicate count (lines 277-281) *)

Definition count_duplicates (extracted : list Profile) (matched : list Matched) : nat :=
  list_sum
    (flat_map
       (fun existing_profile =>
          map (fun m => if is_match (name existing_profile) (matched_name m) then 1 else 0)
              matched)
       extracted).

(** ** [search_and_handle_profiles] *)

(** The loop over the result containers (lines 258-271).  [false] when a
    name element raised: the entries appended before it stay in
    [matched_profiles]. *)
Fixpoint scan_containers (name : string) (containers : list Elem)
    (matched : list Matched) : list Matched * bool :=
  match containers with
  | [] => (matched, true)
  | c :: rest =>
      match c with
      | Absent => scan_containers name rest matched
      | Throws => (matched, false)
      | Present profile_name =>
          scan_containers name rest
            (if is_match name profile_name
             then matched ++ [{| container := c; matched_name := profile_name |}]
             else matched)
      end
  end.

Definition education_row (n : string) (e : Education) : Dict :=
  [("name", VStr n); ("school", VStr (school e)); ("duration", VStr (edu_duration e))].

Definition experience_row (n : string) (e : Experience) : Dict :=
  [("name", VStr n); ("title", VStr (title e)); ("company", VStr (company e));
   ("duration", VStr (exp_duration e)); ("location", VStr (exp_location e))].

Definition skill_row (n : string) (s : string) : Dict :=
  [("name", VStr n); ("skill", VStr s)].

(** Lines 296-309, once the three basic keys were read. *)
Definition add_profile (n h l : string) (dc : nat) (pd : ProfileData) (ex : Extracted)
    : Extracted :=
  {| extracted_profiles :=
       extracted_profiles ex ++
         [{| name := n; headline := h; location := l; duplicate_count := dc |}];
     extracted_education :=
       extracted_education ex ++ map (education_row n) (pd_education pd);
     extracted_experiences :=
       extracted_experiences ex ++ map (experience_row n) (pd_experiences pd);
     extracted_skills :=
       extracted_skills ex ++ map (skill_row n) (pd_skills pd) |}.

(** Lines 321-326. *)
Definition add_notice (name : string) (ex : Extracted) : Extracted :=
  {| extracted_profiles :=
       extracted_profiles ex ++
         [{| name := name; headline := "N/A"; location := "N/A"; duplicate_count := 0 |}];
     extracted_education := extracted_education ex;
     extracted_experiences := extracted_experiences ex;
     extracted_skills := extracted_skills ex |}.

(** The variables of the loop of one name when it is left. *)
Record LoopExit : Type := {
  exit_attempt   : nat;
  exit_matched   : list Matched;
  exit_extracted : Extracted;
  exit_page      : Page
}.

(** [while attempt < 2] (lines 246-317).  [None]: the page has no answer
    left and the loop is still running. *)
Fixpoint search_loop (name : string) (pg : Page) (attempt : nat)
    (matched : list Matched) (ex : Extracted) : option LoopExit :=
  if (attempt <? 2)%nat then
    match pg with
    | [] => None
    | SearchThrows :: pg' => search_loop name pg' (S attempt) matched ex
    | Results [] _ :: pg' =>
        (* "No profiles found ... Skipping..." and break *)
        Some {| exit_attempt := attempt; exit_matched := matched;
                exit_extracted := ex; exit_page := pg' |}
    | Results containers link :: pg' =>
        match scan_containers name containers matched with
        | (matched', false) => search_loop name pg' (S attempt) matched' ex
        | ([], true) => search_loop name pg' (S attempt) [] ex
        | (matched', true) =>
            let duplicate_count := count_duplicates (extracted_profiles ex) matched' in
            match link with
            | NoLink => search_loop name pg' attempt matched' ex
            | LinkThrows => search_loop name pg' (S attempt) matched' ex
            | Opens profile =>
                let pd := extract_profile_data profile in
                match pd_name pd, pd_headline pd, pd_location pd with
                | Some n, Some h, Some l =>
                    Some {| exit_attempt := attempt; exit_matched := matched';
                            exit_extracted := add_profile n h l duplicate_count pd ex;
                            exit_page := pg' |}
                | _, _, _ => (* KeyError at lines 297-299 *)
                    search_loop name pg' (S attempt) matched' ex
                end
            end
        end
    end
  else
    Some {| exit_attempt := attempt; exit_matched := matched;
            exit_extracted := ex; exit_page := pg |}.

(** One turn of [for name in names] (lines 242-326). *)
Definition handle_name (name : string) (pg : Page) (ex : Extracted)
    : option (Extracted * Page) :=
  match search_loop name pg 0 [] ex with
  | None => None
  | Some e =>
      Some (match exit_attempt e, exit_matched e with
            | 2, [] => add_notice name (exit_extracted e)
            | _, _ => exit_extracted e
            end,
            exit_page e)
  end.

Fixpoint handle_names (names : list string) (pg : Page) (ex : Extracted)
    : option (Extracted * Page) :=
  match names with
  | [] => Some (ex, pg)
  | name :: names' =>
      match handle_name name pg ex with
      | None => None
      | Some (ex', pg') => handle_names names' pg' ex'
      end
  end.

(** ** [save_data_incrementally] (lines 201-225) *)

(** [DictWriter._dict_to_list]: a key that is not a field name raises
    [ValueError], a field the row lacks is written as the empty string. *)
Definition dict_to_list (fieldnames : list string) (rowdict : Dict) : option (list Value) :=
  if forallb (fun k => existsb (String.eqb k) fieldnames) (keys rowdict)
  then Some (map (fun k => match get rowdict k with
                           | Some v => v
                           | None => VStr ""
                           end) fieldnames)
  else None.

(** [writer.writerows]: the rows before one that raises are written. *)
Fixpoint writerows (fieldnames : list string) (data : list Dict) : list Line * bool :=
  match data with
  | [] => ([], true)
  | rowdict :: rest =>
      match dict_to_list fieldnames rowdict with
      | None => ([], false)
      | Some cells =>
          let (lines, ok) := writerows fieldnames rest in
          (RowLine cells :: lines, ok)
      end
  end.

Definition content (s : State) (file_path : string) : list Line :=
  match files s file_path with
  | Some lines => lines
  | None => []
  end.

Definition isfile (s : State) (file_path : string) : bool :=
  match files s file_path with
  | Some _ => true
  | None => false
  end.

Definition save_data_incrementally (data_type : string) (data : list Dict)
    (file_path : string) (s : State) : Result State :=
  match data with
  | [] => Returned (print (NoDataToSave data_type) s)
  | first :: _ =>
      let file_exists := isfile s file_path in
      if can_append s file_path then
        let fieldnames := keys first in
        let header := if file_exists then [] else [HeaderLine fieldnames] in
        let (rows, ok) := writerows fieldnames data in
        let s' := write_file file_path (content s file_path ++ header ++ rows) s in
        if ok then Returned (print (SavedIncrementally data_type file_path) s')
        else Raised s'
      else Raised s
  end.

Definition profile_row (p : Profile) : Dict :=
  [("name", VStr (name p)); ("headline", VStr (headline p));
   ("location", VStr (location p)); ("duplicate_count", VInt (duplicate_count p))].

(** [search_and_handle_profiles] (lines 227-332): the loop over the names
    from four empty lists, then the four saves. *)
Definition search_and_handle_profiles (names : list string) (output_directory : string)
    (s : State) : Result State :=
  match handle_names names (page s) no_extracted with
  | None => Hang (set_page [] s)
  | Some (ex, pg) =>
      save_data_incrementally "profiles" (map profile_row (extracted_profiles ex))
        (path_join output_directory "ExtractedProfiles.csv") (set_page pg s)
      >>= save_data_incrementally "education" (extracted_education ex)
            (path_join output_directory "Education.csv")
      >>= save_data_incrementally "experiences" (extracted_experiences ex)
            (path_join output_directory "Experiences.csv")
      >>= save_data_incrementally "skills" (extracted_skills ex)
            (path_join output_directory "Skills.csv")
  end.

(** ** [linkedin_login] (lines 53-85) *)

Record LoginPage : Type := {
  form_ok             : bool;           (* goto, wait, fill and click did not raise *)
  verification_header : Query string;   (* "h1.content__header" and its inner_text() *)
  homepage_loaded     : bool            (* the search box appeared within the timeout *)
}.

Fixpoint contains (sub s : string) : bool :=
  String.prefix sub s ||
  match s with
  | EmptyString => false
  | String _ s' => contains sub s'
  end.

Definition linkedin_login (lp : LoginPage) (s : State) : Result State :=
  if form_ok lp then
    let wait_for_homepage := if homepage_loaded lp then Returned s else Raised s in
    match verification_header lp with
    | Present text =>
        if contains "Let’s do a quick verification" text
        then Returned (print VerificationRequired s)
        else wait_for_homepage
    | Absent => wait_for_homepage
    | Throws => wait_for_homepage
    end
  else Raised s.

(** ** [open_linkedin_login_and_search] (lines 334-374) *)

(** What one pass of the [try] block meets: whether the browser starts,
    the login page, the page the searches run on, whether the browser
    closes. *)
Record Session : Type := {
  launch_ok   : bool;
  login_page  : LoginPage;
  search_page : Page;
  close_ok    : bool
}.

Definition max_retries : nat := 3.

(** [for index in range(last_processed_index, len(names))] (lines 357-365),
    on the names from [index] on.  The second component is
    [last_processed_index] when the loop is left. *)
Fixpoint candidate_loop (output_directory : string) (index : nat)
    (remaining : list string) (last_processed_index : nat) (s : State)
    : Result State * nat :=
  match remaining with
  | [] => (Returned s, last_processed_index)
  | name :: rest =>
      match search_and_handle_profiles [name] output_directory
              (print (ProcessingProfile name index) s) with
      | Returned s' =>
          candidate_loop output_directory (S index) rest (S index)
            (print (IndexUpdated index) s')
      | Raised s' => (Raised (print (ErrorProcessing name) s'), last_processed_index)
      | Hang s' => (Hang s', last_processed_index)
      end
  end.

(** The [try] block (lines 349-369). *)
Definition session (sess : Session) (names : list string) (output_directory : string)
    (last_processed_index : nat) (s : State) : Result State * nat :=
  if launch_ok sess then
    match linkedin_login (login_page sess)
            (print BrowserLaunched (set_page (search_page sess) s)) with
    | Returned s1 =>
        match candidate_loop output_directory last_processed_index
                (skipn last_processed_index names) last_processed_index s1 with
        | (Returned s2, i) =>
            if close_ok sess then (Returned (print BrowserClosed s2), i)
            else (Raised s2, i)
        | r => r
        end
    | Raised s1 => (Raised s1, last_processed_index)
    | Hang s1 => (Hang s1, last_processed_index)
    end
  else (Raised s, last_processed_index).

(** [while retry_count < max_retries] (lines 347-374), by recursion on
    [max_retries - retry_count]; [sessions k] is what the pass with
    [retry_count = k] meets. *)
Fixpoint retry_loop (tries_left : nat) (sessions : nat -> Session) (names : list string)
    (output_directory : string) (retry_count last_processed_index : nat) (s : State)
    : Result State * nat :=
  match tries_left with
  | 0 => (Returned (print MaxRetriesExceeded s), last_processed_index)
  | S n =>
      match session (sessions retry_count) names output_directory
              last_processed_index s with
      | (Returned s', i) => (Returned s', i)
      | (Raised s', i) =>
          retry_loop n sessions names output_directory (S retry_count) i
            (print (Retrying (S retry_count)) s')
      | (Hang s', i) => (Hang s', i)
      end
  end.

Definition open_linkedin_login_and_search (sessions : nat -> Session)
    (names : list string) (output_directory : string) (s : State) : Result State * nat :=
  retry_loop max_retries sessions names output_directory 0 0 s.

End Pipeline.

(** ** An instance of the library functions

    ASCII lower-casing, a similarity in the manner of [fuzz.ratio] (100 on
    equal strings, 0 when one string is empty, otherwise twice the length
    of a longest common subsequence over the total length, as a rounded
    percentage) and the POSIX path join.  The concrete runs below use it. *)
Module Reference.

Definition lower_char (c : ascii) : ascii :=
  let n := nat_of_ascii c in
  if ((65 <=? n) && (n <=? 90))%nat then ascii_of_nat (n + 32) else c.

Fixpoint lower (s : string) : string :=
  match s with
  | EmptyString => EmptyString
  | String c s' => String (lower_char c) (lower s')
  end.

Fixpoint lcs (a b : string) : nat :=
  match a with
  | EmptyString => 0
  | String x a' =>
      (fix lcs_a (b : string) : nat :=
         match b with
         | EmptyString => 0
         | String y b' =>
             if Ascii.eqb x y then S (lcs a' b')
             else Nat.max (lcs a' b) (lcs_a b')
         end) b
  end.

Definition ratio (a b : string) : Z :=
  if String.eqb a b then 100%Z
  else
    let total := (String.length a + String.length b)%nat in
    if ((String.length a =? 0) || (String.length b =? 0))%nat then 0%Z
    else Z.of_nat ((400 * lcs a b + total) / (2 * total)).

Definition join (directory file : string) : string :=
  directory ++ "/" ++ file.

#[export] Instance externals : Externals :=
  {| str_lower := lower; fuzz_ratio := ratio; path_join := join |}.

End Reference.

(** * The vocabulary of the properties *)

(** ** Files and results *)

Definition state_of (S : Type) (r : Result S) : S :=
  match r with
  | Returned s => s
  | Raised s => s
  | Hang s => s
  end.

Definition is_header (l : Line) : bool :=
  match l with
  | HeaderLine _ => true
  | RowLine _ => false
  end.

Definition headers (lines : list Line) : nat := length (filter is_header lines).

Definition rows (lines : list Line) : nat :=
  length (filter (fun l => negb (is_header l)) lines).

(** Calls of the persistor on one destination, one after the other,
    whether or not a call raises. *)
Fixpoint append_all (data_type : string) (file_path : string)
    (batches : list (list Dict)) (s : State) : State :=
  match batches with
  | [] => s
  | data :: rest =>
      append_all data_type file_path rest
        (state_of (save_data_incrementally data_type data file_path s))
  end.

(** What one call does to the destination and to the other files. *)
Definition appended (data : list Dict) (file_path : string) (s : State)
    (r : Result State) : Prop :=
  let s' := state_of r in
  (forall p, p <> file_path -> files s' p = files s p) /\
  exists added : list Line,
    content s' file_path = content s file_path ++ added /\
    headers added <= 1 /\
    (isfile s file_path = true -> headers added = 0) /\
    (headers added = 1 ->
       isfile s file_path = false /\
       exists first lines, data = first :: lines /\
         exists cells, added = HeaderLine (keys first) :: cells /\ headers cells = 0) /\
    (isfile s file_path = false -> data <> [] -> can_append s file_path = true ->
       headers added = 1) /\
    rows added <= length data /\
    (data <> [] -> r = Returned s' -> rows added = length data) /\
    (isfile s file_path = true -> isfile s' file_path = true).

(** ** The output of a run *)

(** The indices whose update of [last_processed_index] the output records. *)
Definition updates (tr : list Event) : list nat :=
  flat_map (fun e => match e with
                     | IndexUpdated i => [i]
                     | _ => []
                     end) tr.

Definition launches (tr : list Event) : nat :=
  length (filter (fun e => match e with
                           | BrowserLaunched => true
                           | _ => false
                           end) tr).

(** [e] is what a call of the persistor for [data_type] prints when it
    returns. *)
Definition Saved (data_type : string) (e : Event) : Prop :=
  e = NoDataToSave data_type \/ exists file_path, e = SavedIncrementally data_type file_path.

Definition persistor_event (e : Event) : bool :=
  match e with
  | NoDataToSave _ | SavedIncrementally _ _ => true
  | _ => false
  end.

(** Events that neither start a candidate nor update the index. *)
Definition neutral (e : Event) : bool :=
  match e with
  | ProcessingProfile _ _ | IndexUpdated _ => false
  | _ => true
  end.

(** The resume discipline of a piece of output that starts when the
    candidates before [k] are completed: a candidate is taken up only when
    exactly the candidates before it are completed; an index is updated
    right after the four saves of its candidate returned; the updates come
    in order, from [k] on. *)
Definition Resumed (names : list string) (k : nat) (tr : list Event) : Prop :=
  (forall t1 t2 name j,
      tr = t1 ++ ProcessingProfile name j :: t2 ->
      updates t1 = seq k (j - k) /\ k <= j /\ nth_error names j = Some name) /\
  (forall t1 t2 i,
      tr = t1 ++ IndexUpdated i :: t2 ->
      exists t0 name e1 e2 e3 e4,
        t1 = t0 ++ [ProcessingProfile name i; e1; e2; e3; e4] /\
        Saved "profiles" e1 /\ Saved "education" e2 /\
        Saved "experiences" e3 /\ Saved "skills" e4) /\
  updates tr = seq k (length (updates tr)).

(** A call that started in [s] printed, when it returned, one persistor
    line for each data type of [data_types], and persistor lines only in
    any case. *)
Definition Emitted (s : State) (r : Result State) (data_types : list string) : Prop :=
  exists evs : list Event,
    output (state_of r) = output s ++ evs /\
    Forall (fun e => persistor_event e = true) evs /\
    (forall s', r = Returned s' -> Forall2 Saved data_types evs).

(** ** The records of a candidate *)

(** The rows of the three lists have the keys of their kind. *)
Definition well_keyed (ex : Extracted) : Prop :=
  Forall (fun r => keys r = ["name"; "school"; "duration"]) (extracted_education ex) /\
  Forall (fun r => keys r = ["name"; "title"; "company"; "duration"; "location"])
         (extracted_experiences ex) /\
  Forall (fun r => keys r = ["name"; "skill"]) (extracted_skills ex).

(** The name a profile page displays: the text of its heading, "N/A"
    when it has none (line 103). *)
Definition display_name (p : ProfilePage) : string :=
  match name_element p with
  | Present text => text
  | _ => "N/A"
  end.

Section Vocabulary.

Context {ext : Externals}.

(** The count as the specification words it: the pairs (existing accepted
    profile, new match) whose names match, every pair counted. *)
Definition countDuplicates_spec (accepted : list Profile) (newMatches : list Matched) : nat :=
  length
    (filter (fun pair => is_match (name (fst pair)) (matched_name (snd pair)))
            (list_prod accepted newMatches)).

(** How the loop of one name was left: some answers of the page were used,
    and either nothing was recorded, or the last answer used opened a
    profile page whose data were appended. *)
Definition loop_left (name : string) (pg : Page) (ex : Extracted) (e : LoopExit) : Prop :=
  exists used : Page,
    pg = used ++ exit_page e /\
    (exit_extracted e = ex \/
     exists before containers profile n h l,
       used = before ++ [Results containers (Opens profile)] /\
       pd_name (extract_profile_data profile) = Some n /\
       exit_matched e <> [] /\
       exit_extracted e =
         add_profile n h l
           (count_duplicates (extracted_profiles ex) (exit_matched e))
           (extract_profile_data profile) ex).

(** An attempt that leaves [matched_profiles] empty and counts as failed:
    the search raises, or no container read matches the name. *)
Definition unmatched (name : string) (a : Attempt) : bool :=
  match a with
  | SearchThrows => true
  | Results [] _ => false
  | Results containers _ =>
      match fst (scan_containers name containers []) with
      | [] => true
      | _ :: _ => false
      end
  end.

(** What the loop of one name records: never more than one profile; none
    when the search returns no result entry; the "N/A" notice when two
    attempts in a row fail without a match; the profile opened when the
    first search finds a match and the page opened can be read. *)
Definition candidate_records : Prop :=
  (forall name pg ex ex' pg',
      handle_name name pg ex = Some (ex', pg') ->
      extracted_profiles ex' = extracted_profiles ex \/
      exists p, extracted_profiles ex' = extracted_profiles ex ++ [p]) /\
  (forall name link pg ex,
      handle_name name (Results [] link :: pg) ex = Some (ex, pg)) /\
  (forall name a1 a2 pg ex,
      unmatched name a1 = true -> unmatched name a2 = true ->
      handle_name name (a1 :: a2 :: pg) ex = Some (add_notice name ex, pg)) /\
  (forall name containers profile pg ex m matched l,
      scan_containers name containers [] = (m :: matched, true) ->
      pd_location (extract_profile_data profile) = Some l ->
      exists h,
        handle_name name (Results containers (Opens profile) :: pg) ex
        = Some (add_profile (display_name profile) h l
                  (count_duplicates (extracted_profiles ex) (m :: matched))
                  (extract_profile_data profile) ex, pg)).

Definition profiles_path (output_directory : string) : string :=
  path_join output_directory "ExtractedProfiles.csv".

(** The three other destinations are not the file of the profiles. *)
Definition destinations_distinct (output_directory : string) : Prop :=
  path_join output_directory "Education.csv" <> profiles_path output_directory /\
  path_join output_directory "Experiences.csv" <> profiles_path output_directory /\
  path_join output_directory "Skills.csv" <> profiles_path output_directory.

(** From the resume index [start] to the resume index [i], the file of the
    profiles gained at most [i - start] rows, and every destination can
    still be appended to. *)
Definition rows_bound (output_directory : string) (start : nat) (s : State)
    (r : Result State) (i : nat) : Prop :=
  (forall p, can_append (state_of r) p = true) /\
  start <= i /\
  rows (content (state_of r) (profiles_path output_directory)) + start
  <= rows (content s (profiles_path output_directory)) + i.

(** After the run, the file of the profiles holds at most one more row
    for each index the run completed, and the run completed no more indices
    than there are names. *)
Definition profile_rows_bounded (sessions : nat -> Session) (names : list string)
    (output_directory : string) (s : State) : Prop :=
  let run := open_linkedin_login_and_search sessions names output_directory s in
  rows (content (state_of (fst run)) (profiles_path output_directory))
  <= rows (content s (profiles_path output_directory)) + snd run /\
  snd run <= length names.

(** What a piece of the run printed after [s], from the resume index
    [start] to the resume index [i], with at most [n] launches. *)
Definition run_output (names : list string) (start : nat) (s : State)
    (r : Result State) (i : nat) (n : nat) : Prop :=
  exists tr : list Event,
    output (state_of r) = output s ++ tr /\
    Resumed names start tr /\
    i = start + length (updates tr) /\
    launches tr <= n.

End Vocabulary.

(** ** The data of the concrete runs *)

(** A profile page whose heading is not the name searched for. *)
Definition jane_page : ProfilePage :=
  {| name_element := Present "Jane A. Doe";
     headline_element := Present "Engineer";
     location_element := Absent;
     education_section :=
       Present [{| school_element := Present "Isabela State University";
                   edu_duration_element := Present "2016 - 2020" |}];
     experience_section := Absent;
     skills_section := Present [Present "Python"] |}.

(** A profile page headed "Jane Doe", with no section. *)
Definition doe_page : ProfilePage :=
  {| name_element := Present "Jane Doe";
     headline_element := Present "Engineer";
     location_element := Present "Manila";
     education_section := Absent;
     experience_section := Absent;
     skills_section := Absent |}.

Definition logged_in : LoginPage :=
  {| form_ok := true; verification_header := Absent; homepage_loaded := true |}.

(** The login meets the verification prompt. *)
Definition challenged : LoginPage :=
  {| form_ok := true;
     verification_header := Present "Let’s do a quick verification";
     homepage_loaded := false |}.

(** Every pass starts a browser that answers [pg] to the searches. *)
Definition every_session (lp : LoginPage) (pg : Page) : nat -> Session :=
  fun _ => {| launch_ok := true; login_page := lp; search_page := pg; close_ok := true |}.

(** No file yet, every destination open to appends, nothing printed. *)
Definition fresh : State :=
  {| page := []; files := fun _ => None; can_append := fun _ => true; output := [] |}.

(** The search results that name "Jane Doe" once and lead to [doe_page]. *)
Definition doe_results : Attempt := Results [Present "Jane Doe"] (Opens doe_page).

Definition doe_row (duplicates : nat) : Line :=
  RowLine [VStr "Jane Doe"; VStr "Engineer"; VStr "Manila"; VInt duplicates].

(** The search results that name "Jane Doe" in a container without a link. *)
Definition unlinked_results : Attempt := Results [Present "Jane Doe"] NoLink.

(** Splits a conjunction of five properties, leaving each as it is. *)
Ltac split5 := split; [|split; [|split; [|split]]].

(** * The other functions of [Main.py] *)

(** The exceptions these functions raise or let through. *)
Inductive Exc : Type :=
| FileNotFoundError
| ValueError
| PermissionError
| OSError.

(** A value, or the exception raised instead. *)
Inductive Try (A : Type) : Type :=
| Gives (a : A)
| Fails (e : Exc).
Arguments Fails {A}.

(** [s.endswith(suffix)]. *)
Fixpoint ends_with (suffix s : string) : bool :=
  String.eqb s suffix ||
  match s with
  | EmptyString => false
  | String _ s' => ends_with suffix s'
  end.

(** [max(items, key=key)] after its first item: the key of every further
    item is computed once, in order, and an exception it raises is the
    call's; an item replaces the best one when its key is greater.  Keys are
    compared as the timestamps are, as integers here. *)
Fixpoint max_from (A : Type) (key : A -> Try Z) (best : A) (best_key : Z)
    (rest : list A) : Try A :=
  match rest with
  | [] => Gives best
  | x :: rest' =>
      match key x with
      | Fails e => Fails e
      | Gives k =>
          if (best_key <? k)%Z then max_from key x k rest'
          else max_from key best best_key rest'
      end
  end.

(** [max(items, key=key)] on a non-empty list [first :: rest]: the key is
    computed for the first item too, also when it is the only one. *)
Definition max_by (A : Type) (key : A -> Try Z) (first : A) (rest : list A) : Try A :=
  match key first with
  | Fails e => Fails e
  | Gives k => max_from key first k rest
  end.

Section OtherFunctions.

Context {ext : Externals}.

(** [get_recent_csv] (lines 22-35).  [listdir] is what [os.listdir]
    answers for the directory, [getctime] what [os.path.getctime] answers
    for a path: the creation time, or the exception it raises (a dangling
    link, a file removed since the listing). *)
Definition get_recent_csv (listdir : Try (list string)) (getctime : string -> Try Z)
    (directory : string) : Try string :=
  match listdir with
  | Fails e => Fails e
  | Gives entries =>
      match map (path_join directory) (filter (ends_with ".csv") entries) with
      | [] => Fails FileNotFoundError
      | f :: files => max_by getctime f files
      end
  end.

(** The field names of [save_profile_data_to_csv] (lines 188 and 196). *)
Definition profile_fieldnames : list string :=
  ["name"; "headline"; "location"; "current_company"; "education"; "notice";
   "duplicate"].

(** The body of [with open(path, mode='w')] of lines 187-190 and 195-198,
    once the file is open: the file is emptied, the header and the rows are
    written; a row that raises leaves the lines written before it. *)
Definition write_profiles (profile_data : list Dict) (file_path : string) (s : State)
    : Result State :=
  let (lines, ok) := writerows profile_fieldnames profile_data in
  let s' := write_file file_path (HeaderLine profile_fieldnames :: lines) s in
  if ok then Returned s' else Raised s'.

(** [save_profile_data_to_csv] (lines 172-199), its prints left out.
    [directory_ok]: the output directory exists or [os.makedirs] creates it;
    [open_w path]: the exception [open(path, mode='w')] raises, if any. *)
Definition save_profile_data_to_csv (directory_ok : bool)
    (open_w : string -> option Exc) (profile_data : list Dict)
    (output_directory : string) (s : State) : Result State :=
  if directory_ok then
    let output_file := path_join output_directory "ExtractedProfiles.csv" in
    match open_w output_file with
    | None => write_profiles profile_data output_file s
    | Some PermissionError =>
        let alternative_file := path_join output_directory "ExtractedProfiles_Alt.csv" in
        match open_w alternative_file with
        | None => write_profiles profile_data alternative_file s
        | Some _ => Raised s
        end
    | Some _ => Raised s
    end
  else Raised s.

End OtherFunctions.

(** ** The vocabulary of the further properties *)

(** [m] is the first item of [l] whose key no item of [l] exceeds. *)
Definition first_max (A : Type) (key : A -> Z) (l : list A) (m : A) : Prop :=
  exists before after,
    l = before ++ m :: after /\
    (forall x, In x before -> (key x < key m)%Z) /\
    (forall x, In x after -> (key x <= key m)%Z).

(** The key an answer carries; an exception carries none. *)
Definition key_of (A : Type) (key : A -> Try Z) (x : A) : Z :=
  match key x with
  | Gives k => k
  | Fails _ => 0%Z
  end.

(** The key of every item of [l] can be computed. *)
Definition all_keyed (A : Type) (key : A -> Try Z) (l : list A) : Prop :=
  forall x, In x l -> exists k, key x = Gives k.

(** The texts of the containers that have a name element. *)
Definition container_names (containers : list Elem) : list string :=
  flat_map (fun c => match c with
                     | Present text => [text]
                     | _ => []
                     end) containers.

(** The answer does not say that the matched container has no link. *)
Definition linked (a : Attempt) : bool :=
  match a with
  | Results _ NoLink => false
  | _ => true
  end.

Definition readable (e : Elem) : bool :=
  match e with
  | Throws => false
  | _ => true
  end.

Definition education_readable (e : EducationEntry) : bool :=
  readable (school_element e) && readable (edu_duration_element e).

Definition experience_readable (i : ExperienceItem) : bool :=
  readable (title_element i) && readable (company_element i) &&
  readable (exp_duration_element i) && readable (exp_location_element i).

(** The three basic elements of a profile page can be read. *)
Definition basics_readable (p : ProfilePage) : bool :=
  readable (name_element p) && readable (headline_element p) &&
  readable (location_element p).

(** The text an element gives, "N/A" when there is none. *)
Definition text_of (e : Elem) : string :=
  match e with
  | Present text => text
  | _ => "N/A"
  end.

(** The lines of a file are those of another, and more after them. *)
Definition extends (old new : list Line) : Prop :=
  exists added, new = old ++ added.

(** Every file that existed still exists, its old lines first. *)
Definition files_kept (s s' : State) : Prop :=
  forall p,
    extends (content s p) (content s' p) /\
    (isfile s p = true -> isfile s' p = true).

(** Following the first matched container gives no profile data: the
    click raises, or a basic element of the page opened raises. *)
Definition follow_fails (l : Link) : bool :=
  match l with
  | NoLink => false
  | LinkThrows => true
  | Opens p => negb (basics_readable p)
  end.

Section FurtherVocabulary.

Context {ext : Externals}.

(** An attempt that ends without a record once [matched_profiles] is not
    empty: the search raises, returns nothing, a name element raises, or
    the match cannot be followed. *)
Definition gives_up (name : string) (a : Attempt) : bool :=
  match a with
  | SearchThrows => true
  | Results [] _ => true
  | Results containers link =>
      negb (snd (scan_containers name containers [])) || follow_fails link
  end.

End FurtherVocabulary.

(** Every key of the row is a field name: [_dict_to_list] does not raise. *)
Definition fits (fieldnames : list string) (rowdict : Dict) : bool :=
  forallb (fun k => existsb (String.eqb k) fieldnames) (keys rowdict).

(** The value written for a field: the row's, or the empty string. *)
Definition cell (rowdict : Dict) (k : string) : Value :=
  match get rowdict k with
  | Some v => v
  | None => VStr ""
  end.

(** The line written for a row that fits. *)
Definition row_line (fieldnames : list string) (rowdict : Dict) : Line :=
  RowLine (map (cell rowdict) fieldnames).

(** The header a call of the persistor writes before the rows. *)
Definition header_for (s : State) (file_path : string) (first : Dict) : list Line :=
  if isfile s file_path then [] else [HeaderLine (keys first)].

(** The longest prefix of [l] whose items all satisfy [ok]. *)
Fixpoint prefix_while (A : Type) (ok : A -> bool) (l : list A) : list A :=
  match l with
  | [] => []
  | x :: l' => if ok x then x :: prefix_while ok l' else []
  end.

Definition education_of (e : EducationEntry) : Education :=
  {| school := text_of (school_element e);
     edu_duration := text_of (edu_duration_element e) |}.

Definition experience_of (i : ExperienceItem) : Experience :=
  {| title := text_of (title_element i);
     company := text_of (company_element i);
     exp_duration := text_of (exp_duration_element i);
     exp_location := text_of (exp_location_element i) |}.

(** ** The data of the further concrete runs *)

Definition doe_match : Matched :=
  {| container := Present "Jane Doe"; matched_name := "Jane Doe" |}.

(** The match is found and the click on its link raises. *)
Definition unfollowed_results : Attempt := Results [Present "Jane Doe"] LinkThrows.

Definition doe_notice : Profile :=
  {| name := "Jane Doe"; headline := "N/A"; location := "N/A"; duplicate_count := 0 |}.

Definition doe_profile : Profile :=
  {| name := "Jane Doe"; headline := "Engineer"; location := "Manila";
     duplicate_count := 0 |}.

(** A row with a key the first row of its batch does not have. *)
Definition odd_row : Dict := [("name", VStr "Jane Doe"); ("notice", VStr "none")].

Definition opens_every_file : string -> option Exc := fun _ => None.

(** A profile page headed "Jane Doe" with one education entry. *)
Definition schooled_page : ProfilePage :=
  {| name_element := Present "Jane Doe";
     headline_element := Present "Engineer";
     location_element := Present "Manila";
     education_section :=
       Present [{| school_element := Present "Isabela State University";
                   edu_duration_element := Absent |}];
     experience_section := Absent;
     skills_section := Absent |}.

(** Only the file of the profiles can be appended to; the page answers
    one search, with a match that leads to [schooled_page]. *)
Definition failing_education : State :=
  {| page := [Results [Present "Jane Doe"] (Opens schooled_page)];
     files := fun _ => None;
     can_append := fun p => String.eqb p "out/ExtractedProfiles.csv";
     output := [] |}.

(** ** The records of a resolved candidate, written out *)

(** The four lists after lines 296-309 appended the data of the opened
    profile page [p] with the duplicate count [dc]: one profile entry and
    the rows of the three other lists, each with the name the page
    displays under the key "name". *)
Definition resolved_records (p : ProfilePage) (dc : nat) (ex : Extracted) : Extracted :=
  {| extracted_profiles :=
       extracted_profiles ex ++
         [{| name := display_name p;
             headline := text_of (headline_element p);
             location := text_of (location_element p);
             duplicate_count := dc |}];
     extracted_education :=
       extracted_education ex ++
         map (fun e => [("name", VStr (display_name p));
                        ("school", VStr (school e));
                        ("duration", VStr (edu_duration e))])
             (pd_education (extract_profile_data p));
     extracted_experiences :=
       extracted_experiences ex ++
         map (fun e => [("name", VStr (display_name p));
                        ("title", VStr (title e));
                        ("company", VStr (company e));
                        ("duration", VStr (exp_duration e));
                        ("location", VStr (exp_location e))])
             (pd_experiences (extract_profile_data p));
     extracted_skills :=
       extracted_skills ex ++
         map (fun skill => [("name", VStr (display_name p)); ("skill", VStr skill)])
             (pd_skills (extract_profile_data p)) |}.

(** The rows the three lists gained from [ex] to [ex']. *)
Definition sub_records_since (ex ex' : Extracted) (added : list Dict) : Prop :=
  exists education experiences skills,
    extracted_education ex' = extracted_education ex ++ education /\
    extracted_experiences ex' = extracted_experiences ex ++ experiences /\
    extracted_skills ex' = extracted_skills ex ++ skills /\
    added = education ++ experiences ++ skills.

(** The line of the profile of the page [p] in the file of the profiles. *)
Definition resolved_line (p : ProfilePage) (dc : nat) : Line :=
  RowLine [VStr (display_name p); VStr (text_of (headline_element p));
           VStr (text_of (location_element p)); VInt dc].

(** ** A destination that exists without a header *)

(** The file of the skills exists and is empty; every destination can be
    appended to. *)
Definition empty_skills_file : State :=
  {| page := [];
     files := fun p => if String.eqb p "out/Skills.csv" then Some [] else None;
     can_append := fun _ => true;
     output := [] |}.

(** ** The resume index, the files and the sessions *)

(** A call of the persistor that returned, from [s] to [s']: with no
    record it printed that there is nothing to save; with records the
    destination could be opened, every record had the keys of the first
    one, and the file holds its old lines, then the header when the file is
    new, then the line of every record. *)
Definition persisted (data_type : string) (data : list Dict) (file_path : string)
    (s s' : State) : Prop :=
  match data with
  | [] => s' = print (NoDataToSave data_type) s
  | first :: _ =>
      can_append s file_path = true /\
      forallb (fits (keys first)) data = true /\
      s' = print (SavedIncrementally data_type file_path)
             (write_file file_path
                (content s file_path
                 ++ (if isfile s file_path then [] else [HeaderLine (keys first)])
                 ++ map (row_line (keys first)) data) s)
  end.

Definition is_update (e : Event) : bool :=
  match e with
  | IndexUpdated _ => true
  | _ => false
  end.

Definition is_error (e : Event) : bool :=
  match e with
  | ErrorProcessing _ => true
  | _ => false
  end.

(** In this piece of output a browser is launched before any candidate is
    taken up. *)
Definition launched_before_candidates (tr : list Event) : Prop :=
  forall t1 t2 name j,
    tr = t1 ++ ProcessingProfile name j :: t2 -> In BrowserLaunched t1.

(** The error was printed for the candidate taken up last, with nothing
    but lines of the persistor in between: its index was not updated. *)
Definition error_of_candidate (name : string) (t1 : list Event) : Prop :=
  exists t0 j evs,
    t1 = t0 ++ ProcessingProfile name j :: evs /\
    Forall (fun e => persistor_event e = true) evs.

(** In the output of a candidate loop or of a session that ended as [r]:
    an error is the last thing printed, and the loop or the session raised. *)
Definition error_ends (r : Result State) (tr : list Event) : Prop :=
  forall t1 t2 name,
    tr = t1 ++ ErrorProcessing name :: t2 ->
    t2 = [] /\ (exists s', r = Raised s') /\ error_of_candidate name t1.

(** In the output of a run: the error of a candidate is followed at once
    by "Retrying...", and no candidate is taken up after it before a new
    browser is launched: the session of the error is over. *)
Definition error_aborts_session (tr : list Event) : Prop :=
  forall t1 t2 name,
    tr = t1 ++ ErrorProcessing name :: t2 ->
    error_of_candidate name t1 /\
    exists n t3, t2 = Retrying n :: t3 /\ launched_before_candidates t3.

Section ResumeVocabulary.

Context {ext : Externals}.

(** The candidate [name] of index [index] was completed from [s] to
    [s']: it was announced, the resolver gave the records [ex] from the
    answers of the page, the four calls of the persistor returned, each
    having appended its records, and then the index was updated. *)
Definition completes (output_directory name : string) (index : nat) (s s' : State)
    : Prop :=
  exists ex pg s1 s2 s3 s4,
    handle_name name (page s) no_extracted = Some (ex, pg) /\
    persisted "profiles" (map profile_row (extracted_profiles ex))
      (path_join output_directory "ExtractedProfiles.csv")
      (set_page pg (print (ProcessingProfile name index) s)) s1 /\
    persisted "education" (extracted_education ex)
      (path_join output_directory "Education.csv") s1 s2 /\
    persisted "experiences" (extracted_experiences ex)
      (path_join output_directory "Experiences.csv") s2 s3 /\
    persisted "skills" (extracted_skills ex)
      (path_join output_directory "Skills.csv") s3 s4 /\
    s' = print (IndexUpdated index) s4.

(** In the output [tr] of a piece of a run from [s] to [final]: wherever
    an index is updated, its candidate was completed in the state the run
    was in at that point, its records appended, and what the files held
    then they still hold in [final]. *)
Definition updated_after_saves (names : list string) (output_directory : string)
    (s : State) (tr : list Event) (final : State) : Prop :=
  forall t1 t2 i,
    tr = t1 ++ IndexUpdated i :: t2 ->
    exists name before after,
      nth_error names i = Some name /\
      completes output_directory name i before after /\
      output after = output s ++ t1 ++ [IndexUpdated i] /\
      files_kept after final.

(** The candidates of [done], of the indices from [k] on, were completed
    one after the other from [s] to [s']. *)
Fixpoint Completed (output_directory : string) (k : nat) (done : list string)
    (s s' : State) : Prop :=
  match done with
  | [] => s' = s
  | name :: rest =>
      exists s1,
        completes output_directory name k s s1 /\
        Completed output_directory (S k) rest s1 s'
  end.

(** How the candidate loop over [remaining], started at the index [k],
    is left with [last_processed_index = i] in the state [s_mid] that the
    completed candidates led to: it returns when every candidate is
    completed; it raises, or searches on for ever, in the call for the
    candidate of index [i], whose index is not updated. *)
Definition loop_outcome (output_directory : string) (remaining : list string)
    (k i : nat) (s_mid : State) (r : Result State) : Prop :=
  match r with
  | Returned s' => i = k + length remaining /\ s' = s_mid
  | Raised s' =>
      exists name s'',
        nth_error remaining (i - k) = Some name /\
        search_and_handle_profiles [name] output_directory
          (print (ProcessingProfile name i) s_mid) = Raised s'' /\
        s' = print (ErrorProcessing name) s''
  | Hang s' =>
      exists name,
        nth_error remaining (i - k) = Some name /\
        search_and_handle_profiles [name] output_directory
          (print (ProcessingProfile name i) s_mid) = Hang s'
  end.

(** How a session that starts with [last_processed_index = start] in [s]
    ends as [(r, i)]: without a browser or a login it raises and the index
    stays; otherwise the candidate loop runs from [start] in the state the
    login left, and the session ends as the loop does, or, when the loop
    returns, by closing the browser. *)
Definition session_outcome (sess : Session) (names : list string)
    (output_directory : string) (start : nat) (s : State) (r : Result State) (i : nat)
    : Prop :=
  let launched := print BrowserLaunched (set_page (search_page sess) s) in
  if launch_ok sess then
    match linkedin_login (login_page sess) launched with
    | Returned s1 =>
        exists s_mid r',
          Completed output_directory start (firstn (i - start) (skipn start names))
            s1 s_mid /\
          start <= i /\
          loop_outcome output_directory (skipn start names) start i s_mid r' /\
          r = match r' with
              | Returned s2 => if close_ok sess then Returned (print BrowserClosed s2)
                               else Raised s2
              | _ => r'
              end
    | Raised s1 => r = Raised s1 /\ i = start
    | Hang s1 => r = Hang s1 /\ i = start
    end
  else r = Raised s /\ i = start.

End ResumeVocabulary.

(** ** [fuzz.ratio] over [difflib.SequenceMatcher]

    The scorer line 264 calls, as fuzzywuzzy computes it with the matcher
    of the standard library (the one it uses unless python-Levenshtein is
    installed): [fuzz.ratio(s1, s2)] is 100 on equal strings, 0 when one is
    empty, and otherwise [int(round(100 * SequenceMatcher(None, s1,
    s2).ratio()))], where [ratio()] is [2.0 * M / T] with [M] the total
    size of the matching blocks and [T] the sum of the two lengths. *)
Module Difflib.

Definition occurrences (c : ascii) (b : list ascii) : nat :=
  length (filter (Ascii.eqb c) b).

(** [__chain_b] with [autojunk]: in a second sequence of 200 elements or
    more, an element that occurs more than [n // 100 + 1] times is popular
    and is left out of [b2j].  No element is junk ([isjunk] is [None]). *)
Definition popular (b : list ascii) (c : ascii) : bool :=
  ((200 <=? length b) && (length b / 100 + 1 <? occurrences c b))%nat.

(** [j in b2j[a[i]]]. *)
Definition indexed (a b : list ascii) (i j : nat) : bool :=
  match nth_error a i, nth_error b j with
  | Some x, Some y => Ascii.eqb x y && negb (popular b y)
  | _, _ => false
  end.

(** [a[i] == b[j]]. *)
Definition same_at (a b : list ascii) (i j : nat) : bool :=
  match nth_error a i, nth_error b j with
  | Some x, Some y => Ascii.eqb x y
  | _, _ => false
  end.

(** [newj2len[j]] in the turn of [i] of [find_longest_match(alo, ahi, blo,
    bhi)]: [j2len.get(j - 1, 0) + 1] when [j] is in [b2j[a[i]]], where
    [j2len] is the dictionary of the turn before, empty in the first turn
    and without keys below [blo]; 0 stands for no entry. *)
Fixpoint j2len (a b : list ascii) (alo blo i j : nat) {struct i} : nat :=
  if indexed a b i j then
    S (match i, j with
       | S i', S j' =>
           if ((alo <=? i') && (blo <=? j'))%nat then j2len a b alo blo i' j' else 0
       | _, _ => 0
       end)
  else 0.

(** The two loops of [find_longest_match]: [i] from [alo] up, [j] through
    [b2j[a[i]]] in increasing order within [blo, bhi); a longer match
    replaces the best one, an equal one does not. *)
Definition scan (a b : list ascii) (alo ahi blo bhi : nat) : nat * nat * nat :=
  fold_left
    (fun best i =>
       fold_left
         (fun best j =>
            let k := j2len a b alo blo i j in
            let '(_, _, bestsize) := best in
            if (bestsize <? k)%nat then (i + 1 - k, j + 1 - k, k) else best)
         (seq blo (bhi - blo)) best)
    (seq alo (ahi - alo)) (alo, blo, 0).

(** The first [while] after the loops: the match is extended to the left
    as long as the elements before it are equal (none is junk). *)
Fixpoint extend_left (fuel : nat) (a b : list ascii) (alo blo besti bestj bestsize : nat)
    : nat * nat * nat :=
  match fuel with
  | 0 => (besti, bestj, bestsize)
  | S fuel' =>
      if ((alo <? besti) && (blo <? bestj))%nat && same_at a b (besti - 1) (bestj - 1)
      then extend_left fuel' a b alo blo (besti - 1) (bestj - 1) (S bestsize)
      else (besti, bestj, bestsize)
  end.

(** The second [while]: the match is extended to the right. *)
Fixpoint extend_right (fuel : nat) (a b : list ascii) (ahi bhi besti bestj bestsize : nat)
    : nat * nat * nat :=
  match fuel with
  | 0 => (besti, bestj, bestsize)
  | S fuel' =>
      if ((besti + bestsize <? ahi) && (bestj + bestsize <? bhi))%nat
         && same_at a b (besti + bestsize) (bestj + bestsize)
      then extend_right fuel' a b ahi bhi besti bestj (S bestsize)
      else (besti, bestj, bestsize)
  end.

(** [find_longest_match(alo, ahi, blo, bhi)].  The two last loops of the
    function extend the match by junk, of which there is none.  The
    extensions end within [besti] and [ahi] steps. *)
Definition find_longest_match (a b : list ascii) (alo ahi blo bhi : nat)
    : nat * nat * nat :=
  let '(besti, bestj, bestsize) := scan a b alo ahi blo bhi in
  let '(besti, bestj, bestsize) := extend_left besti a b alo blo besti bestj bestsize in
  extend_right ahi a b ahi bhi besti bestj bestsize.

(** The total size of the blocks of [get_matching_blocks] within
    [alo, ahi) and [blo, bhi): the longest match, then the blocks to its
    left and to its right.  A range of [fuel - 1] elements of [a] or fewer
    is gone through before the fuel ends, a block taking one element. *)
Fixpoint matched_size (fuel : nat) (a b : list ascii) (alo ahi blo bhi : nat) : nat :=
  match fuel with
  | 0 => 0
  | S fuel' =>
      let '(i, j, k) := find_longest_match a b alo ahi blo bhi in
      if (k =? 0)%nat then 0
      else
        k
        + (if ((alo <? i) && (blo <? j))%nat then matched_size fuel' a b alo i blo j
           else 0)
        + (if ((i + k <? ahi) && (j + k <? bhi))%nat
           then matched_size fuel' a b (i + k) ahi (j + k) bhi
           else 0)
  end.

Definition matches (a b : list ascii) : nat :=
  matched_size (S (length a)) a b 0 (length a) 0 (length b).

(** [n / d] rounded to an integer, half to even ([d] positive). *)
Definition round_half_even (n d : Z) : Z :=
  let q := (n / d)%Z in
  let r := (n mod d)%Z in
  if (2 * r <? d)%Z then q
  else if (d <? 2 * r)%Z then (q + 1)%Z
  else if Z.even q then q else (q + 1)%Z.

(** [n / d] divided by [2^e], as a fraction. *)
Definition scaled (n d e : Z) : Z * Z :=
  if (0 <=? e)%Z then (n, (d * 2 ^ e)%Z) else ((n * 2 ^ (- e))%Z, d).

(** The binary64 number nearest to [n / d] ([n] and [d] positive), as a
    mantissa [m] of 53 bits and an exponent [e]: the number is [m * 2^e].
    This is the rounding of a float division or product; the numbers here
    lie between [2 / T] and 200, where no exponent runs out. *)
Definition to_double (n d : Z) : Z * Z :=
  let l := (Z.log2 n - Z.log2 d)%Z in
  let (n0, d0) := scaled n d l in
  let e := ((if (n0 <? d0)%Z then l - 1 else l) - 52)%Z in
  let (n1, d1) := scaled n d e in
  let m := round_half_even n1 d1 in
  if (m =? 2 ^ 53)%Z then ((2 ^ 52)%Z, (e + 1)%Z) else (m, e).

(** [int(round(100 * (2.0 * M / T)))] in binary64: the quotient is
    rounded, then the product, and [round] takes the product to the
    nearest integer, half to even. *)
Definition percent (M T : nat) : Z :=
  match M with
  | 0 => 0%Z
  | _ =>
      let (m, e) := to_double (2 * Z.of_nat M) (Z.of_nat T) in
      let (n2, d2) := scaled (100 * m) 1 (- e) in
      let (m', e') := to_double n2 d2 in
      if (0 <=? e')%Z then (m' * 2 ^ e')%Z else round_half_even m' (2 ^ (- e'))
  end.

(** [fuzz.ratio], with its decorators [check_for_equivalence] and
    [check_empty_string]. *)
Definition ratio (s1 s2 : string) : Z :=
  if String.eqb s1 s2 then 100%Z
  else if ((String.length s1 =? 0) || (String.length s2 =? 0))%nat then 0%Z
  else
    let a := list_ascii_of_string s1 in
    let b := list_ascii_of_string s2 in
    percent (matches a b) (length a + length b).

(** The library functions with this scorer: ASCII lower-casing and the
    POSIX path join as in [Reference]. *)
Definition externals : Externals :=
  {| str_lower := Reference.lower; fuzz_ratio := ratio; path_join := Reference.join |}.

End Difflib.

(** ** Changes of case *)




(** * Properties *)

Section Scorer.

Context {ext : Externals}.

(** ** Duplicate count *)

Lemma list_sum_indicator (A : Type) (f : A -> bool) (l : list A) :
  list_sum (map (fun x => if f x then 1 else 0) l) = length (filter f l).
Proof.
  induction l as [|x l IH]; simpl; [reflexivity|].
  destruct (f x); simpl; now rewrite IH.
Qed.

Lemma count_duplicates_spec (accepted : list Profile) (matched : list Matched) :
  count_duplicates accepted matched = countDuplicates_spec accepted matched.
Proof.
  unfold count_duplicates, countDuplicates_spec.
  induction accepted as [|p accepted IH]; simpl; [reflexivity|].
  rewrite list_sum_app, filter_app, length_app, IH. f_equal.
  rewrite <- list_sum_indicator, map_map. reflexivity.
Qed.

End Scorer.

(** ** The loop of one name *)

Section Resolver.

Context {ext : Externals}.

Lemma pd_name_text (p : ProfilePage) :
  pd_name (extract_profile_data p) = text_or_na (name_element p).
Proof.
  unfold extract_profile_data; simpl.
  destruct (text_or_na (name_element p)); [|reflexivity].
  destruct (text_or_na (headline_element p)); [|reflexivity].
  destruct (text_or_na (location_element p)); reflexivity.
Qed.

Lemma text_or_na_display (p : ProfilePage) (n : string) :
  text_or_na (name_element p) = Some n -> n = display_name p.
Proof.
  unfold display_name. destruct (name_element p); simpl; congruence.
Qed.

Lemma loop_left_step (name : string) (a : Attempt) (pg : Page) (ex : Extracted)
    (e : LoopExit) :
  loop_left name pg ex e -> loop_left name (a :: pg) ex e.
Proof.
  intros (used & Hpg & H). exists (a :: used). split; [now rewrite Hpg|].
  destruct H as [H|(before & cs & p & n & h & l & Hu & H)]; [now left|right].
  exists (a :: before), cs, p, n, h, l. now rewrite Hu.
Qed.

Lemma search_loop_left (name : string) (pg : Page) :
  forall attempt matched ex e,
    search_loop name pg attempt matched ex = Some e -> loop_left name pg ex e.
Proof.
  induction pg as [|a pg IH]; intros attempt matched ex e H.
  - cbn [search_loop] in H. destruct (attempt <? 2)%nat; [discriminate|].
    injection H as <-. exists []. split; [reflexivity|now left].
  - cbn [search_loop] in H. destruct (attempt <? 2)%nat.
    2:{ injection H as <-. exists []. split; [reflexivity|now left]. }
    destruct a as [|containers link].
    { apply loop_left_step. eapply IH; eassumption. }
    destruct containers as [|c containers].
    { injection H as <-. exists [Results [] link]. split; [reflexivity|now left]. }
    destruct (scan_containers name (c :: containers) matched) as [matched' ok].
    destruct matched' as [|m matched'], ok;
      try (apply loop_left_step; eapply IH; eassumption).
    destruct link as [| |profile].
    1,2: apply loop_left_step; eapply IH; eassumption.
    destruct (pd_name (extract_profile_data profile)) as [n|] eqn:Hn.
    2:{ apply loop_left_step. eapply IH; eassumption. }
    destruct (pd_headline (extract_profile_data profile)) as [h|].
    2:{ apply loop_left_step. eapply IH; eassumption. }
    destruct (pd_location (extract_profile_data profile)) as [l|].
    2:{ apply loop_left_step. eapply IH; eassumption. }
    injection H as <-. exists [Results (c :: containers) (Opens profile)].
    split; [reflexivity|right].
    exists [], (c :: containers), profile, n, h, l.
    split; [reflexivity|]. split; [assumption|]. split; [discriminate|reflexivity].
Qed.

(** What one name adds to the four lists: nothing, the "N/A" notice, or
    the data of the profile page that the last answer used opened. *)
Lemma handle_name_cases (name : string) (pg : Page) (ex ex' : Extracted) (pg' : Page) :
  handle_name name pg ex = Some (ex', pg') ->
  exists used : Page,
    pg = used ++ pg' /\
    (ex' = ex \/
     ex' = add_notice name ex \/
     exists before containers profile h l matched,
       used = before ++ [Results containers (Opens profile)] /\
       name_element profile <> Throws /\
       matched <> [] /\
       ex' = add_profile (display_name profile) h l
               (count_duplicates (extracted_profiles ex) matched)
               (extract_profile_data profile) ex).
Proof.
  unfold handle_name. intro H.
  destruct (search_loop name pg 0 [] ex) as [e|] eqn:Hloop; [|discriminate].
  injection H as Hex Hpg.
  destruct (search_loop_left _ _ _ _ _ Hloop) as (used & Hused & Hcase).
  exists used. split; [congruence|].
  destruct Hcase as [Hsame|(before & cs & p & n & h & l & Hu & Hn & Hm & Hadd)].
  - rewrite Hsame in Hex.
    destruct (exit_attempt e) as [|[|[|?]]]; auto.
    destruct (exit_matched e); auto.
  - right; right. exists before, cs, p, h, l, (exit_matched e).
    rewrite pd_name_text in Hn.
    split; [assumption|]. split; [intro Ht; rewrite Ht in Hn; discriminate|].
    split; [assumption|].
    rewrite <- (text_or_na_display _ Hn), <- Hadd, <- Hex.
    destruct (exit_attempt e) as [|[|[|?]]]; auto.
    destruct (exit_matched e); [contradiction|reflexivity].
Qed.

End Resolver.

Section ResolverClaims.

Context {ext : Externals}.

(** C4.  The count is the number of pairs (accepted profile, new match)
    whose names match, every pair counted; the entry it is attached to is
    appended after the entries recorded before, which stay as they were. *)
Theorem duplicate_count_counts_all_pairs :
  (forall (accepted : list Profile) (matched : list Matched),
      count_duplicates accepted matched = countDuplicates_spec accepted matched) /\
  (forall (name : string) (pg : Page) (ex ex' : Extracted) (pg' : Page),
      handle_name name pg ex = Some (ex', pg') ->
      exists new : list Profile,
        extracted_profiles ex' = extracted_profiles ex ++ new /\
        forall p, In p new ->
          duplicate_count p = 0 \/
          exists matched, matched <> [] /\
            duplicate_count p = countDuplicates_spec (extracted_profiles ex) matched).
Proof.
  split; [apply count_duplicates_spec|].
  intros name pg ex ex' pg' H.
  destruct (handle_name_cases _ _ _ H) as (used & _ & Hcase).
  destruct Hcase as [->|[->|(before & cs & p & h & l & m & _ & _ & Hm & ->)]].
  - exists []. split; [now rewrite app_nil_r|intros p []].
  - eexists. split; [reflexivity|]. intros p [<-|[]]. now left.
  - eexists. split; [reflexivity|]. intros q [<-|[]]. right.
    exists m. split; [assumption|apply count_duplicates_spec].
Qed.

(** C2, as the program does it.  A candidate whose search returns no
    result entry is skipped after that one search: the loop of the name is
    left, no other answer of the page is used, nothing is added to the four
    lists (no "N/A" notice either), and the four saves find nothing to
    save. *)
Theorem empty_search_skips_candidate
    (name : string) (link : Link) (pg : Page) (ex : Extracted)
    (output_directory : string) (s : State) :
  handle_name name (Results [] link :: pg) ex = Some (ex, pg) /\
  search_and_handle_profiles [name] output_directory
      (set_page (Results [] link :: pg) s)
    = Returned
        {| page := pg; files := files s; can_append := can_append s;
           output := output s ++ [NoDataToSave "profiles"; NoDataToSave "education";
                                  NoDataToSave "experiences"; NoDataToSave "skills"] |}.
Proof.
  split; [reflexivity|].
  unfold search_and_handle_profiles; simpl. unfold print; simpl.
  rewrite <- !app_assoc. reflexivity.
Qed.

End ResolverClaims.

(** ** The incremental persistor *)

Lemma headers_app (a b : list Line) : headers (a ++ b) = headers a + headers b.
Proof. unfold headers. now rewrite filter_app, length_app. Qed.

Lemma rows_app (a b : list Line) : rows (a ++ b) = rows a + rows b.
Proof. unfold rows. now rewrite filter_app, length_app. Qed.

Lemma writerows_lines (fieldnames : list string) (data : list Dict) :
  headers (fst (writerows fieldnames data)) = 0 /\
  rows (fst (writerows fieldnames data)) <= length data /\
  (snd (writerows fieldnames data) = true ->
   rows (fst (writerows fieldnames data)) = length data).
Proof.
  unfold headers, rows.
  induction data as [|d data IH]; simpl.
  - repeat apply conj; auto.
  - destruct (dict_to_list fieldnames d); simpl.
    + destruct (writerows fieldnames data) as [lines ok]; simpl in *.
      destruct IH as (H0 & Hle & Hok).
      repeat apply conj; [assumption|lia|intro H; rewrite (Hok H); reflexivity].
    + repeat apply conj; [reflexivity|lia|discriminate].
Qed.

Lemma files_write_same (file_path : string) (lines : list Line) (s : State) :
  files (write_file file_path lines s) file_path = Some lines.
Proof. simpl. now rewrite String.eqb_refl. Qed.

Lemma files_write_other (file_path p : string) (lines : list Line) (s : State) :
  p <> file_path -> files (write_file file_path lines s) p = files s p.
Proof. intro H. simpl. apply String.eqb_neq in H. now rewrite H. Qed.

Lemma state_of_if (S : Type) (b : bool) (s1 s2 : S) :
  state_of (if b then Returned s1 else Raised s2) = if b then s1 else s2.
Proof. now destruct b. Qed.

Lemma save_data_incrementally_appended (data_type : string) (data : list Dict)
    (file_path : string) (s : State) :
  appended data file_path s (save_data_incrementally data_type data file_path s).
Proof.
  unfold appended, save_data_incrementally.
  destruct data as [|first lines].
  { split; [reflexivity|]. exists []. unfold content, isfile; simpl.
    rewrite app_nil_r. unfold headers, rows; simpl.
    repeat apply conj; intros; solve [reflexivity|lia|discriminate|congruence|assumption]. }
  destruct (can_append s file_path) eqn:Hcan.
  2:{ split; [reflexivity|]. exists []. unfold content, isfile; simpl.
      rewrite app_nil_r. unfold headers, rows; simpl.
      repeat apply conj; intros; solve [reflexivity|lia|discriminate|congruence|assumption]. }
  pose proof (writerows_lines (keys first) (first :: lines)) as (Hh & Hle & Hok).
  destruct (writerows (keys first) (first :: lines)) as [cells ok].
  simpl fst in *. simpl snd in *.
  set (header := if isfile s file_path then [] else [HeaderLine (keys first)]).
  set (lines' := content s file_path ++ header ++ cells).
  rewrite state_of_if.
  assert (Hfiles : files (if ok
                          then print (SavedIncrementally data_type file_path)
                                 (write_file file_path lines' s)
                          else write_file file_path lines' s)
                   = files (write_file file_path lines' s)) by now destruct ok.
  split.
  { intros p Hp. rewrite Hfiles. now apply files_write_other. }
  exists (header ++ cells).
  unfold content at 1, isfile at 5. rewrite Hfiles, files_write_same.
  rewrite headers_app, rows_app, Hh. unfold header.
  destruct (isfile s file_path) eqn:Hex; unfold headers, rows in *; simpl in *.
  - repeat apply conj; intros;
      try solve [reflexivity|lia|discriminate|congruence|assumption].
    destruct ok; [now apply Hok|discriminate].
  - repeat apply conj; intros;
      try solve [reflexivity|lia|discriminate|congruence|assumption].
    + split; [reflexivity|]. exists first, lines. split; [reflexivity|].
      exists cells. now split.
    + destruct ok; [now apply Hok|discriminate].
Qed.

Lemma content_absent (s : State) (file_path : string) :
  isfile s file_path = false -> content s file_path = [].
Proof. unfold isfile, content. destruct (files s file_path); [discriminate|reflexivity]. Qed.

Lemma append_all_existing (data_type file_path : string) (batches : list (list Dict)) :
  forall s, isfile s file_path = true ->
    headers (content (append_all data_type file_path batches s) file_path)
    = headers (content s file_path).
Proof.
  induction batches as [|data batches IH]; intros s Hex; [reflexivity|]. simpl.
  destruct (save_data_incrementally_appended data_type data file_path s)
    as (_ & added & Hc & _ & H0 & _ & _ & _ & _ & Hstill).
  rewrite (IH _ (Hstill Hex)), Hc, headers_app, (H0 Hex). lia.
Qed.

Lemma append_all_fresh (data_type file_path : string) (batches : list (list Dict)) :
  forall s, isfile s file_path = false ->
    headers (content (append_all data_type file_path batches s) file_path) <= 1.
Proof.
  induction batches as [|data batches IH]; intros s Hno; simpl.
  - rewrite (content_absent _ _ Hno). unfold headers; simpl; lia.
  - destruct (save_data_incrementally_appended data_type data file_path s)
      as (_ & added & Hc & Hle & _).
    set (s' := state_of (save_data_incrementally data_type data file_path s)) in *.
    destruct (isfile s' file_path) eqn:Hex.
    + rewrite (append_all_existing _ _ _ _ Hex), Hc, headers_app,
        (content_absent _ _ Hno). unfold headers at 1; simpl. exact Hle.
    + now apply IH.
Qed.

(** ** The session controller: what the output of a run tells *)

Lemma app_split_elt (A : Type) (a b t1 t2 : list A) (x : A) :
  a ++ b = t1 ++ x :: t2 ->
  (exists a2, a = t1 ++ x :: a2 /\ t2 = a2 ++ b) \/
  (exists b1, t1 = a ++ b1 /\ b = b1 ++ x :: t2).
Proof.
  revert t1; induction a as [|y a IH]; intros t1 H.
  - right. exists t1. now split.
  - destruct t1 as [|z t1]; simpl in H; injection H as Hy Ht.
    + left. exists a. subst. now split.
    + destruct (IH _ Ht) as [(a2 & -> & ->)|(b1 & -> & ->)].
      * left. exists a2. subst. now split.
      * right. exists b1. subst. now split.
Qed.

Lemma updates_app (a b : list Event) : updates (a ++ b) = updates a ++ updates b.
Proof. apply flat_map_app. Qed.

Lemma launches_app (a b : list Event) : launches (a ++ b) = launches a + launches b.
Proof. unfold launches. now rewrite filter_app, length_app. Qed.

Lemma updates_neutral (tr : list Event) :
  Forall (fun e => neutral e = true) tr -> updates tr = [].
Proof.
  induction 1 as [|e tr He _ IH]; [reflexivity|].
  destruct e; try discriminate; exact IH.
Qed.

Lemma neutral_elt (tr t1 t2 : list Event) (x : Event) :
  Forall (fun e => neutral e = true) tr -> tr = t1 ++ x :: t2 -> neutral x = true.
Proof.
  intros H ->. rewrite Forall_forall in H. apply H, in_elt.
Qed.

Lemma Resumed_neutral (names : list string) (k : nat) (tr : list Event) :
  Forall (fun e => neutral e = true) tr -> Resumed names k tr.
Proof.
  intro H. repeat apply conj.
  - intros t1 t2 name j Heq. now pose proof (@neutral_elt _ _ _ _ H Heq).
  - intros t1 t2 i Heq. now pose proof (@neutral_elt _ _ _ _ H Heq).
  - now rewrite (@updates_neutral _ H).
Qed.

Lemma Resumed_app (names : list string) (k : nat) (a b : list Event) :
  Resumed names k a -> Resumed names (k + length (updates a)) b ->
  Resumed names k (a ++ b).
Proof.
  intros (Ha1 & Ha2 & Ha3) (Hb1 & Hb2 & Hb3). repeat apply conj.
  - intros t1 t2 name j Heq.
    destruct (@app_split_elt _ _ _ _ _ _ Heq) as [(a2 & Ha & _)|(b1 & Ht & Hb)].
    + eapply Ha1; eassumption.
    + destruct (Hb1 _ _ _ _ Hb) as (Hu & Hle & Hn).
      repeat apply conj; [|lia|assumption].
      rewrite Ht, updates_app, Hu, Ha3.
      replace (j - k) with (length (updates a) + (j - (k + length (updates a)))) by lia.
      rewrite seq_app, length_seq. reflexivity.
  - intros t1 t2 i Heq.
    destruct (@app_split_elt _ _ _ _ _ _ Heq) as [(a2 & Ha & _)|(b1 & Ht & Hb)].
    + eapply Ha2; eassumption.
    + destruct (Hb2 _ _ _ Hb) as (t0 & name & e1 & e2 & e3 & e4 & Hb1' & Hs).
      exists (a ++ t0), name, e1, e2, e3, e4.
      split; [|assumption]. now rewrite Ht, Hb1', app_assoc.
  - rewrite updates_app, length_app, seq_app, <- Ha3, <- Hb3. reflexivity.
Qed.

(** A candidate taken up at its turn and not completed. *)
Lemma Resumed_failure (names : list string) (k : nat) (name : string)
    (evs : list Event) :
  nth_error names k = Some name ->
  Forall (fun e => neutral e = true) evs ->
  Resumed names k (ProcessingProfile name k :: evs).
Proof.
  intros Hn He. repeat apply conj.
  - intros t1 t2 name' j Heq. destruct t1 as [|e t1]; simpl in Heq.
    + injection Heq as <- <- _. rewrite Nat.sub_diag. now repeat apply conj.
    + injection Heq as _ Heq. now pose proof (@neutral_elt _ _ _ _ He Heq).
  - intros t1 t2 i Heq. destruct t1 as [|e t1]; simpl in Heq; [discriminate|].
    injection Heq as _ Heq. now pose proof (@neutral_elt _ _ _ _ He Heq).
  - simpl. now rewrite (@updates_neutral _ He).
Qed.

(** A candidate taken up at its turn and completed. *)
Lemma Resumed_success (names : list string) (k : nat) (name : string)
    (e1 e2 e3 e4 : Event) :
  nth_error names k = Some name ->
  Saved "profiles" e1 -> Saved "education" e2 ->
  Saved "experiences" e3 -> Saved "skills" e4 ->
  Resumed names k ([ProcessingProfile name k; e1; e2; e3; e4] ++ [IndexUpdated k]).
Proof.
  intros Hn H1 H2 H3 H4.
  assert (He : Forall (fun e => neutral e = true) [e1; e2; e3; e4]).
  { repeat constructor;
      [destruct H1 as [->|[? ->]]|destruct H2 as [->|[? ->]]
      |destruct H3 as [->|[? ->]]|destruct H4 as [->|[? ->]]]; reflexivity. }
  assert (Hu : updates [e1; e2; e3; e4] = []) by apply (@updates_neutral _ He).
  repeat apply conj.
  - intros t1 t2 name' j Heq.
    destruct (@app_split_elt _ _ _ _ _ _ Heq) as [(a2 & Ha & _)|(b1 & _ & Hb)].
    + apply (proj1 (@Resumed_failure _ _ _ _ Hn He) _ _ _ _ Ha).
    + destruct b1 as [|? [|]]; discriminate.
  - intros t1 t2 i Heq.
    destruct (@app_split_elt _ _ _ _ _ _ Heq) as [(a2 & Ha & _)|(b1 & Ht & Hb)].
    + destruct t1 as [|e t1]; simpl in Ha; [discriminate|].
      injection Ha as _ Ha. now pose proof (@neutral_elt _ _ _ _ He Ha).
    + destruct b1 as [|? [|]]; try discriminate. injection Hb as <- _.
      exists [], name, e1, e2, e3, e4. rewrite Ht, app_nil_r. now repeat apply conj.
  - rewrite updates_app. change (updates (ProcessingProfile name k :: [e1; e2; e3; e4]))
      with (updates [e1; e2; e3; e4]). rewrite Hu. reflexivity.
Qed.

Lemma Emitted_save (data_type : string) (data : list Dict) (file_path : string)
    (s : State) :
  Emitted s (save_data_incrementally data_type data file_path s) [data_type].
Proof.
  unfold Emitted, save_data_incrementally.
  destruct data as [|first lines].
  { exists [NoDataToSave data_type]. repeat apply conj; [reflexivity|now repeat constructor|].
    intros _ _. constructor; [now left|constructor]. }
  destruct (can_append s file_path).
  2:{ exists []. simpl. rewrite app_nil_r. repeat apply conj; [reflexivity|constructor|discriminate]. }
  destruct (writerows (keys first) (first :: lines)) as [cells ok].
  destruct ok.
  - exists [SavedIncrementally data_type file_path].
    repeat apply conj; [reflexivity|now repeat constructor|].
    intros _ _. constructor; [right; now exists file_path|constructor].
  - exists []. simpl. rewrite app_nil_r.
    repeat apply conj; [reflexivity|constructor|discriminate].
Qed.

Lemma Emitted_bind (s : State) (r : Result State) (k : State -> Result State)
    (dts dts' : list string) :
  Emitted s r dts -> (forall s1, Emitted s1 (k s1) dts') ->
  Emitted s (r >>= k) (dts ++ dts').
Proof.
  intros (evs & Ho & Hp & Hr) Hk. destruct r as [s1| |]; simpl in *.
  - destruct (Hk s1) as (evs' & Ho' & Hp' & Hr'). exists (evs ++ evs').
    repeat apply conj.
    + now rewrite Ho', Ho, app_assoc.
    + now apply Forall_app.
    + intros s' Hs'. apply Forall2_app; [now apply (Hr s1)|now apply (Hr' s')].
  - exists evs. repeat apply conj; [assumption|assumption|discriminate].
  - exists evs. repeat apply conj; [assumption|assumption|discriminate].
Qed.

Lemma persistor_neutral (evs : list Event) :
  Forall (fun e => persistor_event e = true) evs ->
  Forall (fun e => neutral e = true) evs /\ launches evs = 0.
Proof.
  induction 1 as [|e evs He _ (IH1 & IH2)]; [now split|].
  destruct e; try discriminate; (split; [now constructor|exact IH2]).
Qed.

Section Controller.

Context {ext : Externals}.

Lemma search_and_handle_profiles_emitted (names : list string)
    (output_directory : string) (s : State) :
  Emitted s (search_and_handle_profiles names output_directory s)
    ["profiles"; "education"; "experiences"; "skills"].
Proof.
  unfold search_and_handle_profiles.
  destruct (handle_names names (page s) no_extracted) as [[ex pg]|].
  2:{ exists []. simpl. rewrite app_nil_r.
      repeat apply conj; [reflexivity|constructor|discriminate]. }
  assert (H : forall r dts, Emitted (set_page pg s) r dts -> Emitted s r dts)
    by (intros r dts H; exact H).
  apply H.
  change ["profiles"; "education"; "experiences"; "skills"]
    with ((((["profiles"] ++ ["education"]) ++ ["experiences"]) ++ ["skills"])).
  repeat (apply Emitted_bind; [|intro; apply Emitted_save]).
  apply Emitted_save.
Qed.

Lemma candidate_loop_resumed (names : list string) (output_directory : string)
    (remaining : list string) :
  forall (k : nat) (s : State) (r : Result State) (i : nat),
    (forall j, nth_error remaining j = nth_error names (k + j)) ->
    candidate_loop output_directory k remaining k s = (r, i) ->
    exists tr : list Event,
      output (state_of r) = output s ++ tr /\
      Resumed names k tr /\
      i = k + length (updates tr) /\
      launches tr = 0 /\
      (forall s', r = Returned s' -> i = k + length remaining).
Proof.
  induction remaining as [|name rest IH]; intros k s r i Hnth H.
  - injection H as <- <-. exists []. simpl. rewrite app_nil_r.
    split5; try reflexivity; try (intros; lia).
    now apply Resumed_neutral.
  - assert (Hname : nth_error names k = Some name)
      by (rewrite <- (Nat.add_0_r k), <- Hnth; reflexivity).
    cbn [candidate_loop] in H.
    destruct (search_and_handle_profiles_emitted [name] output_directory
                (print (ProcessingProfile name k) s)) as (evs & Ho & Hp & Hr).
    destruct (persistor_neutral Hp) as (Hneutral & Hlaunch).
    destruct (search_and_handle_profiles [name] output_directory
                (print (ProcessingProfile name k) s)) as [s'|s'|s'];
      simpl in Ho.
    + specialize (Hr s' eq_refl).
      inversion Hr as [|? e1 ? l1 H1 Hr1]; subst.
      inversion Hr1 as [|? e2 ? l2 H2 Hr2]; subst.
      inversion Hr2 as [|? e3 ? l3 H3 Hr3]; subst.
      inversion Hr3 as [|? e4 ? l4 H4 Hr4]; subst.
      inversion Hr4; subst.
      assert (Hnth' : forall j, nth_error rest j = nth_error names (S k + j)).
      { intro j. replace (S k + j) with (k + S j) by lia.
        rewrite <- Hnth. reflexivity. }
      destruct (IH _ _ _ _ Hnth' H) as (tr & Hout & Hres & Hi & Hl & Hret).
      pose proof (@Resumed_success names k name e1 e2 e3 e4 Hname H1 H2 H3 H4) as Hseg.
      exists (([ProcessingProfile name k; e1; e2; e3; e4] ++ [IndexUpdated k]) ++ tr).
      assert (Hupd : updates ([ProcessingProfile name k; e1; e2; e3; e4]
                              ++ [IndexUpdated k]) = [k]).
      { rewrite updates_app.
        change (updates (ProcessingProfile name k :: [e1; e2; e3; e4]))
          with (updates [e1; e2; e3; e4]).
        now rewrite (@updates_neutral _ Hneutral). }
      split5.
      * rewrite Hout. simpl. rewrite Ho. rewrite <- !app_assoc. reflexivity.
      * apply Resumed_app; [exact Hseg|].
        rewrite Hupd. simpl. now rewrite Nat.add_1_r.
      * rewrite updates_app, length_app, Hupd. simpl. lia.
      * rewrite launches_app, Hl.
        change (launches ([ProcessingProfile name k; e1; e2; e3; e4] ++ [IndexUpdated k]))
          with (launches ([e1; e2; e3; e4] ++ [IndexUpdated k])).
        rewrite launches_app, Hlaunch. reflexivity.
      * intros s2 Hs2. rewrite (Hret _ Hs2). simpl. lia.
    + injection H as <- <-.
      assert (Hn : Forall (fun e => neutral e = true) (evs ++ [ErrorProcessing name]))
        by (apply Forall_app; split; [assumption|now repeat constructor]).
      exists (ProcessingProfile name k :: evs ++ [ErrorProcessing name]).
      split5.
      * simpl. rewrite Ho, <- !app_assoc. reflexivity.
      * now apply Resumed_failure.
      * simpl. rewrite (@updates_neutral _ Hn). simpl. lia.
      * change (launches (ProcessingProfile name k :: evs ++ [ErrorProcessing name]))
          with (launches (evs ++ [ErrorProcessing name])).
        rewrite launches_app, Hlaunch. reflexivity.
      * discriminate.
    + injection H as <- <-.
      exists (ProcessingProfile name k :: evs).
      split5.
      * simpl. rewrite Ho, <- !app_assoc. reflexivity.
      * now apply Resumed_failure.
      * simpl. rewrite (@updates_neutral _ Hneutral). simpl. lia.
      * exact Hlaunch.
      * discriminate.
Qed.

End Controller.

Lemma Resumed_cons_neutral (names : list string) (k : nat) (e : Event)
    (tr : list Event) :
  neutral e = true -> Resumed names k tr -> Resumed names k (e :: tr).
Proof.
  intros He H. change (e :: tr) with ([e] ++ tr). apply Resumed_app.
  - apply Resumed_neutral. now repeat constructor.
  - destruct e; try discriminate; simpl; now rewrite Nat.add_0_r.
Qed.

Lemma Resumed_snoc_neutral (names : list string) (k : nat) (e : Event)
    (tr : list Event) :
  neutral e = true -> Resumed names k tr -> Resumed names k (tr ++ [e]).
Proof.
  intros He H. apply Resumed_app; [assumption|].
  apply Resumed_neutral. now repeat constructor.
Qed.

Lemma updates_snoc_neutral (e : Event) (tr : list Event) :
  neutral e = true -> updates (tr ++ [e]) = updates tr.
Proof.
  intro He. rewrite updates_app. destruct e; try discriminate; simpl; apply app_nil_r.
Qed.

Lemma linkedin_login_output (lp : LoginPage) (s : State) :
  output (state_of (linkedin_login lp s)) = output s \/
  output (state_of (linkedin_login lp s)) = output s ++ [VerificationRequired].
Proof.
  unfold linkedin_login.
  destruct (form_ok lp); [|now left].
  destruct (verification_header lp) as [|text|];
    try (destruct (homepage_loaded lp); now left).
  destruct (contains _ text); [now right|].
  destruct (homepage_loaded lp); now left.
Qed.

Section ControllerRuns.

Context {ext : Externals}.

Lemma session_run_output (sess : Session) (names : list string)
    (output_directory : string) (start : nat) (s : State) (r : Result State) (i : nat) :
  session sess names output_directory start s = (r, i) ->
  run_output names start s r i 1.
Proof.
  unfold session, run_output. intro H.
  destruct (launch_ok sess).
  2:{ injection H as <- <-. exists []. simpl. rewrite app_nil_r.
      split; [reflexivity|]. split; [now apply Resumed_neutral|].
      unfold launches; simpl. split; lia. }
  set (s0 := print BrowserLaunched (set_page (search_page sess) s)) in *.
  assert (Hlogin : exists evs,
             output (state_of (linkedin_login (login_page sess) s0))
             = output s ++ BrowserLaunched :: evs /\
             Forall (fun e => neutral e = true) evs /\ launches evs = 0).
  { destruct (linkedin_login_output (login_page sess) s0) as [Ho|Ho]; rewrite Ho.
    - exists []. now repeat constructor.
    - exists [VerificationRequired]. simpl. rewrite <- app_assoc.
      now repeat constructor. }
  destruct Hlogin as (evs & Ho & Hn & Hl).
  assert (Hpre : forall tr, Resumed names start tr ->
                   Resumed names start (BrowserLaunched :: evs ++ tr)).
  { intros tr Htr. apply Resumed_cons_neutral; [reflexivity|].
    apply Resumed_app; [now apply Resumed_neutral|].
    now rewrite (@updates_neutral _ Hn), Nat.add_0_r. }
  assert (Hupd : forall tr, updates (BrowserLaunched :: evs ++ tr) = updates tr).
  { intro tr. change (updates (BrowserLaunched :: evs ++ tr)) with (updates (evs ++ tr)).
    now rewrite updates_app, (@updates_neutral _ Hn). }
  assert (Hlaunch : forall tr, launches (BrowserLaunched :: evs ++ tr) = S (launches tr)).
  { intro tr. change (launches (BrowserLaunched :: evs ++ tr))
      with (S (launches (evs ++ tr))). now rewrite launches_app, Hl. }
  destruct (linkedin_login (login_page sess) s0) as [s1|s1|s1]; simpl in Ho.
  2,3: injection H as <- <-; exists (BrowserLaunched :: evs ++ []);
       rewrite Hupd, Hlaunch, app_nil_r; simpl;
       (split; [assumption|]);
       (split; [rewrite <- (app_nil_r evs); apply Hpre; now apply Resumed_neutral|]);
       unfold launches; simpl; split; lia.
  destruct (candidate_loop output_directory start (skipn start names) start s1)
    as [r' i'] eqn:Hloop.
  destruct (@candidate_loop_resumed _ names output_directory _ _ _ _ _
              (nth_error_skipn start names) Hloop)
    as (tr & Hout & Hres & Hi & Hl0 & _).
  destruct r' as [s2|s2|s2]; simpl in Hout.
  - destruct (close_ok sess); injection H as <- <-.
    + exists (BrowserLaunched :: evs ++ tr ++ [BrowserClosed]).
      rewrite Hupd, Hlaunch, launches_app, Hl0, updates_snoc_neutral by reflexivity.
      simpl. split; [rewrite Hout, Ho, <- !app_assoc; reflexivity|].
      split; [apply Hpre; now apply Resumed_snoc_neutral|].
      split; [assumption|unfold launches; simpl; lia].
    + exists (BrowserLaunched :: evs ++ tr). rewrite Hupd, Hlaunch, Hl0. simpl.
      split; [rewrite Hout, Ho, <- !app_assoc; reflexivity|].
      split; [now apply Hpre|]. split; [assumption|lia].
  - injection H as <- <-.
    exists (BrowserLaunched :: evs ++ tr). rewrite Hupd, Hlaunch, Hl0. simpl.
    split; [rewrite Hout, Ho, <- !app_assoc; reflexivity|].
    split; [now apply Hpre|]. split; [assumption|lia].
  - injection H as <- <-.
    exists (BrowserLaunched :: evs ++ tr). rewrite Hupd, Hlaunch, Hl0. simpl.
    split; [rewrite Hout, Ho, <- !app_assoc; reflexivity|].
    split; [now apply Hpre|]. split; [assumption|lia].
Qed.

Lemma retry_loop_run_output (sessions : nat -> Session) (names : list string)
    (output_directory : string) (tries_left : nat) :
  forall (retry_count start : nat) (s : State) (r : Result State) (i : nat),
    retry_loop tries_left sessions names output_directory retry_count start s = (r, i) ->
    run_output names start s r i tries_left.
Proof.
  induction tries_left as [|n IH]; intros retry_count start s r i H; simpl in H.
  - injection H as <- <-. exists [MaxRetriesExceeded]. simpl.
    split; [reflexivity|]. split; [apply Resumed_neutral; now repeat constructor|].
    split; [lia|]. unfold launches; simpl; lia.
  - destruct (session (sessions retry_count) names output_directory start s)
      as [r1 i1] eqn:Hs.
    destruct (session_run_output _ _ _ _ _ Hs) as (tr1 & Ho1 & Hr1 & Hi1 & Hl1).
    destruct r1 as [s1|s1|s1]; simpl in Ho1.
    + injection H as <- <-. exists tr1. simpl.
      split; [assumption|]. split; [assumption|]. split; [assumption|lia].
    + destruct (IH _ _ _ _ _ H) as (tr2 & Ho2 & Hr2 & Hi2 & Hl2).
      exists (tr1 ++ Retrying (S retry_count) :: tr2).
      split; [rewrite Ho2; simpl; rewrite Ho1, <- !app_assoc; reflexivity|].
      split.
      { apply Resumed_app; [assumption|]. apply Resumed_cons_neutral; [reflexivity|].
        now rewrite <- Hi1. }
      rewrite updates_app, launches_app, length_app.
      change (updates (Retrying (S retry_count) :: tr2)) with (updates tr2).
      change (launches (Retrying (S retry_count) :: tr2)) with (launches tr2).
      split; lia.
    + injection H as <- <-. exists tr1. simpl.
      split; [assumption|]. split; [assumption|]. split; [assumption|lia].
Qed.

End ControllerRuns.

(** ** Profile records persisted by a run *)

Lemma Forall_map_const (A B : Type) (f : A -> B) (P : B -> Prop) (l : list A) :
  (forall x, P (f x)) -> Forall P (map f l).
Proof. intro H. induction l; simpl; constructor; auto. Qed.

Lemma writerows_uniform (fieldnames : list string) (data : list Dict) :
  Forall (fun r => keys r = fieldnames) data ->
  snd (writerows fieldnames data) = true.
Proof.
  induction 1 as [|r data Hr _ IH]; [reflexivity|]. simpl.
  assert (Hall : forallb (fun k => existsb (String.eqb k) fieldnames) (keys r) = true).
  { rewrite Hr. apply forallb_forall. intros k Hk. apply existsb_exists.
    exists k. split; [assumption|apply String.eqb_refl]. }
  unfold dict_to_list. rewrite Hall.
  destruct (writerows fieldnames data). exact IH.
Qed.

(** A save of rows of one kind into a destination that can be appended
    to returns; seen from the file [target], it adds at most the rows
    saved when [target] is the destination and nothing otherwise. *)
Lemma save_uniform (data_type : string) (data : list Dict) (file_path target : string)
    (fieldnames : list string) (s : State) :
  can_append s file_path = true ->
  Forall (fun r => keys r = fieldnames) data ->
  exists s',
    save_data_incrementally data_type data file_path s = Returned s' /\
    can_append s' = can_append s /\
    rows (content s' target) <= rows (content s target) + length data /\
    (file_path <> target -> content s' target = content s target).
Proof.
  intros Hcan Hkeys.
  pose proof (save_data_incrementally_appended data_type data file_path s) as Happ.
  unfold appended in Happ. unfold save_data_incrementally in *.
  destruct data as [|first lines].
  { eexists. split; [reflexivity|]. simpl. unfold content; simpl.
    repeat apply conj; try reflexivity; try lia. }
  rewrite Hcan in *.
  assert (Hok : snd (writerows (keys first) (first :: lines)) = true).
  { inversion Hkeys as [|? ? Hf Hl]; subst. now apply writerows_uniform. }
  destruct (writerows (keys first) (first :: lines)) as [cells ok].
  simpl in Hok; subst ok. eexists. split; [reflexivity|].
  split; [reflexivity|]. simpl state_of in Happ.
  destruct Happ as (Hother & added & Hc & _ & _ & _ & _ & Hrows & _).
  assert (Hneq : file_path <> target -> content
            (print (SavedIncrementally data_type file_path)
               (write_file file_path
                  (content s file_path ++
                   (if isfile s file_path then [] else [HeaderLine (keys first)]) ++ cells)
                  s)) target = content s target).
  { intro Hn. unfold content at 1. rewrite Hother by congruence. reflexivity. }
  split; [|exact Hneq].
  destruct (String.eqb_spec file_path target) as [->|Hn].
  - rewrite Hc, rows_app. lia.
  - rewrite (Hneq Hn). lia.
Qed.

Lemma linkedin_login_files (lp : LoginPage) (s : State) :
  files (state_of (linkedin_login lp s)) = files s /\
  can_append (state_of (linkedin_login lp s)) = can_append s.
Proof.
  unfold linkedin_login.
  destruct (form_ok lp); [|now split].
  destruct (verification_header lp) as [|text|];
    try (destruct (homepage_loaded lp); now split).
  destruct (contains _ text); [now split|].
  destruct (homepage_loaded lp); now split.
Qed.

Section Records.

Context {ext : Externals}.

Lemma handle_name_well_keyed (name : string) (pg : Page) (ex ex' : Extracted)
    (pg' : Page) :
  handle_name name pg ex = Some (ex', pg') ->
  well_keyed ex ->
  well_keyed ex' /\
  length (extracted_profiles ex') <= S (length (extracted_profiles ex)).
Proof.
  intros H (He & Hx & Hs).
  destruct (handle_name_cases _ _ _ H) as (used & _ & Hcase).
  destruct Hcase as [->|[->|(before & cs & p & h & l & m & _ & _ & _ & ->)]].
  - split; [now repeat split|lia].
  - split; [now repeat split|]. simpl. rewrite length_app. simpl. lia.
  - split; [|simpl; rewrite length_app; simpl; lia].
    unfold well_keyed; simpl.
    repeat split; apply Forall_app; split; try assumption;
      apply Forall_map_const; reflexivity.
Qed.

Lemma handle_names_well_keyed (names : list string) :
  forall (pg : Page) (ex ex' : Extracted) (pg' : Page),
    handle_names names pg ex = Some (ex', pg') ->
    well_keyed ex ->
    well_keyed ex' /\
    length (extracted_profiles ex') <= length (extracted_profiles ex) + length names.
Proof.
  induction names as [|name names IH]; intros pg ex ex' pg' H Hk; simpl in H.
  - injection H as <- _. split; [assumption|lia].
  - destruct (handle_name name pg ex) as [[ex1 pg1]|] eqn:H1; [|discriminate].
    destruct (@handle_name_well_keyed _ _ _ _ _ H1 Hk) as (Hk1 & Hl1).
    destruct (IH _ _ _ _ H Hk1) as (Hk' & Hl'). split; [assumption|simpl; lia].
Qed.

(** With every destination open to appends, [search_and_handle_profiles]
    does not raise: it returns, having added to the file of the profiles at
    most one row for each name, or it hangs, the files untouched. *)
Lemma search_and_handle_profiles_rows (names : list string) (output_directory : string)
    (s : State) :
  (forall p, can_append s p = true) ->
  destinations_distinct output_directory ->
  (exists s',
      search_and_handle_profiles names output_directory s = Returned s' /\
      can_append s' = can_append s /\
      rows (content s' (profiles_path output_directory))
      <= rows (content s (profiles_path output_directory)) + length names) \/
  (exists s',
      search_and_handle_profiles names output_directory s = Hang s' /\
      can_append s' = can_append s /\ files s' = files s).
Proof.
  intros Hcan (D1 & D2 & D3). unfold search_and_handle_profiles.
  destruct (handle_names names (page s) no_extracted) as [[ex pg]|] eqn:Hn.
  2:{ right. eexists. split; [reflexivity|]. now split. }
  left.
  assert (Hk0 : well_keyed no_extracted) by (repeat split; constructor).
  destruct (@handle_names_well_keyed _ _ _ _ _ Hn Hk0) as ((He & Hx & Hs) & Hlen).
  simpl in Hlen.
  unfold profiles_path in *.
  set (P := path_join output_directory "ExtractedProfiles.csv") in *.
  assert (Hp : Forall (fun r => keys r = ["name"; "headline"; "location"; "duplicate_count"])
                      (map profile_row (extracted_profiles ex)))
    by (apply Forall_map_const; reflexivity).
  destruct (@save_uniform "profiles" (map profile_row (extracted_profiles ex))
              P P _ (set_page pg s) (Hcan _) Hp)
    as (s1 & E1 & C1 & R1 & _).
  rewrite length_map in R1.
  rewrite E1. simpl and_then.
  destruct (@save_uniform "education" (extracted_education ex)
              (path_join output_directory "Education.csv") P _ s1
              (eq_trans (f_equal (fun f => f _) C1) (Hcan _)) He)
    as (s2 & E2 & C2 & _ & R2).
  rewrite E2. simpl and_then.
  destruct (@save_uniform "experiences" (extracted_experiences ex)
              (path_join output_directory "Experiences.csv") P _ s2
              (eq_trans (f_equal (fun f => f _) (eq_trans C2 C1)) (Hcan _)) Hx)
    as (s3 & E3 & C3 & _ & R3).
  rewrite E3. simpl and_then.
  destruct (@save_uniform "skills" (extracted_skills ex)
              (path_join output_directory "Skills.csv") P _ s3
              (eq_trans (f_equal (fun f => f _) (eq_trans C3 (eq_trans C2 C1))) (Hcan _)) Hs)
    as (s4 & E4 & C4 & _ & R4).
  rewrite E4. exists s4. split; [reflexivity|].
  split; [now rewrite C4, C3, C2, C1|].
  rewrite (R4 D3), (R3 D2), (R2 D1).
  change (content (set_page pg s) P) with (content s P) in R1. lia.
Qed.

End Records.

Section RecordsOfARun.

Context {ext : Externals}.

Lemma candidate_loop_rows (output_directory : string) (remaining : list string) :
  forall (k : nat) (s : State) (r : Result State) (i : nat),
    (forall p, can_append s p = true) ->
    destinations_distinct output_directory ->
    candidate_loop output_directory k remaining k s = (r, i) ->
    rows_bound output_directory k s r i /\ i <= k + length remaining.
Proof.
  induction remaining as [|name rest IH]; intros k s r i Hcan Hd H.
  - injection H as <- <-. unfold rows_bound; simpl.
    split; [|lia]. split; [assumption|lia].
  - cbn [candidate_loop] in H.
    destruct (@search_and_handle_profiles_rows _ [name] output_directory
                (print (ProcessingProfile name k) s) Hcan Hd)
      as [(s' & E & C & R)|(s' & E & C & F)]; rewrite E in H.
    + assert (Hcan' : forall p, can_append (print (IndexUpdated k) s') p = true)
        by (intro p; simpl; rewrite C; apply Hcan).
      destruct (IH _ _ _ _ Hcan' Hd H) as ((Hc & Hle & Hr) & Hi).
      split; [|simpl; lia]. split; [assumption|]. split; [lia|].
      change (content (print (IndexUpdated k) s') (profiles_path output_directory))
        with (content s' (profiles_path output_directory)) in Hr.
      change (content (print (ProcessingProfile name k) s) (profiles_path output_directory))
        with (content s (profiles_path output_directory)) in R.
      simpl in R. lia.
    + injection H as <- <-. split; [|lia]. unfold rows_bound; simpl.
      split; [intro p; rewrite C; apply Hcan|]. split; [lia|].
      unfold content. rewrite F. simpl. lia.
Qed.

Lemma session_rows (sess : Session) (names : list string) (output_directory : string)
    (start : nat) (s : State) (r : Result State) (i : nat) :
  (forall p, can_append s p = true) ->
  destinations_distinct output_directory ->
  start <= length names ->
  session sess names output_directory start s = (r, i) ->
  rows_bound output_directory start s r i /\ i <= length names.
Proof.
  intros Hcan Hd Hstart H. unfold session in H.
  assert (Hsame : rows_bound output_directory start s (Raised s) start)
    by (unfold rows_bound; simpl; split; [assumption|lia]).
  destruct (launch_ok sess).
  2:{ injection H as <- <-. now split. }
  set (s0 := print BrowserLaunched (set_page (search_page sess) s)) in *.
  destruct (linkedin_login_files (login_page sess) s0) as (Hf & Hc).
  assert (Hlogin : rows_bound output_directory start s
                     (linkedin_login (login_page sess) s0) start).
  { unfold rows_bound. split; [intro p; rewrite Hc; apply Hcan|].
    split; [lia|]. unfold content. rewrite Hf. simpl. lia. }
  destruct (linkedin_login (login_page sess) s0) as [s1|s1|s1] eqn:Elogin.
  2,3: injection H as <- <-; now split.
  simpl in Hf, Hc.
  destruct (candidate_loop output_directory start (skipn start names) start s1)
    as [r' i'] eqn:Hloop.
  assert (Hcan1 : forall p, can_append s1 p = true)
    by (intro p; rewrite Hc; apply Hcan).
  destruct (candidate_loop_rows _ _ _ Hcan1 Hd Hloop) as ((Hc' & Hle & Hr) & Hi).
  rewrite length_skipn in Hi.
  assert (Hcontent : content s1 (profiles_path output_directory)
                     = content s (profiles_path output_directory))
    by (unfold content; rewrite Hf; reflexivity).
  rewrite Hcontent in Hr.
  assert (Hres : rows_bound output_directory start s r' i' /\ i' <= length names)
    by (split; [now split|lia]).
  destruct r' as [s2|s2|s2]; [|injection H as <- <-; exact Hres..].
  destruct (close_ok sess); injection H as <- <-; exact Hres.
Qed.

Lemma retry_loop_rows (sessions : nat -> Session) (names : list string)
    (output_directory : string) (tries_left : nat) :
  forall (retry_count start : nat) (s : State) (r : Result State) (i : nat),
    (forall p, can_append s p = true) ->
    destinations_distinct output_directory ->
    start <= length names ->
    retry_loop tries_left sessions names output_directory retry_count start s = (r, i) ->
    rows_bound output_directory start s r i /\ i <= length names.
Proof.
  induction tries_left as [|n IH]; intros retry_count start s r i Hcan Hd Hstart H;
    simpl in H.
  - injection H as <- <-. split; [|assumption].
    unfold rows_bound; simpl. split; [assumption|].
    change (content (print MaxRetriesExceeded s) (profiles_path output_directory))
      with (content s (profiles_path output_directory)). lia.
  - destruct (session (sessions retry_count) names output_directory start s)
      as [r1 i1] eqn:Hs.
    destruct (session_rows _ _ _ Hcan Hd Hstart Hs) as ((Hc1 & Hle1 & Hr1) & Hi1).
    destruct r1 as [s1|s1|s1]; simpl in *.
    + injection H as <- <-. split; [now split|assumption].
    + destruct (IH (S retry_count) i1 (print (Retrying (S retry_count)) s1) r i
                  Hc1 Hd Hi1 H) as ((Hc2 & Hle2 & Hr2) & Hi2).
      split; [|assumption]. split; [assumption|]. split; [lia|].
      change (content (print (Retrying (S retry_count)) s1) (profiles_path output_directory))
        with (content s1 (profiles_path output_directory)) in Hr2. lia.
    + injection H as <- <-. split; [now split|assumption].
Qed.

End RecordsOfARun.

Section OneRecord.

Context {ext : Externals}.

Lemma search_loop_unmatched (name : string) (a : Attempt) (pg : Page) (attempt : nat)
    (ex : Extracted) :
  (attempt <? 2)%nat = true -> unmatched name a = true ->
  search_loop name (a :: pg) attempt [] ex = search_loop name pg (S attempt) [] ex.
Proof.
  intros Hlt Hu. cbn [search_loop]. rewrite Hlt.
  destruct a as [|[|c containers] link]; [reflexivity|discriminate|].
  unfold unmatched in Hu.
  destruct (scan_containers name (c :: containers) []) as [[|m matched] ok];
    [|discriminate].
  now destruct ok.
Qed.

Lemma search_loop_done (name : string) (pg : Page) (matched : list Matched)
    (ex : Extracted) :
  search_loop name pg 2 matched ex
  = Some {| exit_attempt := 2; exit_matched := matched;
            exit_extracted := ex; exit_page := pg |}.
Proof. now destruct pg. Qed.

Lemma pd_location_readable (p : ProfilePage) (l : string) :
  pd_location (extract_profile_data p) = Some l ->
  pd_name (extract_profile_data p) = Some (display_name p) /\
  exists h, pd_headline (extract_profile_data p) = Some h.
Proof.
  unfold extract_profile_data, display_name; simpl.
  destruct (name_element p); simpl; try discriminate;
    destruct (text_or_na (headline_element p)); simpl; try discriminate;
    destruct (text_or_na (location_element p)); simpl; try discriminate;
    intros _; (split; [reflexivity|eexists; reflexivity]).
Qed.

Lemma candidate_records_hold : candidate_records.
Proof.
  split; [|split; [|split]].
  - intros name pg ex ex' pg' H.
    destruct (handle_name_cases _ _ _ H) as (used & _ & Hcase).
    destruct Hcase as [->|[->|(before & cs & p & h & l & m & _ & _ & _ & ->)]];
      [now left|right; eexists; reflexivity..].
  - reflexivity.
  - intros name a1 a2 pg ex H1 H2. unfold handle_name.
    rewrite (@search_loop_unmatched _ _ _ 0 _ eq_refl H1),
      (@search_loop_unmatched _ _ _ 1 _ eq_refl H2), search_loop_done.
    reflexivity.
  - intros name containers profile pg ex m matched l Hscan Hloc.
    destruct (@pd_location_readable _ _ Hloc) as (Hname & h & Hhead).
    exists h. unfold handle_name. cbn [search_loop]. simpl Nat.ltb. cbv iota.
    destruct containers as [|c containers]; [discriminate|].
    rewrite Hscan, Hname, Hhead, Hloc. reflexivity.
Qed.

(** C1, as the program does it.  With every destination open to appends
    and the four destinations distinct, a run persists at most one profile
    record for each candidate it completed; a candidate gets one record when
    it is resolved or when two attempts fail without a match, and none when
    its search returns no result entry. *)
Theorem at_most_one_profile_per_candidate
    (sessions : nat -> Session) (names : list string) (output_directory : string)
    (s : State) :
  (forall p, can_append s p = true) ->
  destinations_distinct output_directory ->
  profile_rows_bounded sessions names output_directory s /\ candidate_records.
Proof.
  intros Hcan Hd. split; [|apply candidate_records_hold].
  unfold profile_rows_bounded, open_linkedin_login_and_search.
  destruct (retry_loop max_retries sessions names output_directory 0 0 s)
    as [r i] eqn:Hrun.
  destruct (@retry_loop_rows _ _ _ _ _ _ _ _ _ _ Hcan Hd (Nat.le_0_l _) Hrun)
    as ((_ & _ & Hr) & Hi).
  simpl. split; [lia|assumption].
Qed.

End OneRecord.

(** * Concrete runs, on the reference instance *)

#[local] Existing Instance Reference.externals.

Lemma at_most_one_profile_per_candidate_witness :
  ((forall p, can_append fresh p = true) /\ destinations_distinct "out") /\
  (profile_rows_bounded
     (every_session logged_in
        [Results [Present "Jane Doe"] (Opens jane_page); Results [] NoLink])
     ["jane doe"; "nobody"] "out" fresh /\
   candidate_records).
Proof.
  assert (Hcan : forall p, can_append fresh p = true) by reflexivity.
  assert (Hd : destinations_distinct "out")
    by (unfold destinations_distinct; repeat apply conj; discriminate).
  split; [now split|].
  exact (@at_most_one_profile_per_candidate Reference.externals
           (every_session logged_in
              [Results [Present "Jane Doe"] (Opens jane_page); Results [] NoLink])
           ["jane doe"; "nobody"] "out" fresh Hcan Hd).
Defined.

(** C1, refuted as stated: one name, the full range completed (the index
    reached 1 and the browser was closed), and no profile record: the file
    of the profiles was not even created. *)
Lemma skipped_candidate_has_no_record :
  open_linkedin_login_and_search (every_session logged_in [Results [] NoLink])
    ["Jane Doe"] "out" fresh
  = (Returned
       {| page := [];
          files := files fresh;
          can_append := can_append fresh;
          output := [BrowserLaunched; ProcessingProfile "Jane Doe" 0;
                     NoDataToSave "profiles"; NoDataToSave "education";
                     NoDataToSave "experiences"; NoDataToSave "skills";
                     IndexUpdated 0; BrowserClosed] |}, 1) /\
  rows (content
          (state_of
             (fst (open_linkedin_login_and_search
                     (every_session logged_in [Results [] NoLink])
                     ["Jane Doe"] "out" fresh)))
          (profiles_path "out")) = 0 /\
  length ["Jane Doe"] = 1.
Proof. repeat split. Qed.

(** C2, refuted as stated: the search returns no entry and the name gets
    no entry at all, where the claim has one "N/A" entry. *)
Lemma empty_search_leaves_no_notice :
  handle_name "Jane Doe" [Results [] NoLink] no_extracted = Some (no_extracted, []) /\
  extracted_profiles no_extracted
  <> [{| name := "Jane Doe"; headline := "N/A"; location := "N/A";
         duplicate_count := 0 |}].
Proof. split; [reflexivity|discriminate]. Qed.

(** C3, on the program.  Three candidates resolve, in order, to profiles
    named "Jane Doe".  In one call of [search_and_handle_profiles] on the
    three names the counts are 0, 1 and 2.  The run calls it on one name at
    a time (line 361), each call starts from an empty [extracted_profiles]
    (line 236), and the three records persisted all carry 0. *)
Theorem duplicate_count_is_reset_for_each_candidate :
  (exists ex,
      handle_names ["Jane Doe"; "Jane Doe"; "Jane Doe"]
        [doe_results; doe_results; doe_results] no_extracted = Some (ex, []) /\
      map duplicate_count (extracted_profiles ex) = [0; 1; 2]) /\
  content
    (state_of
       (fst (open_linkedin_login_and_search
               (every_session logged_in [doe_results; doe_results; doe_results])
               ["Jane Doe"; "Jane Doe"; "Jane Doe"] "out" fresh)))
    (profiles_path "out")
  = [HeaderLine ["name"; "headline"; "location"; "duplicate_count"];
     doe_row 0; doe_row 0; doe_row 0].
Proof.
  split; [eexists; split; reflexivity|reflexivity].
Qed.

Lemma search_loop_unlinked (n : nat) :
  forall matched : list Matched,
    search_loop "Jane Doe" (repeat unlinked_results n) 0 matched no_extracted = None.
Proof.
  induction n as [|n IH]; intro matched; [reflexivity|].
  simpl repeat. unfold unlinked_results at 1. cbn [search_loop].
  change (0 <? 2)%nat with true. cbv iota.
  change (scan_containers "Jane Doe" [Present "Jane Doe"] matched)
    with (matched ++ [{| container := Present "Jane Doe"; matched_name := "Jane Doe" |}],
          true).
  cbv iota beta.
  destruct (matched ++ [{| container := Present "Jane Doe"; matched_name := "Jane Doe" |}])
    as [|m matched'] eqn:E; [now destruct matched|].
  apply IH.
Qed.

(** C5, on the program.  When the matched container has no link (line 286
    finds none), the iteration neither leaves the loop nor counts as an
    attempt: however many searches the page answers that way, the loop of
    the name has used them all and is still running. *)
Theorem unlinked_match_is_searched_without_bound (n : nat) :
  length (repeat unlinked_results n) = n /\
  handle_name "Jane Doe" (repeat unlinked_results n) no_extracted = None /\
  fst (open_linkedin_login_and_search
         (every_session logged_in (repeat unlinked_results n))
         ["Jane Doe"] "out" fresh)
  = Hang {| page := []; files := files fresh; can_append := can_append fresh;
            output := [BrowserLaunched; ProcessingProfile "Jane Doe" 0] |}.
Proof.
  assert (H : handle_name "Jane Doe" (repeat unlinked_results n) no_extracted = None)
    by (unfold handle_name; now rewrite search_loop_unlinked).
  split; [apply repeat_length|]. split; [exact H|].
  unfold open_linkedin_login_and_search, max_retries. cbn [retry_loop].
  unfold session, every_session.
  cbn [launch_ok login_page search_page close_ok linkedin_login logged_in form_ok
       verification_header homepage_loaded skipn candidate_loop].
  unfold search_and_handle_profiles. cbn [handle_names].
  cbn [page print set_page]. rewrite H. reflexivity.
Qed.

(** C8, on the program.  The login meets the verification prompt, prints
    it and returns (lines 77-79); the caller cannot tell and goes on with
    the candidates in that session: the search for the first name is made
    (here it raises twice) and its "N/A" record is persisted. *)
Theorem verification_does_not_pause_the_session :
  open_linkedin_login_and_search
    (every_session challenged [SearchThrows; SearchThrows]) ["Jane Doe"] "out" fresh
  = (Returned
       {| page := [];
          files := fun p =>
            if String.eqb p "out/ExtractedProfiles.csv"
            then Some [HeaderLine ["name"; "headline"; "location"; "duplicate_count"];
                       RowLine [VStr "Jane Doe"; VStr "N/A"; VStr "N/A"; VInt 0]]
            else None;
          can_append := can_append fresh;
          output := [BrowserLaunched; VerificationRequired;
                     ProcessingProfile "Jane Doe" 0;
                     SavedIncrementally "profiles" "out/ExtractedProfiles.csv";
                     NoDataToSave "education"; NoDataToSave "experiences";
                     NoDataToSave "skills"; IndexUpdated 0; BrowserClosed] |}, 1).
Proof. reflexivity. Qed.

(** * Further properties of the code *)

(** ** [get_recent_csv] *)

Lemma ends_with_suffix (suffix s : string) :
  ends_with suffix s = true <-> exists stem, s = (stem ++ suffix)%string.
Proof.
  split.
  - induction s as [|c s IH]; cbn [ends_with]; intro H.
    + rewrite orb_false_r in H. apply String.eqb_eq in H. exists "". now subst.
    + apply orb_true_iff in H. destruct H as [H|H].
      * apply String.eqb_eq in H. exists "". now subst.
      * destruct (IH H) as (stem & ->). now exists (String c stem).
  - intros (stem & ->). induction stem as [|c stem IH].
    + change ("" ++ suffix)%string with suffix.
      destruct suffix; cbn [ends_with]; now rewrite String.eqb_refl.
    + change (String c stem ++ suffix)%string with (String c (stem ++ suffix)).
      cbn [ends_with]. rewrite IH. apply orb_true_r.
Qed.

Lemma max_from_first_max (A : Type) (key : A -> Try Z) (rest : list A) :
  forall (seen : list A) (best : A) (best_key : Z),
    key best = Gives best_key ->
    all_keyed key seen ->
    first_max (key_of key) seen best ->
    all_keyed key rest ->
    exists m, max_from key best best_key rest = Gives m /\
              first_max (key_of key) (seen ++ rest) m.
Proof.
  induction rest as [|x rest IH]; intros seen best best_key Hk Hseen H Hrest;
    cbn [max_from].
  - exists best. now rewrite app_nil_r.
  - destruct (Hrest x (or_introl eq_refl)) as (k & Hx). rewrite Hx.
    replace (seen ++ x :: rest) with ((seen ++ [x]) ++ rest)
      by (rewrite <- app_assoc; reflexivity).
    assert (Hseen' : all_keyed key (seen ++ [x])).
    { intros y Hy. apply in_app_or in Hy.
      destruct Hy as [Hy|[<-|[]]]; [now apply Hseen|now exists k]. }
    assert (Hrest' : all_keyed key rest) by (intros y Hy; apply Hrest; now right).
    assert (Kb : key_of key best = best_key) by (unfold key_of; now rewrite Hk).
    assert (Kx : key_of key x = k) by (unfold key_of; now rewrite Hx).
    destruct H as (before & after & Hs & Hb & Ha).
    destruct (Z.ltb_spec best_key k) as [Hlt|Hge].
    + apply IH; try assumption.
      exists seen, []. split; [reflexivity|]. split; [|intros y []].
      intros y Hy. rewrite Hs in Hy. apply in_app_or in Hy.
      destruct Hy as [Hy|[<-|Hy]]; [specialize (Hb _ Hy)| |specialize (Ha _ Hy)]; lia.
    + apply IH; try assumption.
      exists before, (after ++ [x]). split; [rewrite Hs, <- app_assoc; reflexivity|].
      split; [assumption|]. intros y Hy. apply in_app_or in Hy.
      destruct Hy as [Hy|[<-|[]]]; [now apply Ha|lia].
Qed.

Lemma max_from_first_failure (A : Type) (key : A -> Try Z) (before : list A) :
  forall (best : A) (best_key : Z) (x : A) (after : list A) (e : Exc),
    all_keyed key before ->
    key x = Fails e ->
    max_from key best best_key (before ++ x :: after) = Fails e.
Proof.
  induction before as [|y before IH]; intros best best_key x after e Hb Hx;
    cbn [max_from app].
  - now rewrite Hx.
  - destruct (Hb y (or_introl eq_refl)) as (k & Hy). rewrite Hy.
    assert (Hb' : all_keyed key before) by (intros z Hz; apply Hb; now right).
    destruct (best_key <? k)%Z; now apply IH.
Qed.

Lemma max_from_gives_keyed (A : Type) (key : A -> Try Z) (rest : list A) :
  forall (best : A) (best_key : Z) (m : A),
    max_from key best best_key rest = Gives m -> all_keyed key rest.
Proof.
  induction rest as [|x rest IH]; intros best best_key m H; cbn [max_from] in H.
  - intros y [].
  - destruct (key x) as [k|e] eqn:Hx; [|discriminate].
    assert (Hrest : all_keyed key rest)
      by (destruct (best_key <? k)%Z; eapply IH; eassumption).
    intros y [<-|Hy]; [now exists k|now apply Hrest].
Qed.

Section RecentCsv.

Context {ext : Externals}.

(** X1.  [get_recent_csv] on the ".csv" entries of the directory, in
    listing order: with none it raises FileNotFoundError; when the creation
    time of each of them can be read it returns the path of one whose
    creation time no other exceeds, the first one among equals, and an entry
    that does not end in ".csv" is never returned; when reading a creation
    time raises, the call raises what the first such entry raises, also when
    that entry is the only one.  It returns in no other case, and an
    exception of the listing passes through. *)
Theorem get_recent_csv_newest_readable_csv
    (entries : list string) (getctime : string -> Try Z) (directory : string) :
  let files := map (path_join directory) (filter (ends_with ".csv") entries) in
  let r := get_recent_csv (Gives entries) getctime directory in
  ((forall f, In f entries -> ends_with ".csv" f = false) ->
   r = Fails FileNotFoundError) /\
  (files <> [] -> all_keyed getctime files ->
   exists p, r = Gives p /\ first_max (key_of getctime) files p) /\
  (forall before f after e,
      files = before ++ f :: after -> all_keyed getctime before ->
      getctime f = Fails e ->
      r = Fails e) /\
  (forall p,
      r = Gives p ->
      all_keyed getctime files /\ first_max (key_of getctime) files p /\
      exists stem, In (stem ++ ".csv")%string entries /\
                   p = path_join directory (stem ++ ".csv")%string) /\
  (forall e, get_recent_csv (Fails e) getctime directory = Fails e).
Proof.
  intros files r. subst r. unfold get_recent_csv. fold files.
  assert (Hgives : forall f rest,
             files = f :: rest -> all_keyed getctime files ->
             exists p, max_by getctime f rest = Gives p /\
                       first_max (key_of getctime) files p).
  { intros f rest E Hall. rewrite E in *. unfold max_by.
    destruct (Hall f (or_introl eq_refl)) as (k & Hf). rewrite Hf.
    apply (@max_from_first_max _ getctime rest [f] f k Hf).
    - intros y [<-|[]]. now exists k.
    - exists [], []. split; [reflexivity|]. split; intros x [].
    - intros y Hy. apply Hall. now right. }
  split; [|split; [|split; [|split; [|reflexivity]]]].
  - intro H. assert (Hnil : filter (ends_with ".csv") entries = []).
    { destruct (filter (ends_with ".csv") entries) as [|f l] eqn:E; [reflexivity|].
      assert (Hf : In f (filter (ends_with ".csv") entries)) by (rewrite E; now left).
      apply filter_In in Hf. destruct Hf as (Hf & Hcsv).
      rewrite (H _ Hf) in Hcsv. discriminate. }
    unfold files. now rewrite Hnil.
  - intros Hne Hall. destruct files as [|f rest] eqn:E; [now destruct Hne|].
    now apply Hgives.
  - intros before f after e E Hb Hf. rewrite E.
    destruct before as [|g before]; cbn [app]; unfold max_by.
    + now rewrite Hf.
    + destruct (Hb g (or_introl eq_refl)) as (k & Hg). rewrite Hg.
      apply max_from_first_failure; [|assumption].
      intros y Hy. apply Hb. now right.
  - intros p H. destruct files as [|f rest] eqn:E; [discriminate|].
    assert (Hall : all_keyed getctime (f :: rest)).
    { unfold max_by in H. destruct (getctime f) as [k|e] eqn:Hf; [|discriminate].
      apply max_from_gives_keyed in H.
      intros y [<-|Hy]; [now exists k|now apply H]. }
    destruct (Hgives f rest eq_refl Hall) as (q & Hq & Hmax).
    rewrite H in Hq. injection Hq as <-.
    split; [exact Hall|]. split; [exact Hmax|].
    destruct Hmax as (before & after & Hl & _).
    assert (Hin : In p files) by (rewrite E, Hl; apply in_elt).
    apply in_map_iff in Hin. destruct Hin as (g & Hg & Hin).
    apply filter_In in Hin. destruct Hin as (Hin & Hcsv).
    apply ends_with_suffix in Hcsv. destruct Hcsv as (stem & ->).
    exists stem. now split.
Qed.

End RecentCsv.

(** ** The scan of the result containers and the duplicate count *)

Section Scan.

Context {ext : Externals}.

Lemma scan_containers_app (name : string) (containers : list Elem) :
  forall matched,
    scan_containers name containers matched
    = (matched ++ fst (scan_containers name containers []),
       snd (scan_containers name containers [])).
Proof.
  induction containers as [|c containers IH]; intro matched; simpl.
  - now rewrite app_nil_r.
  - destruct c as [|text|]; [apply IH| |now rewrite app_nil_r].
    destruct (is_match name text).
    + rewrite (IH (matched ++ _)), (IH [_]). simpl.
      now rewrite <- app_assoc.
    + apply IH.
Qed.

(** X2.  The scan appends to the entries [matched_profiles] already
    holds (those of an earlier attempt for the same name stay).  The
    entries it adds are containers of the results whose name scores at
    least 90 against the query; when no name element raises they are all of
    them, in the order of the results. *)
Theorem scan_containers_keeps_matches_in_order
    (name : string) (containers : list Elem) (matched : list Matched) :
  let found := fst (scan_containers name containers []) in
  fst (scan_containers name containers matched) = matched ++ found /\
  snd (scan_containers name containers matched)
  = snd (scan_containers name containers []) /\
  (forall m, In m found ->
     is_match name (matched_name m) = true /\
     container m = Present (matched_name m) /\
     In (container m) containers) /\
  (snd (scan_containers name containers []) = true ->
   map matched_name found = filter (is_match name) (container_names containers)) /\
  (snd (scan_containers name containers []) = true <->
   forall c, In c containers -> c <> Throws).
Proof.
  intro found. rewrite scan_containers_app. split; [reflexivity|].
  split; [reflexivity|]. subst found.
  induction containers as [|c containers (IH1 & IH2 & IH3)]; simpl.
  { split; [intros m []|]. split; [reflexivity|]. split; [intros _ c []|reflexivity]. }
  destruct c as [|text|].
  - split; [intros m Hm; destruct (IH1 m Hm) as (? & ? & ?); auto|].
    split; [exact IH2|]. rewrite IH3. split.
    + intros H c [<-|Hc]; [discriminate|now apply H].
    + intros H c Hc. apply H. now right.
  - rewrite scan_containers_app. simpl.
    destruct (is_match name text) eqn:E; simpl.
    + split.
      { intros m [<-|Hm]; [simpl; auto|].
        destruct (IH1 m Hm) as (? & ? & ?); auto. }
      split; [intro H; now rewrite (IH2 H)|]. rewrite IH3. split.
      * intros H c [<-|Hc]; [discriminate|now apply H].
      * intros H c Hc. apply H. now right.
    + split.
      { intros m Hm. destruct (IH1 m Hm) as (? & ? & ?); auto. }
      split; [exact IH2|]. rewrite IH3. split.
      * intros H c [<-|Hc]; [discriminate|now apply H].
      * intros H c Hc. apply H. now right.
  - split; [intros m []|]. split; [discriminate|]. split; [discriminate|].
    intro H. exfalso. apply (H Throws); [now left|reflexivity].
Qed.

Lemma count_duplicates_app_l (a1 a2 : list Profile) (matched : list Matched) :
  count_duplicates (a1 ++ a2) matched
  = count_duplicates a1 matched + count_duplicates a2 matched.
Proof.
  unfold count_duplicates. now rewrite flat_map_app, list_sum_app.
Qed.

Lemma count_duplicates_app_r (accepted : list Profile) (m1 m2 : list Matched) :
  count_duplicates accepted (m1 ++ m2)
  = count_duplicates accepted m1 + count_duplicates accepted m2.
Proof.
  unfold count_duplicates.
  induction accepted as [|p accepted IH]; simpl; [reflexivity|].
  rewrite !list_sum_app, IH, map_app, list_sum_app. lia.
Qed.

Lemma count_duplicates_bound (accepted : list Profile) (matched : list Matched) :
  count_duplicates accepted matched <= length accepted * length matched.
Proof.
  rewrite count_duplicates_spec. unfold countDuplicates_spec.
  etransitivity; [apply filter_length_le|]. now rewrite length_prod.
Qed.

(** X3.  The duplicate count adds up over the accepted profiles and over
    the matched entries, and never exceeds the number of pairs.  So an
    entry that [matched_profiles] holds twice (kept from a failed attempt
    and found again by the next scan) is counted twice: scanning the same
    results on top of their own matches doubles the count. *)
Theorem count_duplicates_adds_up
    (name : string) (containers : list Elem) (accepted a1 a2 : list Profile)
    (m1 m2 : list Matched) :
  count_duplicates (a1 ++ a2) m1 = count_duplicates a1 m1 + count_duplicates a2 m1 /\
  count_duplicates accepted (m1 ++ m2)
  = count_duplicates accepted m1 + count_duplicates accepted m2 /\
  count_duplicates accepted m1 <= length accepted * length m1 /\
  count_duplicates accepted
    (fst (scan_containers name containers (fst (scan_containers name containers []))))
  = 2 * count_duplicates accepted (fst (scan_containers name containers [])).
Proof.
  split; [apply count_duplicates_app_l|]. split; [apply count_duplicates_app_r|].
  split; [apply count_duplicates_bound|].
  rewrite scan_containers_app. simpl fst. rewrite count_duplicates_app_r. lia.
Qed.

End Scan.

(** ** The loop of one name, further *)

Lemma basics_readable_location (p : ProfilePage) :
  basics_readable p = true <->
  exists l, pd_location (extract_profile_data p) = Some l.
Proof.
  unfold basics_readable, extract_profile_data; simpl.
  destruct (name_element p), (headline_element p), (location_element p); simpl;
    split; intro H; try reflexivity; try discriminate;
    try (eexists; reflexivity); destruct H as (l & H); discriminate.
Qed.

Lemma basics_unreadable (p : ProfilePage) :
  basics_readable p = false ->
  pd_name (extract_profile_data p) = None \/
  pd_headline (extract_profile_data p) = None \/
  pd_location (extract_profile_data p) = None.
Proof.
  unfold basics_readable, extract_profile_data; simpl.
  destruct (name_element p), (headline_element p), (location_element p); simpl;
    intro H; try discriminate; auto.
Qed.

Section LoopFurther.

Context {ext : Externals}.

Lemma search_loop_at_two (name : string) (pg : Page) (attempt : nat)
    (matched : list Matched) (ex : Extracted) :
  (attempt <? 2)%nat = false ->
  search_loop name pg attempt matched ex
  = Some {| exit_attempt := attempt; exit_matched := matched;
            exit_extracted := ex; exit_page := pg |}.
Proof. intro H. destruct pg; cbn [search_loop]; now rewrite H. Qed.

(** An attempt that found a match and could not follow it counts as
    failed and keeps the match. *)
Lemma search_loop_follow_fails (name : string) (c : Elem) (containers : list Elem)
    (link : Link) (pg : Page) (attempt : nat) (matched : list Matched)
    (m : Matched) (ms : list Matched) (ok : bool) (ex : Extracted) :
  (attempt <? 2)%nat = true ->
  scan_containers name (c :: containers) matched = (m :: ms, ok) ->
  ok = false \/ follow_fails link = true ->
  search_loop name (Results (c :: containers) link :: pg) attempt matched ex
  = search_loop name pg (S attempt) (m :: ms) ex.
Proof.
  intros Hlt Hscan Hfail. cbn [search_loop]. rewrite Hlt, Hscan.
  destruct ok; [|reflexivity].
  destruct Hfail as [Hf|Hf]; [discriminate|].
  destruct link as [| |p]; [discriminate|reflexivity|].
  simpl in Hf. apply negb_true_iff in Hf.
  destruct (basics_unreadable _ Hf) as [H|[H|H]]; rewrite H.
  - reflexivity.
  - now destruct (pd_name (extract_profile_data p)).
  - now destruct (pd_name (extract_profile_data p)),
                 (pd_headline (extract_profile_data p)).
Qed.

(** X4.  A match that could not be followed shadows the "N/A" notice:
    when the first attempt finds a match and fails after it (a later name
    element raises, the click raises, or a basic element of the page opened
    raises), and the second attempt gives up too, the name is left with no
    record at all, [matched_profiles] not being empty at line 319. *)
Theorem failed_match_leaves_no_record
    (name : string) (c : Elem) (containers : list Elem) (link : Link)
    (second : Attempt) (pg : Page) (m : Matched) (ms : list Matched) (ok : bool)
    (ex : Extracted) :
  scan_containers name (c :: containers) [] = (m :: ms, ok) ->
  ok = false \/ follow_fails link = true ->
  gives_up name second = true ->
  handle_name name (Results (c :: containers) link :: second :: pg) ex = Some (ex, pg).
Proof.
  intros Hscan Hfail Hsecond. unfold handle_name.
  rewrite (@search_loop_follow_fails name c containers link (second :: pg) 0 []
             m ms ok ex eq_refl Hscan Hfail).
  destruct second as [|[|c2 containers2] link2].
  - cbn [search_loop]. simpl Nat.ltb. cbv iota.
    rewrite search_loop_at_two by reflexivity. reflexivity.
  - reflexivity.
  - unfold gives_up in Hsecond.
    pose proof (scan_containers_app name (c2 :: containers2) (m :: ms)) as Happ.
    destruct (scan_containers name (c2 :: containers2) []) as [found ok2].
    simpl fst in *. simpl snd in *. simpl app in Happ.
    rewrite (@search_loop_follow_fails name c2 containers2 link2 pg 1 (m :: ms)
               m (ms ++ found) ok2 ex eq_refl Happ).
    + rewrite search_loop_at_two by reflexivity. reflexivity.
    + apply orb_true_iff in Hsecond. destruct Hsecond as [H|H]; [left|now right].
      now apply negb_true_iff in H.
Qed.

Lemma search_loop_matched_kept (name : string) (pg : Page) :
  forall attempt matched ex e,
    search_loop name pg attempt matched ex = Some e ->
    exists more, exit_matched e = matched ++ more.
Proof.
  induction pg as [|a pg IH]; intros attempt matched ex e H.
  - cbn [search_loop] in H. destruct (attempt <? 2)%nat; [discriminate|].
    injection H as <-. exists []. simpl. now rewrite app_nil_r.
  - cbn [search_loop] in H. destruct (attempt <? 2)%nat.
    2:{ injection H as <-. exists []. simpl. now rewrite app_nil_r. }
    destruct a as [|containers link]; [eapply IH; eassumption|].
    destruct containers as [|c containers].
    { injection H as <-. exists []. simpl. now rewrite app_nil_r. }
    rewrite scan_containers_app in H.
    set (found := fst (scan_containers name (c :: containers) [])) in *.
    assert (Hkeep : forall a' ex',
               search_loop name pg a' (matched ++ found) ex' = Some e ->
               exists more, exit_matched e = matched ++ more).
    { intros a' ex' H'. destruct (IH _ _ _ _ H') as (more & ->).
      exists (found ++ more). now rewrite app_assoc. }
    destruct (snd (scan_containers name (c :: containers) [])).
    2:{ apply (Hkeep (S attempt) ex). revert H.
        generalize (search_loop name pg (S attempt) (matched ++ found) ex).
        intros o H. now destruct (matched ++ found). }
    destruct (matched ++ found) as [|m ms] eqn:E.
    { destruct (IH _ _ _ _ H) as (more & ->). apply app_eq_nil in E.
      destruct E as (-> & _). now exists more. }
    destruct link as [| |profile]; try (eapply Hkeep; eassumption).
    destruct (pd_name (extract_profile_data profile));
      [|eapply Hkeep; eassumption].
    destruct (pd_headline (extract_profile_data profile));
      [|eapply Hkeep; eassumption].
    destruct (pd_location (extract_profile_data profile));
      [|eapply Hkeep; eassumption].
    injection H as <-. exists found. simpl. now rewrite E.
Qed.

End LoopFurther.

Section LoopEnds.

Context {ext : Externals}.

Lemma search_loop_ends (name : string) (ex : Extracted) (pg : Page) :
  forall attempt matched,
    attempt <= 2 ->
    2 - attempt <= length pg ->
    forallb linked (firstn (2 - attempt) pg) = true ->
    exists e used,
      search_loop name pg attempt matched ex = Some e /\
      pg = used ++ exit_page e /\
      length used <= 2 - attempt.
Proof.
  induction pg as [|a pg IH]; intros attempt matched Hle Hlen Hlinked.
  - cbn [length] in Hlen. assert (attempt = 2) as -> by lia.
    eexists _, []. split; [reflexivity|]. split; [reflexivity|cbn [length]; lia].
  - destruct (attempt <? 2)%nat eqn:Hlt.
    2:{ rewrite search_loop_at_two by assumption. eexists _, [].
        split; [reflexivity|]. split; [reflexivity|cbn [length]; lia]. }
    apply Nat.ltb_lt in Hlt.
    replace (2 - attempt) with (S (2 - S attempt)) in * by lia.
    cbn [firstn forallb length] in Hlinked, Hlen. apply andb_true_iff in Hlinked.
    destruct Hlinked as (Ha & Hrest).
    assert (Hnext : forall matched',
               exists e used,
                 search_loop name pg (S attempt) matched' ex = Some e /\
                 a :: pg = used ++ exit_page e /\
                 length used <= S (2 - S attempt)).
    { intro matched'.
      destruct (IH (S attempt) matched') as (e & used & He & Hpg & Hu);
        [lia|lia|assumption|].
      exists e, (a :: used). split; [assumption|].
      split; [simpl; now rewrite <- Hpg|cbn [length]; lia]. }
    cbn [search_loop]. apply Nat.ltb_lt in Hlt. rewrite Hlt.
    destruct a as [|[|c containers] link]; [apply Hnext| |].
    { eexists _, [_]. split; [reflexivity|]. split; [reflexivity|cbn [length]; lia]. }
    destruct (scan_containers name (c :: containers) matched) as [[|m ms] [|]];
      try apply Hnext.
    destruct link as [| |profile]; [discriminate|apply Hnext|].
    destruct (pd_name (extract_profile_data profile)); [|apply Hnext].
    destruct (pd_headline (extract_profile_data profile)); [|apply Hnext].
    destruct (pd_location (extract_profile_data profile)); [|apply Hnext].
    eexists _, [_]. split; [reflexivity|]. split; [reflexivity|cbn [length]; lia].
Qed.

(** X5.  When neither of the first two answers of the page says that the
    matched container has no link, the loop of a name ends: it returns, a
    record added or not, having made at most two searches. *)
Theorem handle_name_ends_within_two_searches
    (name : string) (pg : Page) (ex : Extracted) :
  2 <= length pg ->
  forallb linked (firstn 2 pg) = true ->
  exists ex' pg' used,
    handle_name name pg ex = Some (ex', pg') /\
    pg = used ++ pg' /\
    length used <= 2.
Proof.
  intros Hlen Hlinked.
  destruct (@search_loop_ends name ex pg 0 [] (Nat.le_0_l _) Hlen Hlinked)
    as (e & used & He & Hpg & Hu).
  unfold handle_name. rewrite He. eexists _, _, used.
  split; [reflexivity|]. now split.
Qed.

Lemma search_loop_notice (name : string) (ex : Extracted) (pg : Page) :
  forall attempt e,
    attempt <= 2 ->
    search_loop name pg attempt [] ex = Some e ->
    exit_attempt e = 2 ->
    exit_matched e = [] ->
    exists used,
      pg = used ++ exit_page e /\
      length used = 2 - attempt /\
      Forall (fun a => unmatched name a = true) used.
Proof.
  induction pg as [|a pg IH]; intros attempt e Hle H H2 Hm.
  - cbn [search_loop] in H. destruct (attempt <? 2)%nat; [discriminate|].
    injection H as <-. simpl in H2. subst attempt. exists []. now repeat split.
  - destruct (attempt <? 2)%nat eqn:Hlt.
    2:{ rewrite search_loop_at_two in H by assumption. injection H as <-.
        simpl in H2. subst attempt. exists []. now repeat split. }
    assert (Hnext : forall e',
               unmatched name a = true ->
               search_loop name pg (S attempt) [] ex = Some e' -> e' = e ->
               exists used,
                 a :: pg = used ++ exit_page e /\
                 length used = 2 - attempt /\
                 Forall (fun a => unmatched name a = true) used).
    { intros e' Hu H' ->. apply Nat.ltb_lt in Hlt.
      destruct (IH (S attempt) e) as (used & Hpg & Hl & Hall); try assumption.
      exists (a :: used). split; [simpl; now rewrite <- Hpg|].
      split; [cbn [length]; lia|now constructor]. }
    assert (Hkept : forall a' m ms,
               search_loop name pg a' (m :: ms) ex = Some e -> False).
    { intros a' m ms H'. destruct (search_loop_matched_kept _ _ _ _ _ H') as (more & Hk).
      rewrite Hm in Hk. discriminate. }
    cbn [search_loop] in H. rewrite Hlt in H.
    destruct a as [|[|c containers] link].
    + now apply (Hnext e).
    + injection H as <-. simpl in H2. subst attempt. discriminate.
    + unfold unmatched in Hnext.
      destruct (scan_containers name (c :: containers) []) as [[|m ms] ok];
        simpl fst in Hnext.
      * destruct ok; now apply (Hnext e).
      * exfalso. destruct ok; [|now apply (Hkept _ _ _ H)].
        destruct link as [| |profile]; try now apply (Hkept _ _ _ H).
        destruct (pd_name (extract_profile_data profile));
          [|now apply (Hkept _ _ _ H)].
        destruct (pd_headline (extract_profile_data profile));
          [|now apply (Hkept _ _ _ H)].
        destruct (pd_location (extract_profile_data profile));
          [|now apply (Hkept _ _ _ H)].
        injection H as <-. discriminate.
Qed.

(** X6.  The loop of a name is left with [attempt == 2] and
    [matched_profiles] empty, the condition under which lines 319-326 add
    the "N/A" record, exactly when the first two answers of the page are
    failed attempts without a match (the search raises, or no container
    read matches); the page is then left at the third answer. *)
Theorem notice_exactly_after_two_unmatched_attempts
    (name : string) (pg pg' : Page) (ex : Extracted) :
  (exists e,
      search_loop name pg 0 [] ex = Some e /\
      exit_attempt e = 2 /\ exit_matched e = [] /\ exit_page e = pg') <->
  (exists a1 a2,
      pg = a1 :: a2 :: pg' /\
      unmatched name a1 = true /\ unmatched name a2 = true).
Proof.
  split.
  - intros (e & He & H2 & Hm & Hpg).
    destruct (@search_loop_notice name ex pg 0 e (Nat.le_0_l _) He H2 Hm)
      as (used & Hused & Hlen & Hall).
    destruct used as [|a1 [|a2 [|? ?]]]; try discriminate.
    exists a1, a2. inversion Hall as [|? ? H1 Hall']; subst.
    inversion Hall' as [|? ? H2' _]; subst. now repeat split.
  - intros (a1 & a2 & -> & H1 & H2).
    rewrite (@search_loop_unmatched _ _ _ _ 0 _ eq_refl H1),
      (@search_loop_unmatched _ _ _ _ 1 _ eq_refl H2), search_loop_done.
    eexists. now repeat split.
Qed.

End LoopEnds.

(** ** The persistor, further *)

Lemma dict_to_list_fits (fieldnames : list string) (rowdict : Dict) :
  dict_to_list fieldnames rowdict
  = if fits fieldnames rowdict then Some (map (cell rowdict) fieldnames) else None.
Proof. reflexivity. Qed.

Lemma get_in_keys (d : Dict) (k : string) (v : Value) :
  get d k = Some v -> In k (keys d).
Proof.
  induction d as [|[k' v'] d IH]; simpl; [discriminate|].
  destruct (String.eqb_spec k' k) as [->|_]; [now left|]. intro H. right. now apply IH.
Qed.

Lemma get_combine_map (f : string -> Value) (fieldnames : list string) (k : string) :
  In k fieldnames -> get (combine fieldnames (map f fieldnames)) k = Some (f k).
Proof.
  induction fieldnames as [|k' fieldnames IH]; simpl; [intros []|].
  destruct (String.eqb_spec k' k) as [->|Hne]; [reflexivity|].
  intros [H|H]; [contradiction|now apply IH].
Qed.

Lemma fits_in (fieldnames : list string) (rowdict : Dict) (k : string) :
  fits fieldnames rowdict = true -> In k (keys rowdict) -> In k fieldnames.
Proof.
  unfold fits. rewrite forallb_forall. intros H Hk. specialize (H _ Hk).
  apply existsb_exists in H. destruct H as (k' & Hin & Heq).
  apply String.eqb_eq in Heq. now subst.
Qed.

(** X7.  A row is written as one value for each field name, in the order
    of the field names, and read under the field names the line gives the
    row back: every key of the row has its value, every field the row lacks
    has the empty string.  The row is refused, nothing of it written,
    exactly when it has a key that is not a field name. *)
Theorem row_is_read_back (fieldnames : list string) (rowdict : Dict) :
  (forall cells,
      dict_to_list fieldnames rowdict = Some cells ->
      length cells = length fieldnames /\
      (forall k v, get rowdict k = Some v ->
                   get (combine fieldnames cells) k = Some v) /\
      (forall k, In k fieldnames -> get rowdict k = None ->
                 get (combine fieldnames cells) k = Some (VStr ""))) /\
  (dict_to_list fieldnames rowdict = None <->
   exists k, In k (keys rowdict) /\ ~ In k fieldnames).
Proof.
  rewrite dict_to_list_fits. split.
  - intros cells H. destruct (fits fieldnames rowdict) eqn:Hfits; [|discriminate].
    injection H as <-. split; [apply length_map|]. split.
    + intros k v Hget. rewrite get_combine_map.
      * unfold cell. now rewrite Hget.
      * eapply fits_in; [eassumption|]. eapply get_in_keys; eassumption.
    + intros k Hk Hget. rewrite get_combine_map by assumption.
      unfold cell. now rewrite Hget.
  - destruct (fits fieldnames rowdict) eqn:Hfits.
    + split; [discriminate|]. intros (k & Hk & Hn). exfalso. apply Hn.
      eapply fits_in; eassumption.
    + split; [intros _|reflexivity]. unfold fits in Hfits.
      assert (Hex : existsb (fun k => negb (existsb (String.eqb k) fieldnames))
                      (keys rowdict) = true).
      { clear -Hfits. induction (keys rowdict) as [|k l IH]; simpl in *; [discriminate|].
        destruct (existsb (String.eqb k) fieldnames); simpl in *; [now apply IH|reflexivity]. }
      apply existsb_exists in Hex. destruct Hex as (k & Hk & Hneg).
      exists k. split; [assumption|]. intro Hin. apply negb_true_iff in Hneg.
      assert (Ht : existsb (String.eqb k) fieldnames = true)
        by (apply existsb_exists; exists k; split; [assumption|apply String.eqb_refl]).
      congruence.
Qed.

Lemma writerows_fitting (fieldnames : list string) (data : list Dict) :
  forallb (fits fieldnames) data = true ->
  writerows fieldnames data = (map (row_line fieldnames) data, true).
Proof.
  induction data as [|r data IH]; simpl; [reflexivity|].
  intro H. apply andb_true_iff in H. destruct H as (Hr & Hd).
  rewrite dict_to_list_fits, Hr, (IH Hd). reflexivity.
Qed.

Lemma writerows_refused (fieldnames : list string) (good : list Dict) (bad : Dict)
    (rest : list Dict) :
  forallb (fits fieldnames) good = true ->
  fits fieldnames bad = false ->
  writerows fieldnames (good ++ bad :: rest) = (map (row_line fieldnames) good, false).
Proof.
  induction good as [|r good IH]; simpl; intros Hg Hb.
  - now rewrite dict_to_list_fits, Hb.
  - apply andb_true_iff in Hg. destruct Hg as (Hr & Hg).
    rewrite dict_to_list_fits, Hr, (IH Hg Hb). reflexivity.
Qed.

Lemma fits_own_keys (rowdict : Dict) : fits (keys rowdict) rowdict = true.
Proof.
  unfold fits. apply forallb_forall. intros k Hk. apply existsb_exists.
  exists k. split; [assumption|apply String.eqb_refl].
Qed.

(** What a call that writes leaves in the state. *)
Lemma save_data_incrementally_fitting (data_type : string) (first : Dict)
    (rest : list Dict) (file_path : string) (s : State) :
  can_append s file_path = true ->
  forallb (fits (keys first)) rest = true ->
  save_data_incrementally data_type (first :: rest) file_path s
  = Returned
      (print (SavedIncrementally data_type file_path)
         (write_file file_path
            (content s file_path ++ header_for s file_path first
             ++ map (row_line (keys first)) (first :: rest)) s)).
Proof.
  intros Hcan Hfit. unfold save_data_incrementally. rewrite Hcan.
  rewrite writerows_fitting; [reflexivity|].
  simpl. now rewrite fits_own_keys.
Qed.

(** X8.  Saving in two calls is saving in one: when the rows of two
    batches all have the keys of the first row, two calls of the persistor
    on a destination, one batch after the other, leave in it what one call
    on the two batches together leaves, and every other file as it was. *)
Theorem two_saves_are_one
    (data_type : string) (fieldnames : list string) (d1 d2 : list Dict)
    (file_path : string) (s : State) :
  can_append s file_path = true ->
  Forall (fun r => keys r = fieldnames) (d1 ++ d2) ->
  let twice :=
    state_of (save_data_incrementally data_type d2 file_path
                (state_of (save_data_incrementally data_type d1 file_path s))) in
  let once := state_of (save_data_incrementally data_type (d1 ++ d2) file_path s) in
  files twice file_path = files once file_path /\
  (forall p, p <> file_path -> files twice p = files s p /\ files once p = files s p).
Proof.
  intros Hcan Hkeys twice once. subst twice once.
  assert (Hfit : forall first rest,
             Forall (fun r => keys r = fieldnames) (first :: rest) ->
             forallb (fits (keys first)) rest = true).
  { intros first rest H. inversion H as [|? ? Hf Hr]; subst.
    apply forallb_forall. intros r Hin. rewrite Forall_forall in Hr.
    rewrite <- (Hr _ Hin). apply fits_own_keys. }
  destruct d1 as [|f1 r1].
  - simpl app. split.
    + destruct d2 as [|f2 r2]; [reflexivity|].
      rewrite !save_data_incrementally_fitting by (auto using Hfit).
      reflexivity.
    + intros p Hp. destruct d2 as [|f2 r2]; [now split|].
      rewrite !save_data_incrementally_fitting by (auto using Hfit).
      simpl. apply String.eqb_neq in Hp. now rewrite Hp.
  - assert (H1 : forallb (fits (keys f1)) r1 = true).
    { apply Hfit. apply Forall_app in Hkeys. apply Hkeys. }
    assert (H12 : forallb (fits (keys f1)) (r1 ++ d2) = true) by (apply Hfit, Hkeys).
    simpl app. rewrite (save_data_incrementally_fitting _ _ _ _ _ Hcan H1),
      (save_data_incrementally_fitting _ _ _ _ _ Hcan H12).
    simpl state_of.
    destruct d2 as [|f2 r2].
    + rewrite app_nil_r. split; [reflexivity|]. intros p Hp. simpl.
      apply String.eqb_neq in Hp. now rewrite Hp.
    + assert (H2 : forallb (fits (keys f2)) r2 = true).
      { apply Hfit. apply Forall_app in Hkeys. apply Hkeys. }
      assert (Hk : keys f2 = keys f1).
      { rewrite Forall_forall in Hkeys.
        rewrite (Hkeys f1), (Hkeys f2); [reflexivity| |now left].
        apply in_or_app. right. now left. }
      rewrite save_data_incrementally_fitting by assumption.
      split.
      * simpl. rewrite !String.eqb_refl. f_equal.
        unfold header_for, isfile, content; simpl. rewrite !String.eqb_refl.
        rewrite Hk. simpl. rewrite map_app. cbn [map].
        rewrite <- !app_assoc. reflexivity.
      * intros p Hp. simpl. apply String.eqb_neq in Hp. now rewrite Hp.
Qed.

(** X9.  A row with a key outside the keys of the first row makes the
    call raise when the writer reaches it; the header and the rows before
    it are in the file by then, the rows after it are not. *)
Theorem refused_row_leaves_rows_before_it
    (data_type : string) (first bad : Dict) (good rest : list Dict)
    (file_path : string) (s : State) :
  can_append s file_path = true ->
  forallb (fits (keys first)) good = true ->
  fits (keys first) bad = false ->
  save_data_incrementally data_type (first :: good ++ bad :: rest) file_path s
  = Raised
      (write_file file_path
         (content s file_path ++ header_for s file_path first
          ++ map (row_line (keys first)) (first :: good)) s).
Proof.
  intros Hcan Hgood Hbad. unfold save_data_incrementally. rewrite Hcan.
  change (first :: good ++ bad :: rest) with ((first :: good) ++ bad :: rest).
  rewrite writerows_refused; [reflexivity| |assumption].
  simpl. now rewrite fits_own_keys.
Qed.

(** What the writer writes of any rows: the lines of the rows before the
    first one that does not fit, and whether there is none. *)
Lemma writerows_prefix (fieldnames : list string) (data : list Dict) :
  writerows fieldnames data
  = (map (row_line fieldnames) (prefix_while (fits fieldnames) data),
     forallb (fits fieldnames) data).
Proof.
  induction data as [|r data IH]; cbn [writerows prefix_while forallb map]; [reflexivity|].
  rewrite dict_to_list_fits. destruct (fits fieldnames r); [|reflexivity].
  rewrite IH. reflexivity.
Qed.

Lemma prefix_while_all (A : Type) (ok : A -> bool) (l : list A) :
  forallb ok l = true -> prefix_while ok l = l.
Proof.
  induction l as [|x l IH]; cbn [forallb prefix_while]; [reflexivity|].
  intro H. apply andb_true_iff in H. destruct H as (-> & H). now rewrite IH.
Qed.

(** ** [save_profile_data_to_csv] *)

Lemma profile_row_refused (p : Profile) : fits profile_fieldnames (profile_row p) = false.
Proof. reflexivity. Qed.

Section ProfileCsv.

Context {ext : Externals}.

Lemma write_profiles_file (profile_data : list Dict) (file_path : string) (s : State) :
  let r := write_profiles profile_data file_path s in
  content (state_of r) file_path
  = HeaderLine profile_fieldnames :: fst (writerows profile_fieldnames profile_data) /\
  (forall p, p <> file_path -> files (state_of r) p = files s p) /\
  (forall s', r = Returned s' ->
     rows (content s' file_path) = length profile_data).
Proof.
  unfold write_profiles.
  pose proof (writerows_lines profile_fieldnames profile_data) as (Hh & _ & Hok).
  destruct (writerows profile_fieldnames profile_data) as [lines ok].
  simpl fst in *. simpl snd in *. rewrite state_of_if.
  assert (Hfiles : files (if ok
                          then write_file file_path (HeaderLine profile_fieldnames :: lines) s
                          else write_file file_path (HeaderLine profile_fieldnames :: lines) s)
                   = files (write_file file_path (HeaderLine profile_fieldnames :: lines) s))
    by now destruct ok.
  split; [unfold content; now rewrite Hfiles, files_write_same|].
  split; [intros p Hp; rewrite Hfiles; now apply files_write_other|].
  intros s' Hs'. destruct ok; [|discriminate]. injection Hs' as <-.
  unfold content. rewrite files_write_same.
  change (rows (HeaderLine profile_fieldnames :: lines)) with (rows lines).
  now apply Hok.
Qed.

(** X10.  [save_profile_data_to_csv] replaces the file: when the
    directory is there and the file opens, the file is left holding the
    header of the seven fixed field names and, after it, the line of each
    record in order, up to the first record with a key that is no field
    name, whatever the file held before; the call returns when every record
    fits and raises at the first that does not.  When opening the file
    raises PermissionError and the alternative file opens, exactly the same
    lines are written to the alternative file, with the same outcome.  So a
    call that returns leaves, in one of the two files, the header and the
    lines of all the records, and every other file as it was.  On another
    error, or without the directory, the call raises and no file changes. *)
Theorem save_profile_data_to_csv_writes_the_records
    (open_w : string -> option Exc) (profile_data : list Dict)
    (output_directory : string) (s : State) :
  let output_file := path_join output_directory "ExtractedProfiles.csv" in
  let alternative_file := path_join output_directory "ExtractedProfiles_Alt.csv" in
  let r := save_profile_data_to_csv true open_w profile_data output_directory s in
  let written :=
    HeaderLine profile_fieldnames
    :: map (row_line profile_fieldnames)
         (prefix_while (fits profile_fieldnames) profile_data) in
  (open_w output_file = None ->
   r = if forallb (fits profile_fieldnames) profile_data
       then Returned (write_file output_file written s)
       else Raised (write_file output_file written s)) /\
  (open_w output_file = Some PermissionError -> open_w alternative_file = None ->
   r = if forallb (fits profile_fieldnames) profile_data
       then Returned (write_file alternative_file written s)
       else Raised (write_file alternative_file written s)) /\
  (forall s',
      r = Returned s' ->
      exists file_path,
        (file_path = output_file \/ file_path = alternative_file) /\
        content s' file_path
        = HeaderLine profile_fieldnames
          :: map (row_line profile_fieldnames) profile_data /\
        rows (content s' file_path) = length profile_data /\
        (forall p, p <> file_path -> files s' p = files s p)) /\
  (forall e, open_w output_file = Some e ->
     e <> PermissionError \/ open_w alternative_file <> None -> r = Raised s) /\
  save_profile_data_to_csv false open_w profile_data output_directory s = Raised s.
Proof.
  intros output_file alternative_file r written. subst r.
  unfold save_profile_data_to_csv. fold output_file. fold alternative_file.
  assert (Hw : forall file_path,
             write_profiles profile_data file_path s
             = if forallb (fits profile_fieldnames) profile_data
               then Returned (write_file file_path written s)
               else Raised (write_file file_path written s)).
  { intro file_path. unfold write_profiles. now rewrite writerows_prefix. }
  assert (Hret : forall file_path s',
             write_profiles profile_data file_path s = Returned s' ->
             content s' file_path
             = HeaderLine profile_fieldnames
               :: map (row_line profile_fieldnames) profile_data /\
             rows (content s' file_path) = length profile_data /\
             (forall p, p <> file_path -> files s' p = files s p)).
  { intros file_path s' H.
    destruct (write_profiles_file profile_data file_path s) as (_ & Ho & Hr).
    split; [|split; [now apply Hr|intros p Hp; specialize (Ho p Hp); now rewrite H in Ho]].
    rewrite Hw in H.
    destruct (forallb (fits profile_fieldnames) profile_data) eqn:Hfit; [|discriminate].
    injection H as <-. unfold content. rewrite files_write_same.
    unfold written. now rewrite prefix_while_all. }
  split; [|split; [|split; [|split; [|reflexivity]]]].
  - intros ->. apply Hw.
  - intros -> ->. apply Hw.
  - intros s' H. destruct (open_w output_file) as [e|].
    + destruct e; try discriminate.
      destruct (open_w alternative_file); [discriminate|].
      exists alternative_file. split; [now right|]. now apply Hret.
    + exists output_file. split; [now left|]. now apply Hret.
  - intros e -> [He|Ha].
    + destruct e; try reflexivity. now contradiction He.
    + destruct e; try reflexivity.
      destruct (open_w alternative_file); [reflexivity|now contradiction Ha].
Qed.

(** X11.  The profile records the pipeline builds (lines 296-301 and
    321-326) carry the key 'duplicate_count', which is not among the seven
    field names of [save_profile_data_to_csv]: given any such records, the
    call empties the file, writes the header and raises at the first
    record; no record is written. *)
Theorem save_profile_data_to_csv_refuses_pipeline_records
    (open_w : string -> option Exc) (first : Profile) (profiles : list Profile)
    (output_directory : string) (s : State) :
  open_w (path_join output_directory "ExtractedProfiles.csv") = None ->
  save_profile_data_to_csv true open_w (map profile_row (first :: profiles))
    output_directory s
  = Raised
      (write_file (path_join output_directory "ExtractedProfiles.csv")
         [HeaderLine profile_fieldnames] s).
Proof.
  intro Hopen. unfold save_profile_data_to_csv. rewrite Hopen.
  unfold write_profiles. cbn [map writerows].
  rewrite dict_to_list_fits, profile_row_refused. reflexivity.
Qed.

End ProfileCsv.

(** ** [extract_profile_data], further *)

Lemma text_or_na_readable (e : Elem) :
  text_or_na e = if readable e then Some (text_of e) else None.
Proof. now destruct e. Qed.

(** X12.  Each of the three lists of [extract_profile_data] holds one item
    for each entry of its section before the first entry that raises, in
    order, a missing sub-element read as "N/A"; the entry that raises and
    those after it are dropped; an absent section, or one whose query
    raises, gives the empty list. *)
Theorem extracted_lists_stop_at_first_raise (p : ProfilePage) :
  (forall entries,
      read_education entries
      = map education_of (prefix_while education_readable entries)) /\
  (forall items,
      read_experiences items
      = map experience_of (prefix_while experience_readable items)) /\
  (forall items,
      read_skills items = map text_of (prefix_while readable items)) /\
  (forall entries, education_section p = Present entries ->
      pd_education (extract_profile_data p)
      = map education_of (prefix_while education_readable entries)) /\
  (forall items, experience_section p = Present items ->
      pd_experiences (extract_profile_data p)
      = map experience_of (prefix_while experience_readable items)) /\
  (forall items, skills_section p = Present items ->
      pd_skills (extract_profile_data p)
      = map text_of (prefix_while readable items)) /\
  (education_section p = Absent \/ education_section p = Throws ->
   pd_education (extract_profile_data p) = []) /\
  (experience_section p = Absent \/ experience_section p = Throws ->
   pd_experiences (extract_profile_data p) = []) /\
  (skills_section p = Absent \/ skills_section p = Throws ->
   pd_skills (extract_profile_data p) = []).
Proof.
  assert (He : forall entries,
             read_education entries
             = map education_of (prefix_while education_readable entries)).
  { induction entries as [|e entries IH]; simpl; [reflexivity|].
    unfold education_readable. rewrite !text_or_na_readable.
    destruct (readable (school_element e)), (readable (edu_duration_element e));
      simpl; try reflexivity. now rewrite IH. }
  assert (Hx : forall items,
             read_experiences items
             = map experience_of (prefix_while experience_readable items)).
  { induction items as [|i items IH]; simpl; [reflexivity|].
    unfold experience_readable. rewrite !text_or_na_readable.
    destruct (readable (title_element i)), (readable (company_element i)),
      (readable (exp_duration_element i)), (readable (exp_location_element i));
      simpl; try reflexivity. now rewrite IH. }
  assert (Hs : forall items,
             read_skills items = map text_of (prefix_while readable items)).
  { induction items as [|i items IH]; simpl; [reflexivity|].
    rewrite text_or_na_readable. destruct (readable i); simpl; [now rewrite IH|reflexivity]. }
  repeat split; try assumption.
  - intros entries H. unfold extract_profile_data; simpl. rewrite H. apply He.
  - intros items H. unfold extract_profile_data; simpl. rewrite H. apply Hx.
  - intros items H. unfold extract_profile_data; simpl. rewrite H. apply Hs.
  - intros [H|H]; unfold extract_profile_data; simpl; now rewrite H.
  - intros [H|H]; unfold extract_profile_data; simpl; now rewrite H.
  - intros [H|H]; unfold extract_profile_data; simpl; now rewrite H.
Qed.

(** ** What a run does to the files, and how it ends *)

Lemma extends_refl (l : list Line) : extends l l.
Proof. exists []. now rewrite app_nil_r. Qed.

Lemma extends_trans (a b c : list Line) : extends a b -> extends b c -> extends a c.
Proof. intros (x & ->) (y & ->). exists (x ++ y). now rewrite app_assoc. Qed.

Lemma files_kept_same (s s' : State) : files s' = files s -> files_kept s s'.
Proof.
  intros H p. unfold content, isfile. rewrite H. split; [apply extends_refl|auto].
Qed.

Lemma files_kept_trans (a b c : State) :
  files_kept a b -> files_kept b c -> files_kept a c.
Proof.
  intros H1 H2 p. destruct (H1 p) as (E1 & F1), (H2 p) as (E2 & F2).
  split; [eapply extends_trans; eassumption|auto].
Qed.

Lemma save_data_incrementally_kept (data_type : string) (data : list Dict)
    (file_path : string) (s : State) :
  files_kept s (state_of (save_data_incrementally data_type data file_path s)).
Proof.
  destruct (save_data_incrementally_appended data_type data file_path s)
    as (Hother & added & Hc & _ & _ & _ & _ & _ & _ & Hstill).
  intro p. destruct (String.eqb_spec p file_path) as [->|Hne].
  - split; [now exists added|assumption].
  - unfold content, isfile. rewrite (Hother _ Hne). split; [apply extends_refl|auto].
Qed.

Lemma and_then_kept (s : State) (r : Result State) (k : State -> Result State) :
  files_kept s (state_of r) ->
  (forall s1, files_kept s1 (state_of (k s1))) ->
  files_kept s (state_of (r >>= k)).
Proof.
  intros H Hk. destruct r as [s1|s1|s1]; simpl in *; [|assumption..].
  eapply files_kept_trans; [exact H|apply Hk].
Qed.

Section RunsFurther.

Context {ext : Externals}.

Lemma search_and_handle_profiles_kept (names : list string) (output_directory : string)
    (s : State) :
  files_kept s (state_of (search_and_handle_profiles names output_directory s)).
Proof.
  unfold search_and_handle_profiles.
  destruct (handle_names names (page s) no_extracted) as [[ex pg]|];
    [|now apply files_kept_same].
  repeat (apply and_then_kept; [|intro; apply save_data_incrementally_kept]).
  apply (files_kept_trans (b := set_page pg s));
    [now apply files_kept_same|apply save_data_incrementally_kept].
Qed.

Lemma candidate_loop_files_kept (output_directory : string) (remaining : list string) :
  forall k start s,
    files_kept s (state_of (fst (candidate_loop output_directory k remaining start s))).
Proof.
  induction remaining as [|name rest IH]; intros k start s; cbn [candidate_loop].
  - now apply files_kept_same.
  - pose proof (search_and_handle_profiles_kept [name] output_directory
                  (print (ProcessingProfile name k) s)) as H.
    destruct (search_and_handle_profiles [name] output_directory
                (print (ProcessingProfile name k) s)) as [s'|s'|s']; simpl in H.
    + eapply files_kept_trans; [|apply IH].
      eapply files_kept_trans; [|now apply (@files_kept_same s')].
      eapply files_kept_trans; [|exact H]. now apply files_kept_same.
    + simpl. eapply files_kept_trans; [|now apply (@files_kept_same s')].
      eapply files_kept_trans; [|exact H]. now apply files_kept_same.
    + simpl. eapply files_kept_trans; [|exact H]. now apply files_kept_same.
Qed.

Lemma candidate_loop_index (output_directory : string) (remaining : list string) :
  forall k s r i,
    candidate_loop output_directory k remaining k s = (r, i) ->
    k <= i <= k + length remaining /\
    (forall s', r = Returned s' -> i = k + length remaining).
Proof.
  induction remaining as [|name rest IH]; intros k s r i H; cbn [candidate_loop] in H.
  - injection H as <- <-. simpl. split; [lia|intros; lia].
  - destruct (search_and_handle_profiles [name] output_directory
                (print (ProcessingProfile name k) s)) as [s'|s'|s'].
    + destruct (IH _ _ _ _ H) as (Hle & Hret). simpl.
      split; [lia|]. intros s2 Hs2. rewrite (Hret _ Hs2). lia.
    + injection H as <- <-. simpl. split; [lia|discriminate].
    + injection H as <- <-. simpl. split; [lia|discriminate].
Qed.

Lemma session_files_kept (sess : Session) (names : list string)
    (output_directory : string) (start : nat) (s : State) :
  files_kept s (state_of (fst (session sess names output_directory start s))).
Proof.
  unfold session. destruct (launch_ok sess); [|now apply files_kept_same].
  set (s0 := print BrowserLaunched (set_page (search_page sess) s)).
  destruct (linkedin_login_files (login_page sess) s0) as (Hf & _).
  destruct (linkedin_login (login_page sess) s0) as [s1|s1|s1]; simpl in Hf;
    [|now apply files_kept_same..].
  pose proof (candidate_loop_files_kept output_directory (skipn start names)
                start start s1) as H.
  destruct (candidate_loop output_directory start (skipn start names) start s1)
    as [[s2|s2|s2] i]; simpl in H.
  - assert (Hk : files_kept s s2)
      by (eapply files_kept_trans; [|exact H]; now apply files_kept_same).
    destruct (close_ok sess); simpl; [|exact Hk].
    eapply files_kept_trans; [exact Hk|now apply files_kept_same].
  - simpl. eapply files_kept_trans; [|exact H]. now apply files_kept_same.
  - simpl. eapply files_kept_trans; [|exact H]. now apply files_kept_same.
Qed.

Lemma session_index (sess : Session) (names : list string) (output_directory : string)
    (start : nat) (s : State) (r : Result State) (i : nat) :
  start <= length names ->
  session sess names output_directory start s = (r, i) ->
  i <= length names /\
  (forall s', r = Returned s' ->
     i = length names /\ exists out, output s' = out ++ [BrowserClosed]).
Proof.
  intros Hstart H. unfold session in H.
  destruct (launch_ok sess); [|injection H as <- <-; split; [lia|discriminate]].
  destruct (linkedin_login (login_page sess) _) as [s1|s1|s1];
    [|injection H as <- <-; split; [lia|discriminate]..].
  destruct (candidate_loop output_directory start (skipn start names) start s1)
    as [r' i'] eqn:Hloop.
  destruct (candidate_loop_index _ _ _ _ Hloop) as (Hle & Hret).
  rewrite length_skipn in Hle, Hret.
  destruct r' as [s2|s2|s2]; [|injection H as <- <-; split; [lia|discriminate]..].
  specialize (Hret s2 eq_refl).
  destruct (close_ok sess); injection H as <- <-; (split; [lia|]);
    [|discriminate].
  intros s' Hs'. injection Hs' as <-. split; [lia|].
  now exists (output s2).
Qed.

Lemma retry_loop_files_kept (sessions : nat -> Session) (names : list string)
    (output_directory : string) (tries_left : nat) :
  forall retry_count start s,
    files_kept s
      (state_of (fst (retry_loop tries_left sessions names output_directory
                        retry_count start s))).
Proof.
  induction tries_left as [|n IH]; intros retry_count start s; cbn [retry_loop].
  - now apply files_kept_same.
  - pose proof (session_files_kept (sessions retry_count) names output_directory
                  start s) as H.
    destruct (session (sessions retry_count) names output_directory start s)
      as [[s1|s1|s1] i]; simpl in H; simpl; try assumption.
    eapply files_kept_trans; [|apply IH].
    eapply files_kept_trans; [exact H|now apply files_kept_same].
Qed.

Lemma retry_loop_ends (sessions : nat -> Session) (names : list string)
    (output_directory : string) (tries_left : nat) :
  forall retry_count start s r i,
    start <= length names ->
    retry_loop tries_left sessions names output_directory retry_count start s = (r, i) ->
    i <= length names /\
    (forall s', r <> Raised s') /\
    (forall s', r = Returned s' ->
       (i = length names /\ exists out, output s' = out ++ [BrowserClosed]) \/
       (exists out, output s' = out ++ [MaxRetriesExceeded] /\
          (tries_left = 0 \/
           exists out', out = out' ++ [Retrying (retry_count + tries_left)]))).
Proof.
  induction tries_left as [|n IH]; intros retry_count start s r i Hstart H;
    cbn [retry_loop] in H.
  - injection H as <- <-. split; [assumption|]. split; [discriminate|].
    intros s' Hs'. injection Hs' as <-. right. exists (output s). now split; [|left].
  - destruct (session (sessions retry_count) names output_directory start s)
      as [r1 i1] eqn:Hs.
    destruct (session_index _ _ _ _ Hstart Hs) as (Hi1 & Hret1).
    destruct r1 as [s1|s1|s1].
    + injection H as <- <-. split; [assumption|]. split; [discriminate|].
      intros s' Hs'. left. now apply Hret1.
    + destruct (IH _ _ _ _ _ Hi1 H) as (Hi & Hnr & Hret).
      split; [assumption|]. split; [assumption|].
      intros s' Hs'. destruct (Hret _ Hs') as [Hdone|(out & Hout & Hlast)];
        [now left|right].
      exists out. split; [assumption|]. right.
      destruct Hlast as [->|(out' & ->)].
      * cbn [retry_loop] in H. injection H as Hr _. subst r.
        injection Hs' as <-. simpl in Hout.
        apply app_inj_tail in Hout. destruct Hout as (<- & _).
        exists (output s1). now rewrite Nat.add_1_r.
      * exists out'. now rewrite Nat.add_succ_r.
    + injection H as <- <-. split; [assumption|]. split; [discriminate|discriminate].
Qed.

(** X13.  A run never takes lines out of a file: whatever the sessions
    meet and however the run ends, every file that existed before the run
    still exists after it and starts with the lines it had. *)
Theorem run_keeps_existing_lines
    (sessions : nat -> Session) (names : list string) (output_directory : string)
    (s : State) :
  files_kept s
    (state_of (fst (open_linkedin_login_and_search sessions names output_directory s))).
Proof. apply retry_loop_files_kept. Qed.

(** X14.  No exception leaves [open_linkedin_login_and_search].  When it
    returns, either the last thing printed is "Browser closed
    successfully." and [last_processed_index] is the number of names, every
    index having been completed, or the last two things printed are the
    third "Retrying..." and "Max retries exceeded."; in both cases
    [last_processed_index] does not exceed the number of names. *)
Theorem run_ends_completed_or_out_of_retries
    (sessions : nat -> Session) (names : list string) (output_directory : string)
    (s : State) :
  let run := open_linkedin_login_and_search sessions names output_directory s in
  snd run <= length names /\
  (exists s', fst run = Returned s' \/ fst run = Hang s') /\
  (forall s', fst run = Returned s' ->
     (snd run = length names /\ exists out, output s' = out ++ [BrowserClosed]) \/
     (exists out, output s' = out ++ [Retrying max_retries; MaxRetriesExceeded])).
Proof.
  intro run. subst run. unfold open_linkedin_login_and_search.
  destruct (retry_loop max_retries sessions names output_directory 0 0 s)
    as [r i] eqn:Hrun.
  destruct (@retry_loop_ends sessions names output_directory max_retries 0 0 s r i
              (Nat.le_0_l _) Hrun) as (Hi & Hnr & Hret).
  simpl. split; [assumption|]. split.
  - destruct r as [s'|s'|s']; [exists s'; now left|now contradiction (Hnr s')|
                               exists s'; now right].
  - intros s' Hs'. destruct (Hret _ Hs') as [Hdone|(out & Hout & Hlast)];
      [now left|right].
    destruct Hlast as [Hz|(out' & ->)]; [discriminate|].
    exists out'. rewrite Hout, <- app_assoc. reflexivity.
Qed.

End RunsFurther.

(** ** Concrete runs of the further properties, on the reference instance *)

Lemma failed_match_leaves_no_record_witness :
  (scan_containers "Jane Doe" [Present "Jane Doe"] [] = ([doe_match], true) /\
   (true = false \/ follow_fails LinkThrows = true) /\
   gives_up "Jane Doe" SearchThrows = true) /\
  handle_name "Jane Doe" [unfollowed_results; SearchThrows] no_extracted
  = Some (no_extracted, []).
Proof.
  assert (Hscan : scan_containers "Jane Doe" [Present "Jane Doe"] []
                  = ([doe_match], true)) by reflexivity.
  assert (Hfail : true = false \/ follow_fails LinkThrows = true) by (right; reflexivity).
  assert (Hsecond : gives_up "Jane Doe" SearchThrows = true) by reflexivity.
  split; [now repeat split|].
  exact (@failed_match_leaves_no_record Reference.externals "Jane Doe"
           (Present "Jane Doe") [] LinkThrows SearchThrows [] doe_match [] true
           no_extracted Hscan Hfail Hsecond).
Defined.

Lemma handle_name_ends_within_two_searches_witness :
  (2 <= length [unfollowed_results; SearchThrows; doe_results] /\
   forallb linked (firstn 2 [unfollowed_results; SearchThrows; doe_results]) = true) /\
  exists ex' pg' used,
    handle_name "Jane Doe" [unfollowed_results; SearchThrows; doe_results] no_extracted
    = Some (ex', pg') /\
    [unfollowed_results; SearchThrows; doe_results] = used ++ pg' /\
    length used <= 2.
Proof.
  assert (Hlen : 2 <= length [unfollowed_results; SearchThrows; doe_results])
    by (simpl; lia).
  assert (Hlinked : forallb linked
                      (firstn 2 [unfollowed_results; SearchThrows; doe_results]) = true)
    by reflexivity.
  split; [now split|].
  exact (@handle_name_ends_within_two_searches Reference.externals "Jane Doe"
           [unfollowed_results; SearchThrows; doe_results] no_extracted Hlen Hlinked).
Defined.

Lemma two_saves_are_one_witness :
  (can_append fresh "out/ExtractedProfiles.csv" = true /\
   Forall (fun r => keys r = ["name"; "headline"; "location"; "duplicate_count"])
          ([profile_row doe_notice] ++ [profile_row doe_profile])) /\
  (files
     (state_of
        (save_data_incrementally "profiles" [profile_row doe_profile]
           "out/ExtractedProfiles.csv"
           (state_of
              (save_data_incrementally "profiles" [profile_row doe_notice]
                 "out/ExtractedProfiles.csv" fresh))))
     "out/ExtractedProfiles.csv"
   = files
       (state_of
          (save_data_incrementally "profiles"
             ([profile_row doe_notice] ++ [profile_row doe_profile])
             "out/ExtractedProfiles.csv" fresh))
       "out/ExtractedProfiles.csv" /\
   (forall p, p <> "out/ExtractedProfiles.csv" ->
      files
        (state_of
           (save_data_incrementally "profiles" [profile_row doe_profile]
              "out/ExtractedProfiles.csv"
              (state_of
                 (save_data_incrementally "profiles" [profile_row doe_notice]
                    "out/ExtractedProfiles.csv" fresh))))
        p = files fresh p /\
      files
        (state_of
           (save_data_incrementally "profiles"
              ([profile_row doe_notice] ++ [profile_row doe_profile])
              "out/ExtractedProfiles.csv" fresh))
        p = files fresh p)).
Proof.
  assert (Hcan : can_append fresh "out/ExtractedProfiles.csv" = true) by reflexivity.
  assert (Hkeys : Forall (fun r => keys r = ["name"; "headline"; "location";
                                             "duplicate_count"])
                         ([profile_row doe_notice] ++ [profile_row doe_profile]))
    by (repeat constructor).
  split; [now split|].
  exact (@two_saves_are_one "profiles" ["name"; "headline"; "location"; "duplicate_count"]
           [profile_row doe_notice] [profile_row doe_profile]
           "out/ExtractedProfiles.csv" fresh Hcan Hkeys).
Defined.

Lemma refused_row_leaves_rows_before_it_witness :
  (can_append fresh "out/Skills.csv" = true /\
   forallb (fits (keys (skill_row "Jane Doe" "Python")))
           [skill_row "Jane Doe" "Rocq"] = true /\
   fits (keys (skill_row "Jane Doe" "Python")) odd_row = false) /\
  save_data_incrementally "skills"
    (skill_row "Jane Doe" "Python" :: [skill_row "Jane Doe" "Rocq"] ++ odd_row :: [])
    "out/Skills.csv" fresh
  = Raised
      (write_file "out/Skills.csv"
         (content fresh "out/Skills.csv"
          ++ header_for fresh "out/Skills.csv" (skill_row "Jane Doe" "Python")
          ++ map (row_line (keys (skill_row "Jane Doe" "Python")))
               [skill_row "Jane Doe" "Python"; skill_row "Jane Doe" "Rocq"])
         fresh).
Proof.
  assert (Hcan : can_append fresh "out/Skills.csv" = true) by reflexivity.
  assert (Hgood : forallb (fits (keys (skill_row "Jane Doe" "Python")))
                          [skill_row "Jane Doe" "Rocq"] = true) by reflexivity.
  assert (Hbad : fits (keys (skill_row "Jane Doe" "Python")) odd_row = false)
    by reflexivity.
  split; [now repeat split|].
  exact (@refused_row_leaves_rows_before_it "skills" (skill_row "Jane Doe" "Python")
           odd_row [skill_row "Jane Doe" "Rocq"] [] "out/Skills.csv" fresh
           Hcan Hgood Hbad).
Defined.

Lemma save_profile_data_to_csv_refuses_pipeline_records_witness :
  opens_every_file (path_join "out" "ExtractedProfiles.csv") = None /\
  save_profile_data_to_csv true opens_every_file
    (map profile_row [doe_profile; doe_notice]) "out" fresh
  = Raised
      (write_file (path_join "out" "ExtractedProfiles.csv")
         [HeaderLine profile_fieldnames] fresh).
Proof.
  assert (Hopen : opens_every_file (path_join "out" "ExtractedProfiles.csv") = None)
    by reflexivity.
  split; [exact Hopen|].
  exact (@save_profile_data_to_csv_refuses_pipeline_records Reference.externals
           opens_every_file doe_profile [doe_notice] "out" fresh Hopen).
Defined.

(** ** A save that raises after the profiles were written *)

Section FailedSave.

Context {ext : Externals}.

Lemma handle_name_one_profile (name : string) (pg : Page) (ex' : Extracted) (pg' : Page) :
  handle_name name pg no_extracted = Some (ex', pg') ->
  extracted_profiles ex' <> [] ->
  exists p, extracted_profiles ex' = [p].
Proof.
  intros H Hne. destruct (handle_name_cases _ _ _ H) as (used & _ & Hcase).
  destruct Hcase as [->|[->|(before & cs & p & h & l & m & _ & _ & _ & ->)]];
    [now contradiction Hne|eexists; reflexivity..].
Qed.

(** X15.  The four saves are not one step.  When a candidate yields a
    profile and education rows, the file of the profiles can be appended to
    and the file of the education rows cannot, [search_and_handle_profiles]
    raises after the profile row is written: the controller prints the
    error and leaves the loop with [last_processed_index] still at this
    candidate, whose profile row is in the file already, so the next
    session takes the candidate up again. *)
Theorem failed_save_leaves_profile_row
    (output_directory candidate : string) (rest : list string) (k : nat) (s : State)
    (ex : Extracted) (pg : Page) :
  handle_name candidate (page s) no_extracted = Some (ex, pg) ->
  extracted_profiles ex <> [] ->
  extracted_education ex <> [] ->
  can_append s (profiles_path output_directory) = true ->
  can_append s (path_join output_directory "Education.csv") = false ->
  exists s' p,
    candidate_loop output_directory k (candidate :: rest) k s = (Raised s', k) /\
    extracted_profiles ex = [p] /\
    content s' (profiles_path output_directory)
    = content s (profiles_path output_directory)
      ++ header_for s (profiles_path output_directory) (profile_row p)
      ++ [RowLine [VStr (name p); VStr (headline p); VStr (location p);
                   VInt (duplicate_count p)]] /\
    output s' = output s ++ [ProcessingProfile candidate k;
                             SavedIncrementally "profiles"
                               (profiles_path output_directory);
                             ErrorProcessing candidate].
Proof.
  intros Hname Hp He Hcan Hno.
  destruct (handle_name_one_profile _ _ Hname Hp) as (p & Hone).
  exists (print (ErrorProcessing candidate)
            (print (SavedIncrementally "profiles" (profiles_path output_directory))
               (write_file (profiles_path output_directory)
                  (content s (profiles_path output_directory)
                   ++ header_for s (profiles_path output_directory) (profile_row p)
                   ++ map (row_line (keys (profile_row p))) [profile_row p])
                  (set_page pg (print (ProcessingProfile candidate k) s))))), p.
  split; [|split; [assumption|split]].
  - cbn [candidate_loop]. unfold search_and_handle_profiles.
    cbn [handle_names].
    change (page (print (ProcessingProfile candidate k) s)) with (page s).
    rewrite Hname, Hone. cbn [map]. unfold profiles_path in *.
    rewrite save_data_incrementally_fitting by (assumption || reflexivity).
    cbn [and_then]. destruct (extracted_education ex) as [|first rows];
      [now contradiction He|].
    set (s1 := print (SavedIncrementally "profiles" _) _).
    assert (Hraise : save_data_incrementally "education" (first :: rows)
                       (path_join output_directory "Education.csv") s1 = Raised s1).
    { unfold save_data_incrementally.
      change (can_append s1 (path_join output_directory "Education.csv"))
        with (can_append s (path_join output_directory "Education.csv")).
      now rewrite Hno. }
    rewrite Hraise. reflexivity.
  - unfold content at 1. cbn [files print write_file]. rewrite String.eqb_refl.
    reflexivity.
  - cbn [output print write_file set_page]. rewrite <- !app_assoc. reflexivity.
Qed.

End FailedSave.

Lemma failed_save_leaves_profile_row_witness :
  (handle_name "Jane Doe" (page failing_education) no_extracted
   = Some (add_profile "Jane Doe" "Engineer" "Manila" 0
             (extract_profile_data schooled_page) no_extracted, []) /\
   can_append failing_education (profiles_path "out") = true /\
   can_append failing_education (path_join "out" "Education.csv") = false) /\
  exists s' p,
    candidate_loop "out" 0 ["Jane Doe"] 0 failing_education = (Raised s', 0) /\
    extracted_profiles
      (add_profile "Jane Doe" "Engineer" "Manila" 0
         (extract_profile_data schooled_page) no_extracted) = [p] /\
    content s' (profiles_path "out")
    = content failing_education (profiles_path "out")
      ++ header_for failing_education (profiles_path "out") (profile_row p)
      ++ [RowLine [VStr (name p); VStr (headline p); VStr (location p);
                   VInt (duplicate_count p)]] /\
    output s' = output failing_education
                ++ [ProcessingProfile "Jane Doe" 0;
                    SavedIncrementally "profiles" (profiles_path "out");
                    ErrorProcessing "Jane Doe"].
Proof.
  assert (H : handle_name "Jane Doe" (page failing_education) no_extracted
              = Some (add_profile "Jane Doe" "Engineer" "Manila" 0
                        (extract_profile_data schooled_page) no_extracted, []))
    by reflexivity.
  split; [now repeat split|].
  refine (@failed_save_leaves_profile_row Reference.externals "out" "Jane Doe" [] 0
            failing_education _ [] H _ _ _ _).
  - discriminate.
  - discriminate.
  - reflexivity.
  - reflexivity.
Defined.

(** * The name a resolved candidate is recorded under *)

Section DisplayName.

Context {ext : Externals}.

Lemma basics_readable_data (p : ProfilePage) :
  basics_readable p = true ->
  pd_name (extract_profile_data p) = Some (display_name p) /\
  pd_headline (extract_profile_data p) = Some (text_of (headline_element p)) /\
  pd_location (extract_profile_data p) = Some (text_of (location_element p)).
Proof.
  unfold basics_readable, extract_profile_data, display_name.
  destruct (name_element p), (headline_element p), (location_element p);
    simpl; intro H; try discriminate; now repeat split.
Qed.

Lemma data_basics_readable (p : ProfilePage) (n h l : string) :
  pd_name (extract_profile_data p) = Some n ->
  pd_headline (extract_profile_data p) = Some h ->
  pd_location (extract_profile_data p) = Some l ->
  basics_readable p = true /\ n = display_name p /\
  h = text_of (headline_element p) /\ l = text_of (location_element p).
Proof.
  unfold basics_readable, extract_profile_data, display_name.
  destruct (name_element p), (headline_element p), (location_element p);
    simpl; intros Hn Hh Hl; try discriminate;
    injection Hn as <-; injection Hh as <-; injection Hl as <-; now repeat split.
Qed.

Lemma add_profile_written_out (p : ProfilePage) (dc : nat) (ex : Extracted) :
  add_profile (display_name p) (text_of (headline_element p))
    (text_of (location_element p)) dc (extract_profile_data p) ex
  = resolved_records p dc ex.
Proof. reflexivity. Qed.

(** An attempt that finds a match whose page opens and can be read ends
    the loop there, with the records of the page. *)
Lemma search_loop_resolves (name : string) (c : Elem) (cs : list Elem) (p : ProfilePage)
    (pg : Page) (attempt : nat) (matched : list Matched) (ex : Extracted)
    (m : Matched) (ms : list Matched) :
  (attempt <? 2)%nat = true ->
  scan_containers name (c :: cs) matched = (m :: ms, true) ->
  basics_readable p = true ->
  search_loop name (Results (c :: cs) (Opens p) :: pg) attempt matched ex
  = Some {| exit_attempt := attempt; exit_matched := m :: ms;
            exit_extracted :=
              resolved_records p
                (count_duplicates (extracted_profiles ex) (m :: ms)) ex;
            exit_page := pg |}.
Proof.
  intros Ha Hscan Hp. cbn [search_loop]. rewrite Ha, Hscan.
  destruct (basics_readable_data p Hp) as (-> & -> & ->).
  now rewrite add_profile_written_out.
Qed.

(** However the loop of a name is left, the lists are as they were, or
    the last answer used opened a readable page and the lists gained the
    records of that page. *)
Lemma search_loop_records (name : string) (pg : Page) :
  forall attempt matched ex e,
    search_loop name pg attempt matched ex = Some e ->
    exit_extracted e = ex \/
    exists before containers p,
      pg = before ++ Results containers (Opens p) :: exit_page e /\
      basics_readable p = true /\ exit_matched e <> [] /\
      (exit_attempt e < 2)%nat /\
      exit_extracted e
      = resolved_records p
          (count_duplicates (extracted_profiles ex) (exit_matched e)) ex.
Proof.
  assert (Hstep : forall a pg ex e,
             (exit_extracted e = ex \/
              exists before containers p,
                pg = before ++ Results containers (Opens p) :: exit_page e /\
                basics_readable p = true /\ exit_matched e <> [] /\
                (exit_attempt e < 2)%nat /\
                exit_extracted e
                = resolved_records p
                    (count_duplicates (extracted_profiles ex) (exit_matched e)) ex) ->
             exit_extracted e = ex \/
             exists before containers p,
               a :: pg = before ++ Results containers (Opens p) :: exit_page e /\
               basics_readable p = true /\ exit_matched e <> [] /\
               (exit_attempt e < 2)%nat /\
               exit_extracted e
               = resolved_records p
                   (count_duplicates (extracted_profiles ex) (exit_matched e)) ex).
  { intros a pg0 ex e [H|(before & cs & p & Hpg & H)]; [now left|right].
    exists (a :: before), cs, p. split; [now rewrite Hpg|exact H]. }
  induction pg as [|a pg IH]; intros attempt matched ex e H.
  - cbn [search_loop] in H. destruct (attempt <? 2)%nat; [discriminate|].
    injection H as <-. now left.
  - cbn [search_loop] in H. destruct (attempt <? 2)%nat eqn:Ha.
    2:{ injection H as <-. now left. }
    destruct a as [|containers link].
    { apply Hstep. eapply IH; eassumption. }
    destruct containers as [|c containers].
    { injection H as <-. now left. }
    destruct (scan_containers name (c :: containers) matched) as [matched' ok].
    destruct matched' as [|m matched'], ok;
      try (apply Hstep; eapply IH; eassumption).
    destruct link as [| |profile].
    1,2: apply Hstep; eapply IH; eassumption.
    destruct (pd_name (extract_profile_data profile)) as [n|] eqn:Hn.
    2:{ apply Hstep. eapply IH; eassumption. }
    destruct (pd_headline (extract_profile_data profile)) as [h|] eqn:Hh.
    2:{ apply Hstep. eapply IH; eassumption. }
    destruct (pd_location (extract_profile_data profile)) as [l|] eqn:Hl.
    2:{ apply Hstep. eapply IH; eassumption. }
    injection H as <-. right.
    destruct (data_basics_readable _ Hn Hh Hl) as (Hp & -> & -> & ->).
    exists [], (c :: containers), profile. cbn [exit_page exit_matched exit_attempt
                                                exit_extracted app].
    split; [reflexivity|]. split; [assumption|]. split; [discriminate|].
    split; [now apply Nat.ltb_lt|]. apply add_profile_written_out.
Qed.

Lemma save_keeps_other_file (data_type : string) (data : list Dict)
    (file_path p : string) (s : State) :
  p <> file_path ->
  files (state_of (save_data_incrementally data_type data file_path s)) p = files s p.
Proof.
  intro Hp.
  destruct (save_data_incrementally_appended data_type data file_path s) as (H & _).
  now apply H.
Qed.

Lemma and_then_keeps_file (p : string) (r : Result State) (k : State -> Result State) :
  (forall s, files (state_of (k s)) p = files s p) ->
  files (state_of (r >>= k)) p = files (state_of r) p.
Proof. intro H. destruct r; simpl; [apply H|reflexivity|reflexivity]. Qed.

(** C10.  A candidate is resolved when an attempt finds a match whose
    profile page opens and whose three basic elements can be read.  The
    attempt then ends the loop of the name with exactly one new profile
    entry and the education, experience and skill rows of the page, and the
    name of every one of them is the name the page displays, "N/A" when the
    page has no name heading, whatever the query name is (first and second
    part, for any attempt and for [handle_name]).  The name goes to the
    file as it is: the line written for the profile starts with the display
    name (third part).  No other record is made: whatever the page answers,
    the lists of a name are left unchanged, or with the "N/A" notice under
    the query name, or with the records of a readable page that the last
    answer opened (fourth part); the new entry and every new row then carry
    the display name (fifth part). *)
Theorem resolved_candidate_is_recorded_under_display_name :
  (forall name c cs p pg attempt matched ex m ms,
      (attempt <? 2)%nat = true ->
      scan_containers name (c :: cs) matched = (m :: ms, true) ->
      basics_readable p = true ->
      search_loop name (Results (c :: cs) (Opens p) :: pg) attempt matched ex
      = Some {| exit_attempt := attempt; exit_matched := m :: ms;
                exit_extracted :=
                  resolved_records p
                    (count_duplicates (extracted_profiles ex) (m :: ms)) ex;
                exit_page := pg |}) /\
  (forall name c cs p pg ex m ms,
      scan_containers name (c :: cs) [] = (m :: ms, true) ->
      basics_readable p = true ->
      handle_name name (Results (c :: cs) (Opens p) :: pg) ex
      = Some (resolved_records p
                (count_duplicates (extracted_profiles ex) (m :: ms)) ex, pg)) /\
  (forall name c cs p pg output_directory s m ms,
      page s = Results (c :: cs) (Opens p) :: pg ->
      scan_containers name (c :: cs) [] = (m :: ms, true) ->
      basics_readable p = true ->
      can_append s (profiles_path output_directory) = true ->
      destinations_distinct output_directory ->
      content (state_of (search_and_handle_profiles [name] output_directory s))
        (profiles_path output_directory)
      = content s (profiles_path output_directory)
        ++ (if isfile s (profiles_path output_directory) then []
            else [HeaderLine ["name"; "headline"; "location"; "duplicate_count"]])
        ++ [resolved_line p 0]) /\
  (forall name pg ex ex' pg',
      handle_name name pg ex = Some (ex', pg') ->
      ex' = ex \/
      ex' = add_notice name ex \/
      exists before containers p dc,
        pg = before ++ Results containers (Opens p) :: pg' /\
        basics_readable p = true /\
        ex' = resolved_records p dc ex) /\
  (forall p dc ex,
      (exists new, extracted_profiles (resolved_records p dc ex)
                   = extracted_profiles ex ++ [new] /\
                   name new = display_name p) /\
      (exists added, sub_records_since ex (resolved_records p dc ex) added /\
                     forall row, In row added ->
                                 get row "name" = Some (VStr (display_name p))) /\
      (name_element p = Absent -> display_name p = "N/A") /\
      (forall text, name_element p = Present text -> display_name p = text)).
Proof.
  split; [|split; [|split; [|split]]].
  - intros. now apply search_loop_resolves.
  - intros name c cs p pg ex m ms Hscan Hp. unfold handle_name.
    now rewrite (@search_loop_resolves name c cs p pg 0 [] ex m ms eq_refl Hscan Hp).
  - intros name c cs p pg output_directory s m ms Hpage Hscan Hp Hcan (D1 & D2 & D3).
    unfold search_and_handle_profiles. rewrite Hpage. cbn [handle_names].
    unfold handle_name.
    rewrite (@search_loop_resolves name c cs p pg 0 [] no_extracted m ms eq_refl Hscan Hp).
    cbn [exit_attempt exit_matched exit_extracted exit_page handle_names
         extracted_profiles resolved_records no_extracted app map
         extracted_education extracted_experiences extracted_skills].
    fold (profiles_path output_directory).
    unfold content.
    rewrite !and_then_keeps_file
      by (intro s0; apply save_keeps_other_file; auto).
    rewrite save_data_incrementally_fitting by (auto || reflexivity).
    cbn [state_of]. unfold print. cbn [files]. rewrite files_write_same.
    unfold header_for, isfile, content, set_page. cbn [files].
    destruct (files s (profiles_path output_directory)); reflexivity.
  - intros name pg ex ex' pg' H. unfold handle_name in H.
    destruct (search_loop name pg 0 [] ex) as [e|] eqn:Hloop; [|discriminate].
    injection H as Hex Hpg. subst pg'.
    destruct (search_loop_records _ _ _ _ _ Hloop)
      as [Hsame|(before & cs & p & Hused & Hp & Hm & Ha & Hrec)].
    + rewrite Hsame in Hex.
      destruct (exit_attempt e) as [|[|[|?]]]; auto.
      destruct (exit_matched e); auto.
    + right; right. exists before, cs, p. eexists.
      split; [exact Hused|]. split; [exact Hp|].
      rewrite <- Hex, <- Hrec.
      destruct (exit_attempt e) as [|[|[|?]]]; try reflexivity.
      destruct (exit_matched e); [now contradiction Hm|reflexivity].
  - intros p dc ex. split; [|split; [|split]].
    + eexists. split; reflexivity.
    + eexists. split.
      * unfold sub_records_since. do 3 eexists. cbn [resolved_records
          extracted_education extracted_experiences extracted_skills].
        repeat (split; [reflexivity|]). reflexivity.
      * intros row Hrow. apply in_app_or in Hrow. destruct Hrow as [Hrow|Hrow];
          [|apply in_app_or in Hrow; destruct Hrow as [Hrow|Hrow]];
          apply in_map_iff in Hrow; destruct Hrow as (x & <- & _); reflexivity.
    + unfold display_name. now intros ->.
    + unfold display_name. now intros text ->.
Qed.

End DisplayName.

(** The query is "jane doe", the page opened is headed "Jane A. Doe":
    the records, and the line in the file of the profiles, carry the
    heading. *)
Lemma resolved_candidate_is_recorded_under_display_name_witness :
  handle_name "jane doe" [Results [Present "Jane Doe"] (Opens jane_page)] no_extracted
  = Some ({| extracted_profiles :=
               [{| name := "Jane A. Doe"; headline := "Engineer"; location := "N/A";
                   duplicate_count := 0 |}];
             extracted_education :=
               [[("name", VStr "Jane A. Doe");
                 ("school", VStr "Isabela State University");
                 ("duration", VStr "2016 - 2020")]];
             extracted_experiences := [];
             extracted_skills := [[("name", VStr "Jane A. Doe"); ("skill", VStr "Python")]] |},
          []) /\
  content
    (state_of
       (search_and_handle_profiles ["jane doe"] "out"
          (set_page [Results [Present "Jane Doe"] (Opens jane_page)] fresh)))
    "out/ExtractedProfiles.csv"
  = [HeaderLine ["name"; "headline"; "location"; "duplicate_count"];
     RowLine [VStr "Jane A. Doe"; VStr "Engineer"; VStr "N/A"; VInt 0]].
Proof.
  assert (Hd : destinations_distinct "out")
    by (unfold destinations_distinct; repeat apply conj; discriminate).
  split.
  - exact (proj1 (proj2 (@resolved_candidate_is_recorded_under_display_name
                           Reference.externals))
             "jane doe" (Present "Jane Doe") [] jane_page [] no_extracted
             {| container := Present "Jane Doe"; matched_name := "Jane Doe" |} []
             eq_refl eq_refl).
  - exact (proj1 (proj2 (proj2 (@resolved_candidate_is_recorded_under_display_name
                                  Reference.externals)))
             "jane doe" (Present "Jane Doe") [] jane_page [] "out"
             (set_page [Results [Present "Jane Doe"] (Opens jane_page)] fresh)
             {| container := Present "Jane Doe"; matched_name := "Jane Doe" |} []
             eq_refl eq_refl eq_refl eq_refl Hd).
Defined.

(** * The persistor: what a call writes, and when it returns *)

Lemma headers_row_lines (fieldnames : list string) (data : list Dict) :
  headers (map (row_line fieldnames) data) = 0.
Proof. induction data as [|r data IH]; [reflexivity|exact IH]. Qed.

Lemma rows_row_lines (fieldnames : list string) (data : list Dict) :
  rows (map (row_line fieldnames) data) = length data.
Proof.
  induction data as [|r data IH]; [reflexivity|].
  unfold rows in *. simpl. now rewrite IH.
Qed.

Lemma isfile_write (file_path : string) (lines : list Line) (s : State) :
  isfile (write_file file_path lines s) file_path = true.
Proof. unfold isfile. now rewrite files_write_same. Qed.

(** C6.  A call of the persistor without records returns and changes
    nothing but the output (first part).  A call with records raises before
    it writes when the destination cannot be opened (second part).  When it
    can, the file is left with its old lines first, then the header, the
    keys of the first record, exactly when the file did not exist before the
    call, then the line of each record in order up to the first record with
    a key the first record lacks; the call returns when there is no such
    record and raises at it otherwise (third part).  So a call that returns
    has appended one line for each record (fourth part), and once a call
    has opened the destination no later call writes a header into it: the
    header count stays what the file had, plus one when the file was new
    (fifth part).  No call changes another file or removes a line (sixth
    part). *)
Theorem persistor_appends_and_heads_new_files
    (data_type : string) (first : Dict) (rest : list Dict) (file_path : string)
    (s : State) :
  let data := first :: rest in
  let written :=
    content s file_path
    ++ (if isfile s file_path then [] else [HeaderLine (keys first)])
    ++ map (row_line (keys first)) (prefix_while (fits (keys first)) data) in
  let r := save_data_incrementally data_type data file_path s in
  save_data_incrementally data_type [] file_path s
  = Returned (print (NoDataToSave data_type) s) /\
  (can_append s file_path = false -> r = Raised s) /\
  (can_append s file_path = true ->
   r = if forallb (fits (keys first)) data
       then Returned (print (SavedIncrementally data_type file_path)
                        (write_file file_path written s))
       else Raised (write_file file_path written s)) /\
  (forall s',
      r = Returned s' ->
      content s' file_path
      = content s file_path
        ++ (if isfile s file_path then [] else [HeaderLine (keys first)])
        ++ map (row_line (keys first)) data /\
      rows (content s' file_path) = rows (content s file_path) + length data) /\
  (can_append s file_path = true ->
   forall batches,
     headers (content (append_all data_type file_path batches (state_of r)) file_path)
     = headers (content s file_path) + (if isfile s file_path then 0 else 1)) /\
  appended data file_path s r.
Proof.
  intros data written r.
  assert (Hopen : can_append s file_path = true ->
                  r = if forallb (fits (keys first)) data
                      then Returned (print (SavedIncrementally data_type file_path)
                                       (write_file file_path written s))
                      else Raised (write_file file_path written s)).
  { intro Hcan. subst r. unfold save_data_incrementally, data. rewrite Hcan.
    fold data. rewrite writerows_prefix. reflexivity. }
  assert (Hclosed : can_append s file_path = false -> r = Raised s).
  { intro Hcan. subst r. unfold save_data_incrementally, data. now rewrite Hcan. }
  assert (Hhead : headers written
                  = headers (content s file_path) + (if isfile s file_path then 0 else 1)).
  { unfold written. rewrite !headers_app, headers_row_lines.
    destruct (isfile s file_path); reflexivity. }
  split; [reflexivity|]. split; [exact Hclosed|]. split; [exact Hopen|].
  split; [|split].
  - intros s' Hr. destruct (can_append s file_path) eqn:Hcan.
    2:{ rewrite (Hclosed eq_refl) in Hr. discriminate. }
    rewrite (Hopen eq_refl) in Hr.
    destruct (forallb (fits (keys first)) data) eqn:Hfit; [|discriminate].
    injection Hr as <-. unfold content at 1 3. cbn [print files].
    rewrite files_write_same. unfold written. rewrite (prefix_while_all _ _ Hfit).
    split; [reflexivity|].
    rewrite !rows_app, rows_row_lines.
    destruct (isfile s file_path); unfold rows; simpl; lia.
  - intros Hcan batches.
    assert (Hex : isfile (state_of r) file_path = true).
    { rewrite (Hopen Hcan).
      destruct (forallb (fits (keys first)) data); cbn [state_of];
        [unfold print, isfile; cbn [files]; now rewrite files_write_same
        |apply isfile_write]. }
    rewrite (append_all_existing _ _ _ _ Hex), <- Hhead. f_equal.
    rewrite (Hopen Hcan).
    destruct (forallb (fits (keys first)) data); cbn [state_of]; unfold content;
      [unfold print; cbn [files]|]; now rewrite files_write_same.
  - apply save_data_incrementally_appended.
Qed.

(** A new destination gets the header and the row. *)
Lemma persistor_appends_and_heads_new_files_witness :
  save_data_incrementally "skills" [skill_row "Jane Doe" "Python"] "out/Skills.csv" fresh
  = Returned
      (print (SavedIncrementally "skills" "out/Skills.csv")
         (write_file "out/Skills.csv"
            [HeaderLine ["name"; "skill"];
             RowLine [VStr "Jane Doe"; VStr "Python"]] fresh)).
Proof.
  exact (proj1 (proj2 (proj2
           (persistor_appends_and_heads_new_files "skills"
              (skill_row "Jane Doe" "Python") [] "out/Skills.csv" fresh))) eq_refl).
Defined.

(** A destination that exists without a header line gets none: the call
    appends the row to the empty file and returns, and the file is left
    without a header. *)
Lemma existing_file_without_header_gets_none :
  headers (content empty_skills_file "out/Skills.csv") = 0 /\
  save_data_incrementally "skills" [skill_row "Jane Doe" "Python"] "out/Skills.csv"
    empty_skills_file
  = Returned
      (print (SavedIncrementally "skills" "out/Skills.csv")
         (write_file "out/Skills.csv" [RowLine [VStr "Jane Doe"; VStr "Python"]]
            empty_skills_file)) /\
  headers
    (content
       (state_of
          (save_data_incrementally "skills" [skill_row "Jane Doe" "Python"]
             "out/Skills.csv" empty_skills_file))
       "out/Skills.csv") = 0.
Proof. repeat split. Qed.

(** * The resume index: updated after the saves, kept across sessions *)

Lemma no_such_event (f : Event -> bool) (l t1 t2 : list Event) (x : Event) :
  Forall (fun e => f e = false) l -> l = t1 ++ x :: t2 -> f x = false.
Proof. intros H ->. rewrite Forall_forall in H. apply H, in_elt. Qed.

Lemma persistor_plain (evs : list Event) :
  Forall (fun e => persistor_event e = true) evs ->
  Forall (fun e => is_update e = false) evs /\
  Forall (fun e => is_error e = false) evs.
Proof.
  induction 1 as [|e evs He _ (IH1 & IH2)]; [now split|].
  destruct e; try discriminate; (split; now constructor).
Qed.

Lemma and_then_returned (r : Result State) (k : State -> Result State) (s' : State) :
  r >>= k = Returned s' -> exists s1, r = Returned s1 /\ k s1 = Returned s'.
Proof. destruct r as [s1|s1|s1]; simpl; intro H; [now exists s1|discriminate..]. Qed.

Lemma save_data_incrementally_persisted (data_type : string) (data : list Dict)
    (file_path : string) (s s' : State) :
  save_data_incrementally data_type data file_path s = Returned s' ->
  persisted data_type data file_path s s'.
Proof.
  unfold save_data_incrementally, persisted. destruct data as [|first rest].
  - now intros [= <-].
  - destruct (can_append s file_path); [|discriminate].
    rewrite writerows_prefix.
    destruct (forallb (fits (keys first)) (first :: rest)) eqn:Hfit; [|discriminate].
    rewrite (prefix_while_all _ _ Hfit). intros [= <-]. now repeat split.
Qed.

Lemma persisted_save_data_incrementally (data_type : string) (data : list Dict)
    (file_path : string) (s s' : State) :
  persisted data_type data file_path s s' ->
  save_data_incrementally data_type data file_path s = Returned s'.
Proof.
  unfold save_data_incrementally, persisted. destruct data as [|first rest].
  - now intros ->.
  - intros (Hcan & Hfit & ->). rewrite Hcan, writerows_prefix, Hfit.
    now rewrite (prefix_while_all _ _ Hfit).
Qed.

Section ResumeChain.

Context {ext : Externals}.

Variable names : list string.
Variable output_directory : string.

Lemma search_and_handle_profiles_completes (name : string) (k : nat) (s s' : State) :
  search_and_handle_profiles [name] output_directory
    (print (ProcessingProfile name k) s) = Returned s' <->
  completes output_directory name k s (print (IndexUpdated k) s').
Proof.
  unfold search_and_handle_profiles, completes. cbn [handle_names].
  change (page (print (ProcessingProfile name k) s)) with (page s).
  split.
  - intro H.
    destruct (handle_name name (page s) no_extracted) as [[ex pg]|]; [|discriminate].
    apply and_then_returned in H. destruct H as (s3 & H & H4).
    apply and_then_returned in H. destruct H as (s2 & H & H3).
    apply and_then_returned in H. destruct H as (s1 & H1 & H2).
    exists ex, pg, s1, s2, s3, s'.
    repeat (split; [reflexivity || now apply save_data_incrementally_persisted|]).
    reflexivity.
  - intros (ex & pg & s1 & s2 & s3 & s4 & -> & H1 & H2 & H3 & H4 & Heq).
    assert (s' = s4).
    { destruct s', s4. unfold print in Heq. cbn in Heq.
      injection Heq as -> -> -> Ho. apply app_inj_tail in Ho. now destruct Ho as (-> & _). }
    subst s4.
    rewrite (@persisted_save_data_incrementally _ _ _ _ _ H1). cbn [and_then].
    rewrite (@persisted_save_data_incrementally _ _ _ _ _ H2). cbn [and_then].
    rewrite (@persisted_save_data_incrementally _ _ _ _ _ H3). cbn [and_then].
    now apply persisted_save_data_incrementally.
Qed.

Lemma updated_after_saves_plain (s final : State) (tr : list Event) :
  Forall (fun e => is_update e = false) tr ->
  updated_after_saves names output_directory s tr final.
Proof.
  intros H t1 t2 i Heq. now pose proof (@no_such_event _ _ _ _ _ H Heq).
Qed.

Lemma updated_after_saves_later (s final final' : State) (tr : list Event) :
  updated_after_saves names output_directory s tr final ->
  files_kept final final' ->
  updated_after_saves names output_directory s tr final'.
Proof.
  intros H Hk t1 t2 i Heq.
  destruct (H _ _ _ Heq) as (name & before & after & Hn & Hc & Ho & Hf).
  exists name, before, after. repeat (split; [assumption|]).
  eapply files_kept_trans; eassumption.
Qed.

Lemma updated_after_saves_app (s s1 final : State) (a b : list Event) :
  output s1 = output s ++ a ->
  updated_after_saves names output_directory s a s1 ->
  files_kept s1 final ->
  updated_after_saves names output_directory s1 b final ->
  updated_after_saves names output_directory s (a ++ b) final.
Proof.
  intros Ho Ha Hk Hb t1 t2 i Heq.
  destruct (@app_split_elt _ _ _ _ _ _ Heq) as [(a2 & Ha' & _)|(b1 & Ht & Hb')].
  - destruct (Ha _ _ _ Ha') as (name & before & after & Hn & Hc & Hout & Hf).
    exists name, before, after. repeat (split; [assumption|]).
    eapply files_kept_trans; eassumption.
  - destruct (Hb _ _ _ Hb') as (name & before & after & Hn & Hc & Hout & Hf).
    exists name, before, after. repeat (split; [assumption|]).
    split; [|assumption]. rewrite Hout, Ho, Ht, <- !app_assoc. reflexivity.
Qed.

Lemma error_of_candidate_later (name : string) (a t1 : list Event) :
  error_of_candidate name t1 -> error_of_candidate name (a ++ t1).
Proof.
  intros (t0 & j & evs & -> & H). exists (a ++ t0), j, evs.
  split; [now rewrite app_assoc|assumption].
Qed.

Lemma error_ends_plain (r : Result State) (tr : list Event) :
  Forall (fun e => is_error e = false) tr -> error_ends r tr.
Proof.
  intros H t1 t2 name Heq. now pose proof (@no_such_event _ _ _ _ _ H Heq).
Qed.

Lemma error_ends_after (r : Result State) (a b : list Event) :
  Forall (fun e => is_error e = false) a -> error_ends r b -> error_ends r (a ++ b).
Proof.
  intros Ha Hb t1 t2 name Heq.
  destruct (@app_split_elt _ _ _ _ _ _ Heq) as [(a2 & Ha' & _)|(b1 & -> & Hb')].
  - now pose proof (@no_such_event _ _ _ _ _ Ha Ha').
  - destruct (Hb _ _ _ Hb') as (H2 & Hr & Hc).
    split; [assumption|]. split; [assumption|]. now apply error_of_candidate_later.
Qed.

Lemma no_error_when_not_raised (r : Result State) (tr : list Event) :
  error_ends r tr -> (forall s', r <> Raised s') ->
  Forall (fun e => is_error e = false) tr.
Proof.
  intros H Hr. apply Forall_forall. intros e Hin.
  destruct e; try reflexivity.
  apply in_split in Hin. destruct Hin as (t1 & t2 & Heq).
  destruct (H _ _ _ Heq) as (_ & (s' & Hs') & _). now contradiction (Hr s').
Qed.

Lemma candidate_loop_story (remaining : list string) :
  forall (k : nat) (s : State) (r : Result State) (i : nat),
    (forall j, nth_error remaining j = nth_error names (k + j)) ->
    candidate_loop output_directory k remaining k s = (r, i) ->
    exists tr : list Event,
      output (state_of r) = output s ++ tr /\
      updated_after_saves names output_directory s tr (state_of r) /\
      error_ends r tr /\
      Forall (fun e => e <> BrowserLaunched) tr.
Proof.
  induction remaining as [|name rest IH]; intros k s r i Hnth H.
  - injection H as <- <-. exists []. simpl. rewrite app_nil_r.
    split; [reflexivity|]. split; [now apply updated_after_saves_plain|].
    split; [now apply error_ends_plain|constructor].
  - assert (Hname : nth_error names k = Some name)
      by (rewrite <- (Nat.add_0_r k), <- Hnth; reflexivity).
    cbn [candidate_loop] in H.
    destruct (search_and_handle_profiles_emitted [name] output_directory
                (print (ProcessingProfile name k) s)) as (evs & Ho & Hp & _).
    destruct (persistor_plain Hp) as (Hnu & Hne).
    assert (Hnl : Forall (fun e => e <> BrowserLaunched) evs).
    { eapply Forall_impl; [|exact Hp]. intros e He ->. discriminate. }
    pose proof (@search_and_handle_profiles_completes name k s) as Hcompl.
    pose proof (candidate_loop_files_kept output_directory rest (S k) (S k)) as Hkept.
    destruct (search_and_handle_profiles [name] output_directory
                (print (ProcessingProfile name k) s)) as [s'|s'|s'];
      simpl in Ho.
    + assert (Hnth' : forall j, nth_error rest j = nth_error names (S k + j)).
      { intro j. replace (S k + j) with (k + S j) by lia.
        rewrite <- Hnth. reflexivity. }
      specialize (Hkept (print (IndexUpdated k) s')). rewrite H in Hkept.
      cbn [fst] in Hkept.
      destruct (IH _ _ _ _ Hnth' H) as (tr & Hout & Hupd & Herr & Hl).
      exists ((ProcessingProfile name k :: evs ++ [IndexUpdated k]) ++ tr).
      assert (Ho1 : output (print (IndexUpdated k) s')
                    = output s ++ ProcessingProfile name k :: evs ++ [IndexUpdated k]).
      { simpl. rewrite Ho, <- !app_assoc. reflexivity. }
      split; [rewrite Hout, Ho1, <- !app_assoc; reflexivity|].
      split; [|split].
      * apply (@updated_after_saves_app s (print (IndexUpdated k) s'));
          try assumption.
        intros t1 t2 j Heq.
        change (ProcessingProfile name k :: evs ++ [IndexUpdated k])
          with ((ProcessingProfile name k :: evs) ++ [IndexUpdated k]) in Heq.
        destruct (@app_split_elt _ _ _ _ _ _ Heq) as [(a2 & Ha & _)|(b1 & Ht & Hb)].
        { assert (Hplain : Forall (fun e => is_update e = false)
                             (ProcessingProfile name k :: evs)) by now constructor.
          now pose proof (@no_such_event _ _ _ _ _ Hplain Ha). }
        destruct b1 as [|? [|]]; try discriminate. injection Hb as <- <-.
        rewrite app_nil_r in Ht. subst t1.
        exists name, s, (print (IndexUpdated k) s').
        split; [assumption|]. split; [now apply Hcompl|].
        split; [|now apply files_kept_same].
        rewrite Ho1. reflexivity.
      * apply error_ends_after; [|assumption].
        constructor; [reflexivity|]. apply Forall_app. split; [assumption|].
        now repeat constructor.
      * apply Forall_app. split; [|assumption].
        constructor; [discriminate|]. apply Forall_app. split; [assumption|].
        constructor; [discriminate|constructor].
    + injection H as <- <-.
      exists ((ProcessingProfile name k :: evs) ++ [ErrorProcessing name]).
      split; [simpl; rewrite Ho, <- !app_assoc; reflexivity|].
      split; [|split].
      * apply updated_after_saves_plain. apply Forall_app. split; [now constructor|].
        now repeat constructor.
      * intros t1 t2 name' Heq.
        destruct (@app_split_elt _ _ _ _ _ _ Heq) as [(a2 & Ha & _)|(b1 & Ht & Hb)].
        { assert (Hplain : Forall (fun e => is_error e = false)
                             (ProcessingProfile name k :: evs)) by now constructor.
          now pose proof (@no_such_event _ _ _ _ _ Hplain Ha). }
        destruct b1 as [|? [|]]; try discriminate. injection Hb as <- <-.
        rewrite app_nil_r in Ht. subst t1.
        split; [reflexivity|]. split; [now eexists|].
        now exists [], k, evs.
      * apply Forall_app. split.
        -- constructor; [discriminate|assumption].
        -- constructor; [discriminate|constructor].
    + injection H as <- <-.
      exists (ProcessingProfile name k :: evs).
      split; [simpl; rewrite Ho, <- !app_assoc; reflexivity|].
      split; [|split].
      * apply updated_after_saves_plain. now constructor.
      * apply error_ends_plain. now constructor.
      * constructor; [discriminate|assumption].
Qed.

Lemma launched_first (tr : list Event) :
  launched_before_candidates (BrowserLaunched :: tr).
Proof.
  intros t1 t2 name j Heq. destruct t1 as [|e t1]; [discriminate|].
  injection Heq as <- _. now left.
Qed.

Lemma session_story (sess : Session) (start : nat) (s : State) (r : Result State)
    (i : nat) :
  session sess names output_directory start s = (r, i) ->
  exists tr : list Event,
    output (state_of r) = output s ++ tr /\
    updated_after_saves names output_directory s tr (state_of r) /\
    error_ends r tr /\
    launched_before_candidates tr.
Proof.
  unfold session. intro H.
  destruct (launch_ok sess).
  2:{ injection H as <- <-. exists []. simpl. rewrite app_nil_r.
      split; [reflexivity|]. split; [now apply updated_after_saves_plain|].
      split; [now apply error_ends_plain|].
      intros t1 t2 name j Heq. now destruct t1. }
  set (s0 := print BrowserLaunched (set_page (search_page sess) s)) in *.
  assert (Hlogin : exists evs,
             output (state_of (linkedin_login (login_page sess) s0))
             = output s ++ BrowserLaunched :: evs /\
             Forall (fun e => is_update e = false) (BrowserLaunched :: evs) /\
             Forall (fun e => is_error e = false) (BrowserLaunched :: evs)).
  { destruct (linkedin_login_output (login_page sess) s0) as [Ho|Ho]; rewrite Ho.
    - exists []. now repeat constructor.
    - exists [VerificationRequired]. simpl. rewrite <- app_assoc.
      now repeat constructor. }
  destruct Hlogin as (evs & Ho & Hnu & Hne).
  destruct (linkedin_login (login_page sess) s0) as [s1|s1|s1]; simpl in Ho.
  2,3: injection H as <- <-; exists (BrowserLaunched :: evs);
       (split; [assumption|]);
       (split; [now apply updated_after_saves_plain|]);
       (split; [now apply error_ends_plain|apply launched_first]).
  destruct (candidate_loop output_directory start (skipn start names) start s1)
    as [r' i'] eqn:Hloop.
  pose proof (candidate_loop_files_kept output_directory (skipn start names)
                start start s1) as Hkept.
  rewrite Hloop in Hkept. cbn [fst] in Hkept.
  destruct (@candidate_loop_story _ _ _ _ _ (nth_error_skipn start names) Hloop)
    as (tr & Hout & Hupd & Herr & _).
  assert (Hpre : updated_after_saves names output_directory s
                   ((BrowserLaunched :: evs) ++ tr) (state_of r')).
  { apply (@updated_after_saves_app s s1); try assumption.
    now apply updated_after_saves_plain. }
  destruct r' as [s2|s2|s2]; simpl in Hout.
  - assert (Hclean : Forall (fun e => is_error e = false) tr)
      by (apply (no_error_when_not_raised Herr); discriminate).
    destruct (close_ok sess); injection H as <- <-.
    + exists (((BrowserLaunched :: evs) ++ tr) ++ [BrowserClosed]).
      split; [simpl; rewrite Hout, Ho, <- !app_assoc; reflexivity|].
      split; [|split; [|rewrite <- !app_comm_cons; apply launched_first]].
      * apply (@updated_after_saves_app s s2).
        -- rewrite Hout, Ho, <- !app_assoc. reflexivity.
        -- exact Hpre.
        -- now apply files_kept_same.
        -- apply updated_after_saves_plain. now repeat constructor.
      * apply error_ends_plain. apply Forall_app. split; [|now repeat constructor].
        apply Forall_app. now split.
    + exists ((BrowserLaunched :: evs) ++ tr).
      split; [simpl; rewrite Hout, Ho, <- !app_assoc; reflexivity|].
      split; [exact Hpre|]. split; [|apply launched_first].
      apply error_ends_plain. apply Forall_app. now split.
  - injection H as <- <-. exists ((BrowserLaunched :: evs) ++ tr).
    split; [simpl; rewrite Hout, Ho, <- !app_assoc; reflexivity|].
    split; [exact Hpre|]. split; [|apply launched_first].
    now apply error_ends_after.
  - injection H as <- <-. exists ((BrowserLaunched :: evs) ++ tr).
    split; [simpl; rewrite Hout, Ho, <- !app_assoc; reflexivity|].
    split; [exact Hpre|]. split; [|apply launched_first].
    now apply error_ends_after.
Qed.

Lemma retry_loop_story (sessions : nat -> Session) (tries_left : nat) :
  forall (retry_count start : nat) (s : State) (r : Result State) (i : nat),
    retry_loop tries_left sessions names output_directory retry_count start s = (r, i) ->
    exists tr : list Event,
      output (state_of r) = output s ++ tr /\
      updated_after_saves names output_directory s tr (state_of r) /\
      error_aborts_session tr /\
      launched_before_candidates tr.
Proof.
  induction tries_left as [|n IH]; intros retry_count start s r i H; simpl in H.
  - injection H as <- <-. exists [MaxRetriesExceeded].
    split; [reflexivity|]. split; [apply updated_after_saves_plain; now repeat constructor|].
    split.
    + intros t1 t2 name Heq. destruct t1 as [|? [|]]; discriminate.
    + intros t1 t2 name j Heq. destruct t1 as [|? [|]]; discriminate.
  - destruct (session (sessions retry_count) names output_directory start s)
      as [r1 i1] eqn:Hs.
    destruct (session_story _ _ _ Hs) as (tr1 & Ho1 & Hu1 & He1 & Hl1).
    assert (Hquiet : (forall s', r1 <> Raised s') -> error_aborts_session tr1).
    { intros Hr t1 t2 name Heq.
      destruct (He1 _ _ _ Heq) as (_ & (s' & Hs') & _). now contradiction (Hr s'). }
    destruct r1 as [s1|s1|s1]; simpl in Ho1.
    + injection H as <- <-. exists tr1.
      split; [assumption|]. split; [assumption|]. split; [|assumption].
      apply Hquiet. discriminate.
    + pose proof (retry_loop_files_kept sessions names output_directory n
                    (S retry_count) i1 (print (Retrying (S retry_count)) s1)) as Hkept.
      rewrite H in Hkept. cbn [fst] in Hkept.
      destruct (IH _ _ _ _ _ H) as (tr2 & Ho2 & Hu2 & He2 & Hl2).
      exists ((tr1 ++ [Retrying (S retry_count)]) ++ tr2).
      assert (Hmid : output (print (Retrying (S retry_count)) s1)
                     = output s ++ tr1 ++ [Retrying (S retry_count)]).
      { simpl. rewrite Ho1, <- app_assoc. reflexivity. }
      split; [rewrite Ho2, Hmid, <- !app_assoc; reflexivity|].
      split; [|split].
      * apply (@updated_after_saves_app s (print (Retrying (S retry_count)) s1));
          try assumption.
        apply (@updated_after_saves_app s s1); try assumption.
        -- now apply files_kept_same.
        -- apply updated_after_saves_plain. now repeat constructor.
      * intros t1 t2 name Heq. rewrite <- app_assoc in Heq.
        destruct (@app_split_elt _ _ _ _ _ _ Heq) as [(a2 & Ha & Ht)|(b1 & Ht & Hb)].
        -- destruct (He1 _ _ _ Ha) as (-> & _ & Hc).
           split; [assumption|]. exists (S retry_count), tr2. now split.
        -- destruct b1 as [|e b1]; [discriminate|]. injection Hb as <- Hb.
           destruct (He2 _ _ _ Hb) as (Hc & Hnext).
           split; [|assumption]. subst t1.
           change (Retrying (S retry_count) :: b1)
             with ([Retrying (S retry_count)] ++ b1).
           rewrite app_assoc. now apply error_of_candidate_later.
      * intros t1 t2 name j Heq. rewrite <- app_assoc in Heq.
        destruct (@app_split_elt _ _ _ _ _ _ Heq) as [(a2 & Ha & Ht)|(b1 & Ht & Hb)].
        -- eapply Hl1; eassumption.
        -- destruct b1 as [|e b1]; [discriminate|]. injection Hb as <- Hb.
           subst t1. apply in_or_app. right. right. eapply Hl2; eassumption.
    + injection H as <- <-. exists tr1.
      split; [assumption|]. split; [assumption|]. split; [|assumption].
      apply Hquiet. discriminate.
Qed.

Lemma candidate_loop_completed (remaining : list string) :
  forall (k : nat) (s : State) (r : Result State) (i : nat),
    candidate_loop output_directory k remaining k s = (r, i) ->
    k <= i /\
    exists s_mid,
      Completed output_directory k (firstn (i - k) remaining) s s_mid /\
      loop_outcome output_directory remaining k i s_mid r.
Proof.
  induction remaining as [|name rest IH]; intros k s r i H.
  - injection H as <- <-. split; [lia|]. exists s. rewrite firstn_nil.
    split; [reflexivity|]. simpl. split; [lia|reflexivity].
  - cbn [candidate_loop] in H.
    pose proof (@search_and_handle_profiles_completes name k s) as Hcompl.
    destruct (search_and_handle_profiles [name] output_directory
                (print (ProcessingProfile name k) s)) as [s'|s'|s'] eqn:E.
    + destruct (IH _ _ _ _ H) as (Hle & s_mid & Hc & Ho).
      split; [lia|]. exists s_mid.
      replace (i - k) with (S (i - S k)) by lia. cbn [firstn Completed nth_error].
      split.
      * exists (print (IndexUpdated k) s'). split; [now apply Hcompl|exact Hc].
      * unfold loop_outcome in *. destruct r as [s2|s2|s2].
        -- destruct Ho as (-> & ->). simpl. split; [lia|reflexivity].
        -- replace (i - k) with (S (i - S k)) by lia. exact Ho.
        -- replace (i - k) with (S (i - S k)) by lia. exact Ho.
    + injection H as <- <-. split; [lia|]. exists s. rewrite Nat.sub_diag.
      split; [reflexivity|]. simpl. rewrite Nat.sub_diag. now exists name, s'.
    + injection H as <- <-. split; [lia|]. exists s. rewrite Nat.sub_diag.
      split; [reflexivity|]. simpl. rewrite Nat.sub_diag. now exists name.
Qed.

Lemma session_outcome_holds (sess : Session) (start : nat) (s : State)
    (r : Result State) (i : nat) :
  session sess names output_directory start s = (r, i) ->
  session_outcome sess names output_directory start s r i.
Proof.
  unfold session, session_outcome. intro H.
  destruct (launch_ok sess); [|now injection H as <- <-].
  destruct (linkedin_login (login_page sess)
              (print BrowserLaunched (set_page (search_page sess) s))) as [s1|s1|s1];
    [|now injection H as <- <-..].
  destruct (candidate_loop output_directory start (skipn start names) start s1)
    as [r' i'] eqn:Hloop.
  destruct (candidate_loop_completed _ _ _ Hloop) as (Hle & s_mid & Hc & Ho).
  assert (i' = i) by (destruct r'; [destruct (close_ok sess)|..]; now injection H).
  subst i'. exists s_mid, r'. split; [exact Hc|]. split; [exact Hle|].
  split; [exact Ho|].
  destruct r'; [destruct (close_ok sess)|..]; now injection H.
Qed.

(** C7.  In what a run prints, whatever the sessions meet.  (1) The index
    of a candidate is updated right after the four saves of that candidate
    returned, and (2) in the state the run is in at that point the
    candidate is completed: the resolver gave its records, each of the four
    calls of the persistor returned having appended them to its file, and
    the files keep these lines to the end of the run.  (3) A candidate is
    taken up, in the first session or after a retry, only when the
    candidates completed so far are exactly those before it, so it is the
    first one not completed, and (4) no completed candidate is taken up
    again.  (5) The error of a candidate is printed for the candidate taken
    up last, before any update of its index, and ends the session: the next
    thing printed is "Retrying...", and no candidate is taken up after it
    before a new browser is launched; (6) no candidate is taken up without
    a browser launched.  (7) The updates are those of the indices below the
    [last_processed_index] the run ends with, and (8) at most [max_retries]
    browsers are launched.

    Step by step, on the states themselves.  (9) A session started with
    [last_processed_index = start] completes the candidates from [start]
    up to the index [i] it ends with, one after the other from the state
    the login left, each by its four saves and then the update of its
    index; it returns when all are completed and the browser closes, and
    otherwise ends in the call for the candidate of index [i], whose index
    is not updated, or without any candidate when the launch or the login
    raises.  (10) After a session that raised, the next pass of the retry
    loop is given the index that session ended with; a session that
    returned ends the run. *)
Theorem resume_index_follows_the_saves (sessions : nat -> Session) (s : State) :
  let run := open_linkedin_login_and_search sessions names output_directory s in
  (exists tr : list Event,
    output (state_of (fst run)) = output s ++ tr /\
    (forall t1 t2 i,
        tr = t1 ++ IndexUpdated i :: t2 ->
        exists t0 name e1 e2 e3 e4,
          t1 = t0 ++ [ProcessingProfile name i; e1; e2; e3; e4] /\
          Saved "profiles" e1 /\ Saved "education" e2 /\
          Saved "experiences" e3 /\ Saved "skills" e4) /\
    (forall t1 t2 i,
        tr = t1 ++ IndexUpdated i :: t2 ->
        exists name before after,
          nth_error names i = Some name /\
          completes output_directory name i before after /\
          output after = output s ++ t1 ++ [IndexUpdated i] /\
          files_kept after (state_of (fst run))) /\
    (forall t1 t2 name j,
        tr = t1 ++ ProcessingProfile name j :: t2 ->
        updates t1 = seq 0 j /\ nth_error names j = Some name) /\
    (forall t1 t2 t3 i name j,
        tr = t1 ++ IndexUpdated i :: t2 ++ ProcessingProfile name j :: t3 -> i < j) /\
    (forall t1 t2 name,
        tr = t1 ++ ErrorProcessing name :: t2 ->
        (exists t0 j evs,
            t1 = t0 ++ ProcessingProfile name j :: evs /\
            Forall (fun e => persistor_event e = true) evs) /\
        exists n t3,
          t2 = Retrying n :: t3 /\
          forall t4 t5 name' j',
            t3 = t4 ++ ProcessingProfile name' j' :: t5 -> In BrowserLaunched t4) /\
    (forall t1 t2 name j,
        tr = t1 ++ ProcessingProfile name j :: t2 -> In BrowserLaunched t1) /\
    updates tr = seq 0 (snd run) /\
    launches tr <= max_retries) /\
  (forall sess start s0 r i,
      session sess names output_directory start s0 = (r, i) ->
      session_outcome sess names output_directory start s0 r i) /\
  (forall tries_left retry_count start s0,
      retry_loop (S tries_left) sessions names output_directory retry_count start s0
      = match session (sessions retry_count) names output_directory start s0 with
        | (Raised s', i) =>
            retry_loop tries_left sessions names output_directory (S retry_count) i
              (print (Retrying (S retry_count)) s')
        | ended => ended
        end) /\
  run = retry_loop max_retries sessions names output_directory 0 0 s.
Proof.
  intro run. split; [|split; [|split; [|reflexivity]]].
  2:{ intros. now apply session_outcome_holds. }
  2:{ intros. cbn [retry_loop].
      now destruct (session (sessions retry_count) names output_directory start s0)
        as [[s'|s'|s'] i]. }
  unfold open_linkedin_login_and_search in run.
  destruct run as [r i] eqn:Hrun. subst run.
  destruct (retry_loop_run_output _ _ _ _ _ _ _ Hrun)
    as (tr & Hout & (Hp & Hu & Hseq) & Hi & Hl).
  destruct (retry_loop_story _ _ _ _ _ Hrun) as (tr' & Hout' & Hsaved & Herr & Hlaunch).
  assert (tr' = tr) by (rewrite Hout in Hout'; now apply app_inv_head in Hout').
  subst tr'.
  simpl in Hi. subst i. exists tr. simpl fst; simpl snd.
  assert (Htake : forall t1 t2 name j,
             tr = t1 ++ ProcessingProfile name j :: t2 ->
             updates t1 = seq 0 j /\ nth_error names j = Some name).
  { intros t1 t2 name j Heq. destruct (Hp _ _ _ _ Heq) as (H1 & _ & H2).
    now rewrite Nat.sub_0_r in H1. }
  split; [assumption|]. split; [assumption|]. split; [exact Hsaved|].
  split; [assumption|]. split; [|split; [exact Herr|split; [exact Hlaunch|split; assumption]]].
  intros t1 t2 t3 i name j Heq.
  assert (Heq' : tr = (t1 ++ IndexUpdated i :: t2) ++ ProcessingProfile name j :: t3)
    by (rewrite Heq, <- app_assoc; reflexivity).
  destruct (Htake _ _ _ _ Heq') as (Hupd & _).
  assert (Hin : In i (seq 0 j)).
  { rewrite <- Hupd, updates_app. apply in_or_app. right. now left. }
  apply in_seq in Hin. lia.
Qed.

End ResumeChain.

(** * The match score: case, threshold and order *)





(** * A creation time that cannot be read *)

(** The only ".csv" entry is a link to a file that is gone: the listing
    shows it, reading its creation time raises, and so does the call. *)
Lemma get_recent_csv_newest_readable_csv_witness :
  get_recent_csv (Gives ["notes.txt"; "names.csv"]) (fun _ => Fails OSError) "in"
  = Fails OSError.
Proof.
  apply (proj1 (proj2 (proj2
           (@get_recent_csv_newest_readable_csv Reference.externals
              ["notes.txt"; "names.csv"] (fun _ => Fails OSError) "in")))
           [] "in/names.csv" [] OSError).
  - reflexivity.
  - intros x [].
  - reflexivity.
Defined.
